(** * Listing scraper (main.py): extraction, dates, dedup and enrichment

    A shallow embedding of the scraping core of [main.py]
    ([extract_number], [parse_listing_date],
    [calculate_listing_date_from_days], [scrape_listing_details],
    [scrape_streeteasy]) together with the properties of its
    specification.

    Modelling conventions.
    - A Python [str] is a [string]; a character is a code point below 256.
      On that range [\d] is [0-9], and re.IGNORECASE only relates the two
      cases of an ASCII letter.
    - Python integers are [Z].  [None] is [None]; a dictionary with a
      fixed key set is a record of options.
    - Truthiness is written out: a string is true when it is not empty,
      an integer when it is not zero, [None] never.
    - A [datetime] is its number of microseconds since 0001-01-01T00:00,
      with the range check of the datetime module written out.
    - Raising is explicit: fallible calls return an [outcome].  [int] on
      a string of digits raises ValueError beyond the interpreter's limit
      of 4300 digits. *)

From Stdlib Require Import ZArith String Ascii List DecimalString Bool Lia.
From stdpp Require Import gmap strings list.

Open Scope Z_scope.

(** ** Characters and strings *)

Definition chars := list ascii.

Definition code (c : ascii) : nat := nat_of_ascii c.

Definition between (lo hi : nat) (c : ascii) : bool :=
  ((lo <=? code c) && (code c <=? hi))%nat.

(** [ch.isdigit()] / [\d] on code points below 256. *)
Definition is_digit (c : ascii) : bool := between 48 57 c.

(** [ch.isspace()] / [\s]: tab..CR, FS..US, space, NEL, NBSP. *)
Definition is_space (c : ascii) : bool :=
  between 9 13 c || between 28 32 c
  || (code c =? 133)%nat || (code c =? 160)%nat.

Definition is_upper (c : ascii) : bool := between 65 90 c.
Definition is_lower (c : ascii) : bool := between 97 122 c.

(** [\w]: [ch.isalnum()] or underscore, on code points below 256. *)
Definition is_word (c : ascii) : bool :=
  is_digit c || is_upper c || is_lower c || (code c =? 95)%nat
  || (code c =? 170)%nat || (code c =? 178)%nat || (code c =? 179)%nat
  || (code c =? 181)%nat || (code c =? 185)%nat || (code c =? 186)%nat
  || between 188 190 c || between 192 214 c || between 216 246 c
  || between 248 255 c.

Definition to_lower (c : ascii) : ascii :=
  if is_upper c then ascii_of_nat (code c + 32) else c.

Definition chr_eqb (a b : ascii) : bool := (code a =? code b)%nat.

(** Literal comparison, folding ASCII case when [ci] (re.I) is set. *)
Definition chr_match (ci : bool) (p x : ascii) : bool :=
  if ci then chr_eqb (to_lower p) (to_lower x) else chr_eqb p x.

Fixpoint is_prefix (p s : chars) : bool :=
  match p, s with
  | [], _ => true
  | a :: p', b :: s' => chr_eqb a b && is_prefix p' s'
  | _ :: _, [] => false
  end.

(** [s.replace(old, new)] for a non-empty [old]: occurrences are replaced
    left to right without overlap.  [skip] counts the characters of an
    occurrence already replaced. *)
Fixpoint replace_go (old new : chars) (skip : nat) (s : chars) : chars :=
  match s with
  | [] => []
  | c :: s' =>
      match skip with
      | S k => replace_go old new k s'
      | O =>
          if is_prefix old s
          then (new ++ replace_go old new (length old - 1) s')%list
          else c :: replace_go old new 0 s'
      end
  end.

Definition replace (old new s : string) : string :=
  string_of_list_ascii
    (replace_go (list_ascii_of_string old) (list_ascii_of_string new) 0
       (list_ascii_of_string s)).

Fixpoint lstrip (s : chars) : chars :=
  match s with
  | c :: s' => if is_space c then lstrip s' else s
  | [] => []
  end.

(** [s.strip()] *)
Definition strip (s : string) : string :=
  string_of_list_ascii
    (rev (lstrip (rev (lstrip (list_ascii_of_string s))))).

(** [s.startswith(p)] *)
Definition startswith (p s : string) : bool :=
  is_prefix (list_ascii_of_string p) (list_ascii_of_string s).

(** [p in s] for strings. *)
Fixpoint contains_go (p s : chars) : bool :=
  is_prefix p s
  || match s with
     | [] => false
     | _ :: s' => contains_go p s'
     end.

Definition contains (p s : string) : bool :=
  contains_go (list_ascii_of_string p) (list_ascii_of_string s).

(** [int(s)] on a run of decimal digits. *)
Definition digit_val (c : ascii) : Z := Z.of_nat (code c - 48).

Definition int_of_digits (s : chars) : Z :=
  fold_left (fun acc c => 10 * acc + digit_val c) s 0.

(** [str(n)] for an integer. *)
Definition str_of_int (n : Z) : string := NilZero.string_of_int (Z.to_int n).

(** Truthiness of optional strings and integers. *)
Definition truthy_str (o : option string) : bool :=
  match o with
  | Some s => negb (String.eqb s "")
  | None => false
  end.

Definition truthy_int (o : option Z) : bool :=
  match o with
  | Some n => negb (n =? 0)
  | None => false
  end.

(** ** Regular expressions

    The fragment of Python's [re] syntax that the patterns of the
    program use, with the backtracking semantics of the [re] engine:
    alternatives are tried left to right, quantifiers are greedy and
    give back one repetition at a time, [re.search] takes the leftmost
    start position that admits a match. *)

Inductive cset_item :=
| CChar (c : ascii)
| CRange (lo hi : ascii)
| CDigit
| CSpace
| CWord.

Inductive regex :=
| REmpty
| RChar (c : ascii)
| RAny
| RSet (items : list cset_item)
| RWordB
| RSeq (r1 r2 : regex)
| RAlt (r1 r2 : regex)
| RRep (lo : nat) (hi : option nat) (r : regex)
| RGroup (n : nat) (r : regex).

Definition in_item (ci : bool) (x : ascii) (it : cset_item) : bool :=
  match it with
  | CChar c => chr_match ci c x
  | CRange lo hi =>
      between (code lo) (code hi) x
      || (ci && (between (code lo) (code hi) (to_lower x)
                 || (is_lower x
                     && between (code lo) (code hi)
                          (ascii_of_nat (code x - 32)))))
  | CDigit => is_digit x
  | CSpace => is_space x
  | CWord => is_word x
  end.

Definition in_set (ci : bool) (items : list cset_item) (x : ascii) : bool :=
  existsb (in_item ci x) items.

(** Captured groups, most recent binding first. *)
Definition captures := list (nat * chars).

Fixpoint cap_lookup (n : nat) (c : captures) : option chars :=
  match c with
  | [] => None
  | (m, v) :: c' => if (n =? m)%nat then Some v else cap_lookup n c'
  end.

Definition word_before (prev : option ascii) : bool :=
  match prev with Some c => is_word c | None => false end.

Definition word_after (s : chars) : bool :=
  match s with c :: _ => is_word c | [] => false end.

Definition may_repeat (hi : option nat) (cnt : nat) : bool :=
  match hi with Some h => (cnt <? h)%nat | None => true end.

Section Matcher.
Context {R : Type}.

(** [re_match r ci prev s c k]: match [r] at the head of [s] ([prev] is
    the character before it), then continue with [k]; [None] asks the
    caller to backtrack.  An iteration of a repetition has to consume a
    character, which every repeated sub-pattern of the program does. *)
Fixpoint re_match (r : regex) (ci : bool) (prev : option ascii) (s : chars)
    (c : captures)
    (k : option ascii -> chars -> captures -> option R) {struct r}
    : option R :=
  match r with
  | REmpty => k prev s c
  | RChar a =>
      match s with
      | x :: s' => if chr_match ci a x then k (Some x) s' c else None
      | [] => None
      end
  | RAny =>
      match s with
      | x :: s' => if (code x =? 10)%nat then None else k (Some x) s' c
      | [] => None
      end
  | RSet items =>
      match s with
      | x :: s' => if in_set ci items x then k (Some x) s' c else None
      | [] => None
      end
  | RWordB =>
      if xorb (word_before prev) (word_after s) then k prev s c else None
  | RSeq r1 r2 =>
      re_match r1 ci prev s c (fun p' s' c' => re_match r2 ci p' s' c' k)
  | RAlt r1 r2 =>
      match re_match r1 ci prev s c k with
      | Some x => Some x
      | None => re_match r2 ci prev s c k
      end
  | RGroup n r1 =>
      re_match r1 ci prev s c
        (fun p' s' c' =>
           k p' s' ((n, take (length s - length s')%nat s) :: c'))
  | RRep lo hi r1 =>
      (fix loop (fuel cnt : nat) (prev : option ascii) (s : chars)
           (c : captures) {struct fuel} : option R :=
         let stop := if (lo <=? cnt)%nat then k prev s c else None in
         match fuel with
         | O => stop
         | S fuel' =>
             if may_repeat hi cnt then
               match
                 re_match r1 ci prev s c
                   (fun p' s' c' =>
                      if (length s' <? length s)%nat
                      then loop fuel' (S cnt) p' s' c'
                      else None)
               with
               | Some x => Some x
               | None => stop
               end
             else stop
         end) (length s) O prev s c
  end.
End Matcher.

(** The loop of a repetition, by name: [re_match] on [RRep lo hi r1] is
    this loop started with the length of the text as fuel and a count of
    zero (lemma [re_match_rep]). *)
Section RepLoop.
Context {R : Type}.
Variables (lo : nat) (hi : option nat) (r1 : regex) (ci : bool)
  (k : option ascii -> chars -> captures -> option R).

Fixpoint rep_loop (fuel cnt : nat) (prev : option ascii) (s : chars)
    (c : captures) {struct fuel} : option R :=
  let stop := if (lo <=? cnt)%nat then k prev s c else None in
  match fuel with
  | O => stop
  | S fuel' =>
      if may_repeat hi cnt then
        match
          re_match r1 ci prev s c
            (fun p' s' c' =>
               if (length s' <? length s)%nat
               then rep_loop fuel' (S cnt) p' s' c'
               else None)
        with
        | Some x => Some x
        | None => stop
        end
      else stop
  end.
End RepLoop.

(** The character that precedes the rest of the text after a run. *)
Definition run_end (prev : option ascii) (ds : chars) : option ascii :=
  match last ds with Some d => Some d | None => prev end.

(** What [\d+] compiles to (lemma [compile_digits]). *)
Definition digits_regex : regex := RSeq (RRep 1 None (RSet [CDigit])) REmpty.

(** A match object: [group()] and the numbered groups. *)
Record re_result := {
  group0 : string;
  groups : captures
}.

Definition group (n : nat) (m : re_result) : option string :=
  string_of_list_ascii <$> cap_lookup n (groups m).

Definition match_here (r : regex) (ci : bool) (prev : option ascii)
    (s : chars) : option re_result :=
  re_match r ci prev s []
    (fun _ s' c =>
       Some {| group0 := string_of_list_ascii
                           (take (length s - length s')%nat s);
               groups := c |}).

Fixpoint search_from (r : regex) (ci : bool) (prev : option ascii)
    (s : chars) : option re_result :=
  match match_here r ci prev s with
  | Some m => Some m
  | None =>
      match s with
      | [] => None
      | x :: s' => search_from r ci (Some x) s'
      end
  end.

(** ** Reading a pattern

    [re.compile] for the syntax used by the program: literals, [.],
    escapes ([\d \s \w \b \uXXXX] and escaped punctuation), character
    sets, capturing and [(?:...)] groups, alternation and the greedy
    quantifiers [? * + {m} {m,n}].  Anything else is refused ([None]). *)

Definition is_alnum_ascii (c : ascii) : bool :=
  is_digit c || is_upper c || is_lower c.

Definition hex_val (c : ascii) : option nat :=
  if is_digit c then Some (code c - 48)%nat
  else if between 65 70 c then Some (code c - 55)%nat
  else if between 97 102 c then Some (code c - 87)%nat
  else None.

Fixpoint read_nat (acc : nat) (s : chars) : nat * chars :=
  match s with
  | c :: s' =>
      if is_digit c then read_nat (10 * acc + (code c - 48))%nat s'
      else (acc, s)
  | [] => (acc, s)
  end.

Definition class_escape (c : ascii) : option cset_item :=
  if chr_eqb c "d" then Some CDigit
  else if chr_eqb c "s" then Some CSpace
  else if chr_eqb c "w" then Some CWord
  else if is_alnum_ascii c then None
  else Some (CChar c).

(** The items of a set, after the opening bracket. *)
Fixpoint p_set (s : chars) : option (list cset_item * chars) :=
  match s with
  | [] => None
  | c :: s1 =>
      if chr_eqb c "]" then Some ([], s1)
      else if chr_eqb c "\" then
        match s1 with
        | e :: s2 =>
            match class_escape e, p_set s2 with
            | Some it, Some (its, rest) => Some (it :: its, rest)
            | _, _ => None
            end
        | [] => None
        end
      else
        match s1 with
        | d :: (h :: s3) as s2 =>
            if chr_eqb d "-" && negb (chr_eqb h "]") then
              if chr_eqb h "\" then None
              else
                match p_set s3 with
                | Some (its, rest) => Some (CRange c h :: its, rest)
                | None => None
                end
            else
              match p_set s1 with
              | Some (its, rest) => Some (CChar c :: its, rest)
              | None => None
              end
        | _ =>
            match p_set s1 with
            | Some (its, rest) => Some (CChar c :: its, rest)
            | None => None
            end
        end
  end.

Definition no_modifier (s : chars) : bool :=
  match s with
  | c :: _ => negb (chr_eqb c "?" || chr_eqb c "+")
  | [] => true
  end.

(** A quantifier after the atom [a], if there is one. *)
Definition p_quant (a : regex) (s : chars) : option (regex * chars) :=
  match s with
  | c :: s1 =>
      if chr_eqb c "?" then
        if no_modifier s1 then Some (RRep 0 (Some 1%nat) a, s1) else None
      else if chr_eqb c "*" then
        if no_modifier s1 then Some (RRep 0 None a, s1) else None
      else if chr_eqb c "+" then
        if no_modifier s1 then Some (RRep 1 None a, s1) else None
      else if chr_eqb c "{" then
        let '(lo, s2) := read_nat 0 s1 in
        match s2 with
        | d :: s3 =>
            if chr_eqb d "}" then
              if no_modifier s3 then Some (RRep lo (Some lo) a, s3) else None
            else if chr_eqb d "," then
              match s3 with
              | e :: s4 =>
                  if chr_eqb e "}" then
                    if no_modifier s4 then Some (RRep lo None a, s4) else None
                  else
                    let '(hi, s5) := read_nat 0 s3 in
                    match s5 with
                    | f :: s6 =>
                        if chr_eqb f "}" && no_modifier s6
                        then Some (RRep lo (Some hi) a, s6) else None
                    | [] => None
                    end
              | [] => None
              end
            else None
        | [] => None
        end
      else Some (a, s)
  | [] => Some (a, s)
  end.

(** An escape outside a set, after the backslash. *)
Definition p_escape (s : chars) : option (regex * chars) :=
  match s with
  | e :: s1 =>
      if chr_eqb e "b" then Some (RWordB, s1)
      else if chr_eqb e "u" then
        match s1 with
        | a :: b :: c :: d :: s2 =>
            match hex_val a, hex_val b, hex_val c, hex_val d with
            | Some x3, Some x2, Some x1, Some x0 =>
                let n := (((x3 * 16 + x2) * 16 + x1) * 16 + x0)%nat in
                if (n <? 256)%nat then Some (RChar (ascii_of_nat n), s2)
                else None
            | _, _, _, _ => None
            end
        | _ => None
        end
      else
        match class_escape e with
        | Some (CChar c) => Some (RChar c, s1)
        | Some it => Some (RSet [it], s1)
        | None => None
        end
  | [] => None
  end.

Definition ends_branch (s : chars) : bool :=
  match s with
  | c :: _ => chr_eqb c ")" || chr_eqb c "|"
  | [] => true
  end.

Definition is_special (c : ascii) : bool :=
  chr_eqb c "*" || chr_eqb c "+" || chr_eqb c "?" || chr_eqb c "{"
  || chr_eqb c "^" || chr_eqb c "$" || chr_eqb c ")" || chr_eqb c "|".

(** Alternation, sequence and atom; [g] counts the capturing groups
    opened so far, which numbers them as Python does. *)
Fixpoint p_alt (fuel : nat) (s : chars) (g : nat) {struct fuel}
    : option (regex * chars * nat) :=
  match fuel with
  | O => None
  | S f =>
      match p_seq f s g with
      | Some (r1, s1, g1) =>
          match s1 with
          | c :: s2 =>
              if chr_eqb c "|" then
                match p_alt f s2 g1 with
                | Some (r2, s3, g2) => Some (RAlt r1 r2, s3, g2)
                | None => None
                end
              else Some (r1, s1, g1)
          | [] => Some (r1, s1, g1)
          end
      | None => None
      end
  end
with p_seq (fuel : nat) (s : chars) (g : nat) {struct fuel}
    : option (regex * chars * nat) :=
  match fuel with
  | O => None
  | S f =>
      if ends_branch s then Some (REmpty, s, g)
      else
        match p_atom f s g with
        | Some (a, s1, g1) =>
            match p_quant a s1 with
            | Some (a', s2) =>
                match p_seq f s2 g1 with
                | Some (r, s3, g2) => Some (RSeq a' r, s3, g2)
                | None => None
                end
            | None => None
            end
        | None => None
        end
  end
with p_atom (fuel : nat) (s : chars) (g : nat) {struct fuel}
    : option (regex * chars * nat) :=
  match fuel with
  | O => None
  | S f =>
      match s with
      | [] => None
      | c :: s1 =>
          if chr_eqb c "(" then
            match s1 with
            | q :: s2 =>
                if chr_eqb q "?" then
                  match s2 with
                  | col :: s3 =>
                      if chr_eqb col ":" then
                        match p_alt f s3 g with
                        | Some (r, cl :: s4, g1) =>
                            if chr_eqb cl ")" then Some (r, s4, g1) else None
                        | _ => None
                        end
                      else None
                  | [] => None
                  end
                else
                  match p_alt f s1 (S g) with
                  | Some (r, cl :: s4, g1) =>
                      if chr_eqb cl ")" then Some (RGroup (S g) r, s4, g1)
                      else None
                  | _ => None
                  end
            | [] => None
            end
          else if chr_eqb c "[" then
            match s1 with
            | n :: _ =>
                if chr_eqb n "^" then None
                else
                  match p_set s1 with
                  | Some (its, rest) => Some (RSet its, rest, g)
                  | None => None
                  end
            | [] => None
            end
          else if chr_eqb c "\" then
            match p_escape s1 with
            | Some (r, rest) => Some (r, rest, g)
            | None => None
            end
          else if chr_eqb c "." then Some (RAny, s1, g)
          else if is_special c then None
          else Some (RChar c, s1, g)
      end
  end.

Definition re_compile (pattern : string) : option regex :=
  let s := list_ascii_of_string pattern in
  match p_alt (3 * length s + 3) s 0 with
  | Some (r, [], _) => Some r
  | _ => None
  end.

(** Flags of a search: only re.IGNORECASE occurs. *)
Inductive re_flags := NoFlags | IgnoreCase.

Definition ignore_case (f : re_flags) : bool :=
  match f with IgnoreCase => true | NoFlags => false end.

(** [re.search(pattern, text, flags)].  The patterns of the program are
    constants that all compile (see [patterns_compile] below). *)
Definition re_search (pattern : string) (text : string) (f : re_flags)
    : option re_result :=
  match re_compile pattern with
  | Some r => search_from r (ignore_case f) None (list_ascii_of_string text)
  | None => None
  end.

(** ** Exceptions *)

Inductive exn :=
| HTTPError (status_code : Z)
| ValueError
| OverflowError
| OtherError.

Inductive outcome (A : Type) :=
| Return (a : A)
| Raise (e : exn).

Arguments Return {A} a.
Arguments Raise {A} e.

Definition obind {A B} (m : outcome A) (f : A -> outcome B) : outcome B :=
  match m with
  | Return a => f a
  | Raise e => Raise e
  end.

(** [try: body except Exception: handler] *)
Definition try_except {A} (body : outcome A) (handler : exn -> outcome A)
    : outcome A :=
  match body with
  | Return a => Return a
  | Raise e => handler e
  end.

(** ** The datetime module *)

Definition datetime := Z.
Definition timedelta := Z.

Definition usec_per_day : Z := 86400000000.

(** [date.max.toordinal()] *)
Definition max_ordinal : Z := 3652059.

Definition datetime_ok (t : datetime) : Prop :=
  0 <= t < max_ordinal * usec_per_day.

(** [timedelta(days=d)] *)
Definition timedelta_days (d : Z) : outcome timedelta :=
  if Z.abs d <=? 999999999 then Return (d * usec_per_day)
  else Raise OverflowError.

(** [t - delta] on a datetime: the result has to be a date of the years
    1 to 9999. *)
Definition datetime_sub (t : datetime) (delta : timedelta)
    : outcome datetime :=
  let r := t - delta in
  if (0 <=? r) && (r <? max_ordinal * usec_per_day) then Return r
  else Raise OverflowError.

(** [a - b] on two datetimes. *)
Definition datetime_diff (a b : datetime) : timedelta := a - b.

(** [delta.days]: timedelta normalises with floor division. *)
Definition td_days (delta : timedelta) : Z := delta / usec_per_day.

(** ** extract_number *)

Definition falsy_str (o : option string) : bool := negb (truthy_str o).

(** [sys.get_int_max_str_digits()], as the interpreter sets it. *)
Definition int_max_str_digits : Z := 4300.

(** [int(s)] on a run of decimal digits: a run longer than the limit is
    refused with a ValueError. *)
Definition int_of_str (s : chars) : outcome Z :=
  if int_max_str_digits <? Z.of_nat (length s) then Raise ValueError
  else Return (int_of_digits s).

Definition extract_number (text : option string) : outcome (option Z) :=
  match text with
  | None => Return None
  | Some t =>
      if falsy_str text then Return None
      else
        let cleaned :=
          strip (replace "/month" "" (replace "/mo" ""
                   (replace "," "" (replace "$" "" t)))) in
        match re_search "\d+" cleaned NoFlags with
        | Some m =>
            obind (int_of_str (list_ascii_of_string (group0 m)))
              (fun v => Return (Some v))
        | None => Return None
        end
  end.

(** ** Pattern cascades *)

(** [for pattern in patterns: ... break]: the first pattern, in order,
    for which the body succeeds. *)
Fixpoint cascade {B} (body : string -> option B) (patterns : list string)
    : option B :=
  match patterns with
  | [] => None
  | p :: rest =>
      match body p with
      | Some b => Some b
      | None => cascade body rest
      end
  end.

(** The same loop with a body that can raise: the exception leaves the
    loop. *)
Fixpoint cascade_raising {B} (body : string -> outcome (option B))
    (patterns : list string) : outcome (option B) :=
  match patterns with
  | [] => Return None
  | p :: rest =>
      match body p with
      | Return (Some b) => Return (Some b)
      | Return None => cascade_raising body rest
      | Raise e => Raise e
      end
  end.

(** A numeric field of the detail page: the first pattern that matches
    and whose number passes the test. *)
Definition detail_number (accept : Z -> bool) (patterns : list string)
    (text : string) : outcome (option Z) :=
  cascade_raising
    (fun p =>
       match re_search p text IgnoreCase with
       | Some m =>
           match extract_number (group 1 m) with
           | Return (Some v) =>
               Return (if negb (v =? 0) && accept v then Some v else None)
           | Return None => Return None
           | Raise e => Raise e
           end
       | None => Return None
       end)
    patterns.

(** A numeric field of a card: the first pattern that matches decides. *)
Definition card_number (patterns : list string) (text : string)
    : outcome (option Z) :=
  match cascade (fun p => re_search p text IgnoreCase) patterns with
  | Some m => extract_number (group 1 m)
  | None => Return None
  end.

Definition superscript_two : string := String (ascii_of_nat 178) EmptyString.

Module Detail.

Definition date_patterns : list string :=
  [ "Sales?\s+start\s*:?\s*(\d{1,2}/\d{1,2}/\d{4})";
    "Listed\s*:?\s*(\d{1,2}/\d{1,2}/\d{4})";
    "List(?:ing)?\s+date\s*:?\s*(\d{1,2}/\d{1,2}/\d{4})";
    "(?:On\s+market|Listed)\s+(?:since|on)\s*:?\s*(\d{1,2}/\d{1,2}/\d{4})" ].

Definition days_patterns : list string :=
  [ "Days?\s+on\s+market\s*:?\s*(\d+)\s*days?";
    "(\d+)\s*days?\s+on\s+market";
    "Listed\s+for\s+(\d+)\s*days?";
    "On\s+market\s+for\s+(\d+)\s*days?" ].

Definition sqft_patterns : list string :=
  [ "(\d[\d,]+)\s*sq\.?\s*f(?:ee)?t";
    "(\d[\d,]+)\s*sqft";
    "(\d[\d,]+)\s*SF\b";
    "(?:interior|size)\s*:?\s*(\d[\d,]+)";
    "approx\.?\s*(\d[\d,]+)\s*sq";
    "(\d[\d,]+)\s*square\s*feet";
    "total\s*:?\s*(\d[\d,]+)\s*sq";
    "area\s*:?\s*(\d[\d,]+)\s*sq";
    ("(\d[\d,]+)\s*ft(?:\u00B2|" ++ superscript_two ++ ")")%string ].

Definition tax_patterns : list string :=
  [ "monthly\s*taxes?\s*:?\s*\$?([\d,]+)";
    "taxes?\s*\(?monthly\)?\s*:?\s*\$?([\d,]+)";
    "taxes?\s*:?\s*\$?([\d,]+)\s*/?mo";
    "taxes?\s*:?\s*\$?([\d,]+)\s*per\s*month";
    "\$?([\d,]+)\s*/?mo\s*taxes?";
    "property\s*tax\s*:?\s*\$?([\d,]+)";
    "tax\s*:?\s*\$?([\d,]+)\s*monthly" ].

Definition fee_patterns : list string :=
  [ "common\s*charges?\s*:?\s*\$?([\d,]+)";
    "maintenance\s*:?\s*\$?([\d,]+)";
    "HOA\s*(?:fees?)?\s*:?\s*\$?([\d,]+)";
    "monthly\s*(?:common\s*)?charges?\s*:?\s*\$?([\d,]+)";
    "\$?([\d,]+)\s*/?mo\s*(?:common|maint|CC)";
    "CC\s*:?\s*\$?([\d,]+)";
    "common\s*:?\s*\$?([\d,]+)\s*/?mo";
    "maint\.?\s*:?\s*\$?([\d,]+)\s*/?mo" ].

(** [200 <= sqft_val <= 10000] *)
Definition sqft_ok (v : Z) : bool := (200 <=? v) && (v <=? 10000).
(** [0 < tax_val < 50000] *)
Definition tax_ok (v : Z) : bool := (0 <? v) && (v <? 50000).
(** [0 < fee_val < 20000] *)
Definition fee_ok (v : Z) : bool := (0 <? v) && (v <? 20000).

Definition sqft (text : string) : outcome (option Z) :=
  detail_number sqft_ok sqft_patterns text.
Definition taxes (text : string) : outcome (option Z) :=
  detail_number tax_ok tax_patterns text.
Definition fees (text : string) : outcome (option Z) :=
  detail_number fee_ok fee_patterns text.

End Detail.

Module Card.

Definition sqft_patterns : list string :=
  [ "(\d[\d,]*)\s*sq\.?\s*ft";
    "(\d[\d,]*)\s*sqft";
    "(\d[\d,]*)\s*SF" ].

Definition tax_patterns : list string :=
  [ "taxes?\s*[:\-]?\s*\$?([\d,]+)(?:/mo|/month)?";
    "\$?([\d,]+)\s*(?:/mo|/month)?\s*taxes?" ].

Definition fee_patterns : list string :=
  [ "common charges?\s*[:\-]?\s*\$?([\d,]+)(?:/mo)?";
    "maint(?:enance)?\s*[:\-]?\s*\$?([\d,]+)(?:/mo)?" ].

Definition sqft (card_text : string) : outcome (option Z) :=
  card_number sqft_patterns card_text.
Definition taxes (card_text : string) : outcome (option Z) :=
  card_number tax_patterns card_text.
Definition fees (card_text : string) : outcome (option Z) :=
  card_number fee_patterns card_text.

End Card.

(** ** Listing records *)

(** The dictionary built for every card: the nine keys are always there,
    each holding [None] or a value. *)
Record listing := {
  address : option string;
  neighborhood : option string;
  price : option Z;
  sqft : option Z;
  taxes : option Z;
  fees : option Z;
  listing_date : option datetime;
  days_on_market : option Z;
  url : option string
}.

Definition empty_listing : listing :=
  {| address := None; neighborhood := None; price := None; sqft := None;
     taxes := None; fees := None; listing_date := None;
     days_on_market := None; url := None |}.

Definition set_address (v : option string) (l : listing) : listing :=
  {| address := v; neighborhood := neighborhood l; price := price l;
     sqft := sqft l; taxes := taxes l; fees := fees l;
     listing_date := listing_date l; days_on_market := days_on_market l;
     url := url l |}.

Definition set_neighborhood (v : option string) (l : listing) : listing :=
  {| address := address l; neighborhood := v; price := price l;
     sqft := sqft l; taxes := taxes l; fees := fees l;
     listing_date := listing_date l; days_on_market := days_on_market l;
     url := url l |}.

Definition set_price (v : option Z) (l : listing) : listing :=
  {| address := address l; neighborhood := neighborhood l; price := v;
     sqft := sqft l; taxes := taxes l; fees := fees l;
     listing_date := listing_date l; days_on_market := days_on_market l;
     url := url l |}.

Definition set_sqft (v : option Z) (l : listing) : listing :=
  {| address := address l; neighborhood := neighborhood l; price := price l;
     sqft := v; taxes := taxes l; fees := fees l;
     listing_date := listing_date l; days_on_market := days_on_market l;
     url := url l |}.

Definition set_taxes (v : option Z) (l : listing) : listing :=
  {| address := address l; neighborhood := neighborhood l; price := price l;
     sqft := sqft l; taxes := v; fees := fees l;
     listing_date := listing_date l; days_on_market := days_on_market l;
     url := url l |}.

Definition set_fees (v : option Z) (l : listing) : listing :=
  {| address := address l; neighborhood := neighborhood l; price := price l;
     sqft := sqft l; taxes := taxes l; fees := v;
     listing_date := listing_date l; days_on_market := days_on_market l;
     url := url l |}.

Definition set_listing_date (v : option datetime) (l : listing) : listing :=
  {| address := address l; neighborhood := neighborhood l; price := price l;
     sqft := sqft l; taxes := taxes l; fees := fees l;
     listing_date := v; days_on_market := days_on_market l;
     url := url l |}.

Definition set_days_on_market (v : option Z) (l : listing) : listing :=
  {| address := address l; neighborhood := neighborhood l; price := price l;
     sqft := sqft l; taxes := taxes l; fees := fees l;
     listing_date := listing_date l; days_on_market := v;
     url := url l |}.

Definition set_url (v : option string) (l : listing) : listing :=
  {| address := address l; neighborhood := neighborhood l; price := price l;
     sqft := sqft l; taxes := taxes l; fees := fees l;
     listing_date := listing_date l; days_on_market := days_on_market l;
     url := v |}.

(** [listing['url'] or listing['address']] *)
Definition identifiable (l : listing) : bool :=
  truthy_str (url l) || truthy_str (address l).

(** The [details] dictionary of a detail page: a key is there only
    once it has been assigned. *)
Record details := {
  det_sqft : option Z;
  det_taxes : option Z;
  det_fees : option Z;
  det_listing_date : option datetime;
  det_days_on_market : option Z
}.

Definition empty_details : details :=
  {| det_sqft := None; det_taxes := None; det_fees := None;
     det_listing_date := None; det_days_on_market := None |}.

(** ** Deduplication *)

(** The value of a key when it is true, i.e. present and not empty. *)
Definition nonempty (o : option string) : option string :=
  match o with
  | Some s => if String.eqb s "" then None else Some s
  | None => None
  end.

Record dedup_state := {
  seen_urls : gset string;
  seen_addresses : gset string;
  unique_listings : list listing
}.

Definition dedup_init : dedup_state :=
  {| seen_urls := ∅; seen_addresses := ∅; unique_listings := [] |}.

(** One iteration of [for listing in all_listings]. *)
Definition dedup_step (st : dedup_state) (l : listing) : dedup_state :=
  match nonempty (url l) with
  | Some u =>
      if bool_decide (u ∈ seen_urls st) then st
      else {| seen_urls := seen_urls st ∪ {[u]};
              seen_addresses := seen_addresses st;
              unique_listings := unique_listings st ++ [l] |}
  | None =>
      match nonempty (address l) with
      | Some a =>
          if bool_decide (a ∈ seen_addresses st) then st
          else {| seen_urls := seen_urls st;
                  seen_addresses := seen_addresses st ∪ {[a]};
                  unique_listings := unique_listings st ++ [l] |}
      | None => st
      end
  end.

Definition dedup (all_listings : list listing) : list listing :=
  unique_listings (fold_left dedup_step all_listings dedup_init).

(** The same selection, said as the specification says it: walking the
    records in order, a record with a URL is kept when no earlier record
    has that URL; a record without one is kept when it has an address
    that no earlier record without URL has. *)
Definition first_occurrence (earlier : list listing) (l : listing) : bool :=
  match nonempty (url l) with
  | Some u =>
      forallb (fun e => negb (bool_decide (nonempty (url e) = Some u)))
        earlier
  | None =>
      match nonempty (address l) with
      | Some a =>
          forallb
            (fun e =>
               negb (bool_decide (nonempty (url e) = None
                                  /\ nonempty (address e) = Some a)))
            earlier
      | None => false
      end
  end.

Fixpoint keep_first_occurrences (earlier rest : list listing)
    : list listing :=
  match rest with
  | [] => []
  | l :: rest' =>
      (if first_occurrence earlier l then [l] else [])
        ++ keep_first_occurrences (earlier ++ [l]) rest'
  end.

(** What the two sets and the list hold after the records of [l]. *)
Definition dedup_inv (l : list listing) (st : dedup_state) : Prop :=
  (forall u, u ∈ seen_urls st
             <-> exists y, In y l /\ nonempty (url y) = Some u)
  /\ (forall a, a ∈ seen_addresses st
                <-> exists y, In y l /\ nonempty (url y) = None
                              /\ nonempty (address y) = Some a)
  /\ unique_listings st = keep_first_occurrences [] l.

(** ** The search URL

    [get_area_ids] and [build_search_url].  The two tables come from the
    [constants] module: [AREA_IDS] is a dictionary from neighbourhood
    names to area numbers, kept here as the list of its items in
    insertion order (a name occurs once), and [PROPERTY_TYPE_CODES] is a
    dictionary from property types to codes.  The limits are integers or
    [None]. *)

(** [d[name]] / [name in d] on the items of a dictionary. *)
Fixpoint dict_get (name : string) (items : list (string * Z)) : option Z :=
  match items with
  | [] => None
  | (k, v) :: rest => if String.eqb k name then Some v else dict_get name rest
  end.

(** [sep.join(parts)] *)
Fixpoint join_with (sep : string) (parts : list string) : string :=
  match parts with
  | [] => EmptyString
  | [p] => p
  | p :: rest => (p ++ sep ++ join_with sep rest)%string
  end.

Definition get_area_ids (AREA_IDS : list (string * Z))
    (neighborhoods : option (list string)) : list Z :=
  match neighborhoods with
  | Some ((_ :: _) as names) =>
      omap (fun name => dict_get name AREA_IDS) names
  | _ => map snd AREA_IDS
  end.

(** [limit and limit > 0] *)
Definition positive_limit (limit : option Z) : bool :=
  truthy_int limit && match limit with Some v => 0 <? v | None => false end.

(** The filter of one limit, when the limit is set. *)
Definition limit_filter (prefix : string) (limit : option Z) : list string :=
  match limit with
  | Some v => if positive_limit limit then [(prefix ++ str_of_int v)%string]
              else []
  | None => []
  end.

Definition base_url : string := "https://streeteasy.com/for-sale/nyc".

(** The list [filters] of [build_search_url], in the order of the
    appends. *)
Definition search_filters (PROPERTY_TYPE_CODES : gmap string string)
    (AREA_IDS : list (string * Z)) (max_price : option Z)
    (property_type : string) (max_taxes max_fees : option Z)
    (neighborhoods : option (list string)) (min_sqft : option Z)
    : list string :=
  let type_filter :=
    match nonempty (PROPERTY_TYPE_CODES !! property_type) with
    | Some type_code => [("type:" ++ type_code)%string]
    | None => []
    end in
  let area_ids := get_area_ids AREA_IDS neighborhoods in
  let area_filter :=
    match area_ids with
    | [] => ["area:101"%string]
    | _ => [("area:" ++ join_with "," (map str_of_int area_ids))%string]
    end in
  type_filter ++ limit_filter "price:-" max_price
  ++ limit_filter "sqft>=" min_sqft ++ area_filter
  ++ limit_filter "maintenance<=" max_fees
  ++ limit_filter "taxes<=" max_taxes.

Definition build_search_url (PROPERTY_TYPE_CODES : gmap string string)
    (AREA_IDS : list (string * Z)) (max_price : option Z)
    (property_type : string) (max_taxes max_fees : option Z)
    (neighborhoods : option (list string)) (min_sqft : option Z) : string :=
  let filters :=
    search_filters PROPERTY_TYPE_CODES AREA_IDS max_price property_type
      max_taxes max_fees neighborhoods min_sqft in
  let url :=
    match filters with
    | [] => base_url
    | _ => (base_url ++ "/" ++ join_with "|" filters)%string
    end in
  (url ++ "?sort_by=listed_desc")%string.

(** ** Reading a result list and a trace *)

(** The two keys of deduplication: the URL when there is one, the
    address of a record without URL. *)
Definition url_key (l : listing) : option string := nonempty (url l).

Definition address_key (l : listing) : option string :=
  match nonempty (url l) with
  | Some _ => None
  | None => nonempty (address l)
  end.

(** ** The enrichment merge (the five conditional updates) *)

Definition merge_details (d : details) (l : listing) : listing :=
  let l := if truthy_int (det_sqft d) then set_sqft (det_sqft d) l else l in
  let l := if truthy_int (det_taxes d) then set_taxes (det_taxes d) l else l in
  let l := if truthy_int (det_fees d) then set_fees (det_fees d) l else l in
  let l := match det_listing_date d with
           | Some _ => set_listing_date (det_listing_date d) l
           | None => l
           end in
  let l := if truthy_int (det_days_on_market d)
           then set_days_on_market (det_days_on_market d) l else l in
  l.

(** ** Effects: requests, counters, clock, user interface

    The program talks to the ScrapingBee service, reads the clock, sleeps
    and writes to the page.  A [world] records what has been done so far;
    a computation takes a world and gives an outcome and the next world.
    The service and the clock are oracles: the [n]-th request of a run
    and the [n]-th reading of the clock are answered by [server n] and
    [clock n].  The [st.cache_data] memoisation is left out: every call
    is executed. *)

Inductive message :=
| AccessForbidden           (* "Access forbidden (403). Check your ..." *)
| HttpErrorMessage (status_code : Z)   (* "HTTP Error: ..." *)
| ErrorMessage.             (* "Error: ..." *)

Inductive event :=
| Requested (target : string)
| Slept (seconds : Z)
| StError (m : message)
| ProgressStart (total : nat)
| ProgressUpdate (done total : nat)
| ProgressEmpty.

Record world := {
  api_calls : option Z;      (* st.session_state.api_calls *)
  api_credits : option Z;    (* st.session_state.api_credits *)
  requests : nat;            (* requests sent so far *)
  ticks : nat;               (* clock readings so far *)
  trace : list event
}.

Definition initial_world : world :=
  {| api_calls := None; api_credits := None; requests := 0; ticks := 0;
     trace := [] |}.

Definition M (A : Type) : Type := world -> outcome A * world.

Definition ret {A} (a : A) : M A := fun w => (Return a, w).

Definition bind {A B} (m : M A) (f : A -> M B) : M B :=
  fun w =>
    match m w with
    | (Return a, w') => f a w'
    | (Raise e, w') => (Raise e, w')
    end.

Definition lift {A} (o : outcome A) : M A := fun w => (o, w).

(** [try: m except Exception as e: h e] *)
Definition try_with {A} (m : M A) (h : exn -> M A) : M A :=
  fun w =>
    match m w with
    | (Return a, w') => (Return a, w')
    | (Raise e, w') => h e w'
    end.

Declare Scope M_scope.
Delimit Scope M_scope with M.
Notation "x <- m ;; k" := (bind m (fun x => k))
  (at level 100, m at next level, right associativity) : M_scope.
Notation "m ;;; k" := (bind m (fun _ => k))
  (at level 100, right associativity) : M_scope.
Notation "x <~ o ;; k" := (obind o (fun x => k))
  (at level 100, o at next level, right associativity) : M_scope.

Definition emit (e : event) : M unit :=
  fun w =>
    (Return tt,
     {| api_calls := api_calls w; api_credits := api_credits w;
        requests := requests w; ticks := ticks w;
        trace := trace w ++ [e] |}).

(** [time.sleep(n)] *)
Definition sleep (n : Z) : M unit := emit (Slept n).

(** [st.error(...)] *)
Definition st_error (m : message) : M unit := emit (StError m).

(** The answer of the service to one request. *)
Record response (Html : Type) := {
  status_code : Z;
  content : Html
}.
Arguments status_code {Html} r.
Arguments content {Html} r.

(** [response.raise_for_status()] *)
Definition raise_for_status {Html} (r : response Html) : outcome unit :=
  if (400 <=? status_code r) && (status_code r <? 600)
  then Raise (HTTPError (status_code r))
  else Return tt.

(** The listing-card selectors of the search page, in their order. *)
Inductive selector :=
| DivListingCard       (* div, class ~ listingCard *)
| ArticleListingCard.  (* article, class ~ listing|card *)

Definition selectors : list selector := [DivListingCard; ArticleListingCard].

(** The [find] calls made on a card. *)
Inductive card_query :=
| LinkSale         (* a, href ~ /sale/\d+ *)
| LinkBuilding     (* a, href ~ /building/ *)
| LinkAny          (* a, href=True *)
| AddressLink      (* a, class ~ address|title|listingCard *)
| AddressHeading   (* h3/h4/h5, class ~ address|title *)
| AddressTag       (* address *)
| NeighborhoodTitle  (* p, class ~ ListingDescription-module__title *)
| PriceElem.       (* span/div, class ~ price *)

(** [" ".join(parts)] *)
Fixpoint join_space (parts : list string) : string :=
  match parts with
  | [] => EmptyString
  | [p] => p
  | p :: rest => (p ++ " " ++ join_space rest)%string
  end.

(** [range(1, max_pages + 1)] *)
Definition page_numbers (max_pages : Z) : list Z := seqZ 1 max_pages.

Definition date_formats : list string :=
  [ "%m/%d/%Y"; "%m-%d-%Y"; "%Y-%m-%d"; "%B %d, %Y"; "%b %d, %Y" ]%string.

(** The targets of the requests of a trace, in order. *)
Definition requested (tr : list event) : list string :=
  omap (fun e => match e with Requested t => Some t | _ => None end) tr.

(** The pauses of a trace, in order. *)
Definition pauses (tr : list event) : list Z :=
  omap (fun e => match e with Slept n => Some n | _ => None end) tr.

(** The messages written with [st.error], in order. *)
Definition errors (tr : list event) : list message :=
  omap (fun e => match e with StError m => Some m | _ => None end) tr.

(** Between [w] and [w'], [n] requests were answered: both counters went
    up by [n], and no more requests than that were answered than sent. *)
Definition spent (w w' : world) (n : Z) : Prop :=
  default 0 (api_calls w') = default 0 (api_calls w) + n
  /\ default 0 (api_credits w') = default 0 (api_credits w) + n
  /\ 0 <= n <= Z.of_nat (requests w') - Z.of_nat (requests w).

(** Nothing was sent and nothing counted between [w] and [w']. *)
Definition same_service (w w' : world) : Prop :=
  api_calls w' = api_calls w /\ api_credits w' = api_credits w
  /\ requests w' = requests w.

(** What holds of every record that the scraper hands out. *)
Definition well_formed (l : listing) : Prop :=
  identifiable l = true
  /\ url l <> Some EmptyString
  /\ (forall v, price l = Some v -> 0 <= v)
  /\ (forall v, sqft l = Some v -> 0 <= v)
  /\ (forall v, taxes l = Some v -> 0 <= v)
  /\ (forall v, fees l = Some v -> 0 <= v)
  /\ (is_Some (listing_date l) -> is_Some (days_on_market l)).

Module SampleSearch.

Definition AREA_IDS : list (string * Z) :=
  [("Williamsburg"%string, 100); ("Park Slope"%string, 101);
   ("Upper East Side"%string, 300)].

Definition PROPERTY_TYPE_CODES : gmap string string :=
  {["Condo"%string := "D1"%string]}.

End SampleSearch.

(** ** Sample collaborators

    A small world to run the program in: a page is its text, a card is
    its text, a tag is its text or link target.  The first request is
    answered with a page holding one card, every later one with 403. *)
Module Sample.

Definition Html : Type := string.
Definition Card : Type := string.
Definition Tag : Type := string.

Definition server (n : nat) (api_key target : string)
    : option (response Html) :=
  match n with
  | O => Some {| status_code := 200; content := "3 sqft|$500,000" |}
  | S _ => Some {| status_code := 403; content := "" |}
  end.

(** 2026-11-04T00:00:00, then one microsecond per reading. *)
Definition clock (n : nat) : datetime := 63929347200000000 + Z.of_nat n.

(** 2024-01-15T00:00:00 *)
Definition jan_15_2024 : datetime := 63840873600000000.

(** A [strptime] that knows one day, written in two of the formats. *)
Definition strptime (s fmt : string) : outcome datetime :=
  if String.eqb fmt "%m/%d/%Y" && String.eqb s "01/15/2024"
  then Return jan_15_2024
  else if String.eqb fmt "%Y-%m-%d" && String.eqb s "2024-01-15"
  then Return jan_15_2024
  else Raise ValueError.

Definition find_all (soup : Html) (sel : selector) : list Card :=
  match sel with
  | DivListingCard => if String.eqb soup "" then [] else [soup]
  | ArticleListingCard => []
  end.

Definition get_text (soup : Html) : string := soup.
Definition detail_sections (soup : Html) : list string := [].

Definition find (card : Card) (q : card_query) : outcome (option Tag) :=
  match q with
  | LinkSale => Return (Some "/sale/1234567"%string)
  | AddressLink => Return (Some "12 Main Street #3A"%string)
  | _ => Return None
  end.

(** A card in which nothing is found. *)
Definition find_nothing (card : Card) (q : card_query)
    : outcome (option Tag) := Return None.

Definition get_href (t : Tag) : outcome (option string) := Return (Some t).
Definition card_get_text (card : Card) : outcome string := Return card.
Definition tag_get_text (t : Tag) (separator : string) : outcome string :=
  Return t.



(** A service that answers with a detail page. *)
Definition detail_page (n : nat) (api_key target : string)
    : option (response Html) :=
  Some {| status_code := 200;
          content := "1,200 sq ft, Listed: 01/15/2024" |}.




(** The world after one answered request. *)
Definition after_one_request : world :=
  {| api_calls := Some 1; api_credits := Some 1; requests := 1; ticks := 0;
     trace := [Requested "https://streeteasy.com/for-sale/nyc?page=1"] |}.

Definition with_url (u a : string) : listing :=
  set_address (Some a) (set_url (Some u) empty_listing).

Definition without_url (a : string) : listing :=
  set_address (Some a) empty_listing.

End Sample.

Section Scraper.

Set Default Proof Using "Type".

(** The collaborators: the ScrapingBee service, the clock,
    [datetime.strptime], and BeautifulSoup's view of a parsed page. *)
Variables Html Card Tag : Type.
Variable server : nat -> string -> string -> option (response Html).
Variable clock : nat -> datetime.
Variable strptime : string -> string -> outcome datetime.
Variable find_all : Html -> selector -> list Card.
Variable get_text : Html -> string.
Variable detail_sections : Html -> list string.
Variable find : Card -> card_query -> outcome (option Tag).
Variable get_href : Tag -> outcome (option string).
Variable card_get_text : Card -> outcome string.
Variable tag_get_text : Tag -> string -> outcome string.

Local Open Scope M_scope.

(** [datetime.now()] *)
Definition now : M datetime :=
  fun w =>
    (Return (clock (ticks w)),
     {| api_calls := api_calls w; api_credits := api_credits w;
        requests := requests w; ticks := S (ticks w); trace := trace w |}).

(** [requests.get(scrapingbee_url, params=params, timeout=90)]: no answer
    is a raised exception. *)
Definition requests_get (api_key target : string) : M (response Html) :=
  fun w =>
    let w' :=
      {| api_calls := api_calls w; api_credits := api_credits w;
         requests := S (requests w); ticks := ticks w;
         trace := trace w ++ [Requested target] |} in
    match server (requests w) api_key target with
    | Some r => (Return r, w')
    | None => (Raise OtherError, w')
    end.

(** The two session counters. *)
Definition count_call (render_js : bool) : M unit :=
  fun w =>
    (Return tt,
     {| api_calls := Some (default 0 (api_calls w) + 1);
        api_credits :=
          Some (default 0 (api_credits w) + (if render_js then 5 else 1));
        requests := requests w; ticks := ticks w; trace := trace w |}).

Definition scrape_with_scrapingbee (target api_key : string)
    (render_js : bool) : M (response Html) :=
  response <- requests_get api_key target ;;
  count_call render_js ;;;
  lift (raise_for_status response) ;;;
  ret response.

(** The loop over [date_formats]: a ValueError moves on to the next
    format, any other exception leaves the loop. *)
Fixpoint try_formats (date_str : string) (formats : list string)
    : outcome (option datetime) :=
  match formats with
  | [] => Return None
  | fmt :: rest =>
      match strptime date_str fmt with
      | Return d => Return (Some d)
      | Raise ValueError => try_formats date_str rest
      | Raise e => Raise e
      end
  end.

Definition parse_listing_date (date_str : option string)
    : outcome (option datetime) :=
  match date_str with
  | None => Return None
  | Some s =>
      if falsy_str date_str then Return None
      else
        try_except (try_formats (strip s) date_formats)
          (fun _ => Return None)
  end.

Definition calculate_listing_date_from_days (days_on_market : option Z)
    : M (option datetime) :=
  match days_on_market with
  | None => ret None
  | Some d =>
      if negb (truthy_int days_on_market) || (d <? 0) then ret None
      else
        try_with
          (current_date <- now ;;
           delta <- lift (timedelta_days d) ;;
           listing_date <- lift (datetime_sub current_date delta) ;;
           ret (Some listing_date))
          (fun _ => ret None)
  end.

(** The loop over [date_patterns] of the detail page. *)
Fixpoint find_listing_date (text : string) (patterns : list string)
    : outcome (option datetime) :=
  match patterns with
  | [] => Return None
  | p :: rest =>
      match re_search p text IgnoreCase with
      | Some m =>
          parsed_date <~ parse_listing_date (group 1 m) ;;
          match parsed_date with
          | Some d => Return (Some d)
          | None => find_listing_date text rest
          end
      | None => find_listing_date text rest
      end
  end.

(** The loop over [days_patterns]: the date calculated from the first
    usable count, with the count. *)
Fixpoint find_days_on_market (text : string) (patterns : list string)
    : M (option (datetime * Z)) :=
  match patterns with
  | [] => ret None
  | p :: rest =>
      match re_search p text IgnoreCase with
      | Some m =>
          match group 1 m with
          | Some g =>
              days <- lift (int_of_str (list_ascii_of_string g)) ;;
              calculated_date <- calculate_listing_date_from_days (Some days) ;;
              match calculated_date with
              | Some c => ret (Some (c, days))
              | None => find_days_on_market text rest
              end
          | None => lift (Raise OtherError)
          end
      | None => find_days_on_market text rest
      end
  end.

(** The extraction part of [scrape_listing_details]. *)
Definition extract_details (combined_text : string) : M details :=
  direct <- lift (find_listing_date combined_text Detail.date_patterns) ;;
  dated <-
    match direct with
    | Some d => ret (Some d, None)
    | None =>
        r <- find_days_on_market combined_text Detail.days_patterns ;;
        ret match r with
            | Some (c, days) => (Some c, Some days)
            | None => (None, None)
            end
    end ;;
  sqft_val <- lift (Detail.sqft combined_text) ;;
  tax_val <- lift (Detail.taxes combined_text) ;;
  fee_val <- lift (Detail.fees combined_text) ;;
  ret {| det_sqft := sqft_val;
         det_taxes := tax_val;
         det_fees := fee_val;
         det_listing_date := fst dated;
         det_days_on_market := snd dated |}.

Definition combined_text_of (soup : Html) : string :=
  match detail_sections soup with
  | [] => get_text soup
  | sections => (get_text soup ++ " " ++ join_space sections)%string
  end.

Definition scrape_listing_details (listing_url api_key : string)
    : M details :=
  try_with
    (response <- scrape_with_scrapingbee listing_url api_key false ;;
     extract_details (combined_text_of (content response)))
    (fun _ => ret empty_details).

(** [a or b] on the results of two [find] calls. *)
Definition or_find (first : option Tag) (second : outcome (option Tag))
    : outcome (option Tag) :=
  match first with
  | Some t => Return (Some t)
  | None => second
  end.

(** The body of the [try] for one card, up to the test that decides
    whether the record is appended. *)
Definition parse_card (card : Card) : outcome listing :=
  let listing := empty_listing in
  link <~ find card LinkSale ;;
  link <~ or_find link (find card LinkBuilding) ;;
  link <~ or_find link (find card LinkAny) ;;
  listing <~
    match link with
    | Some t =>
        href <~ get_href t ;;
        match nonempty href with
        | Some h =>
            Return (set_url
                      (Some (if startswith "/" h
                             then ("https://streeteasy.com" ++ h)%string
                             else h)) listing)
        | None => Return listing
        end
    | None => Return listing
    end ;;
  card_text <~ card_get_text card ;;
  address_elem <~ find card AddressLink ;;
  address_elem <~ or_find address_elem (find card AddressHeading) ;;
  address_elem <~ or_find address_elem (find card AddressTag) ;;
  listing <~
    match address_elem with
    | Some t =>
        text <~ tag_get_text t "" ;;
        Return (set_address (Some text) listing)
    | None => Return listing
    end ;;
  neighborhood_elem <~ find card NeighborhoodTitle ;;
  listing <~
    match neighborhood_elem with
    | Some t =>
        text <~ tag_get_text t " " ;;
        Return (set_neighborhood
                  (match re_search "in\s+(.*)" text IgnoreCase with
                   | Some m => strip <$> group 1 m
                   | None => None
                   end) listing)
    | None => Return listing
    end ;;
  price_elem <~ find card PriceElem ;;
  listing <~
    match price_elem with
    | Some t =>
        text <~ tag_get_text t " " ;;
        price <~ extract_number (Some text) ;;
        Return (set_price price listing)
    | None =>
        match re_search "\$\s*[\d,]+" card_text NoFlags with
        | Some m =>
            price <~ extract_number (Some (group0 m)) ;;
            Return (set_price price listing)
        | None => Return listing
        end
    end ;;
  sqft_val <~ Card.sqft card_text ;;
  let listing := set_sqft sqft_val listing in
  tax_val <~ Card.taxes card_text ;;
  let listing := set_taxes tax_val listing in
  fee_val <~ Card.fees card_text ;;
  let listing := set_fees fee_val listing in
  Return listing.

(** [for card in listing_cards]: a card whose parsing raises is skipped,
    a record without URL and address is not appended. *)
Definition parse_cards (listing_cards : list Card) : list listing :=
  fold_left
    (fun page_listings card =>
       match parse_card card with
       | Return listing =>
           if identifiable listing then page_listings ++ [listing]
           else page_listings
       | Raise _ => page_listings
       end)
    listing_cards [].

(** [for selector in selectors]: the cards of the first selector that
    finds any. *)
Fixpoint select_cards (soup : Html) (sels : list selector) : list Card :=
  match sels with
  | [] => []
  | s :: rest =>
      match find_all soup s with
      | [] => select_cards soup rest
      | cards => cards
      end
  end.

Definition page_url (base : string) (page_num : Z) : string :=
  if contains "?" base
  then (base ++ "&page=" ++ str_of_int page_num)%string
  else (base ++ "?page=" ++ str_of_int page_num)%string.

(** The body of the [try] for one page: [None] is the [break] on a page
    without cards, [Some page_listings] goes on to the next page. *)
Definition fetch_page (base api_key : string) (max_pages page_num : Z)
    : M (option (list listing)) :=
  response <- scrape_with_scrapingbee (page_url base page_num) api_key false ;;
  match select_cards (content response) selectors with
  | [] => ret None
  | listing_cards =>
      let page_listings := parse_cards listing_cards in
      (if page_num <? max_pages then sleep 1 else ret tt) ;;;
      ret (Some page_listings)
  end.

(** [for page_num in range(1, max_pages + 1)] with its two handlers. *)
Fixpoint page_loop (base api_key : string) (max_pages : Z)
    (pages : list Z) (all_listings : list listing) : M (list listing) :=
  match pages with
  | [] => ret all_listings
  | page_num :: rest =>
      step <-
        try_with
          (r <- fetch_page base api_key max_pages page_num ;; ret (Some r))
          (fun e =>
             match e with
             | HTTPError code =>
                 st_error (if code =? 403 then AccessForbidden
                           else HttpErrorMessage code) ;;;
                 ret None
             | _ => st_error ErrorMessage ;;; ret None
             end) ;;
      match step with
      | Some (Some page_listings) =>
          page_loop base api_key max_pages rest (all_listings ++ page_listings)
      | Some None => ret all_listings
      | None => ret all_listings
      end
  end.

(** The derivation of [days_on_market] from a known date. *)
Definition derive_days_on_market (l : listing) : M listing :=
  match listing_date l with
  | Some d =>
      if negb (truthy_int (days_on_market l)) then
        t <- now ;;
        ret (set_days_on_market (Some (td_days (datetime_diff t d))) l)
      else ret l
  | None => ret l
  end.

(** One iteration of [for i, listing in enumerate(listings)]. *)
Definition enrich_listing (api_key : string) (total i : nat) (l : listing)
    : M listing :=
  match nonempty (url l) with
  | Some u =>
      d <- scrape_listing_details u api_key ;;
      l' <- derive_days_on_market (merge_details d l) ;;
      emit (ProgressUpdate (i + 1) total) ;;;
      sleep 1 ;;;
      ret l'
  | None => ret l
  end.

Fixpoint enrich_loop (api_key : string) (total i : nat)
    (listings : list listing) : M (list listing) :=
  match listings with
  | [] => ret []
  | l :: rest =>
      l' <- enrich_listing api_key total i l ;;
      rest' <- enrich_loop api_key total (S i) rest ;;
      ret (l' :: rest')
  end.

Definition scrape_streeteasy (base api_key : string) (scrape_details : bool)
    (max_pages : Z) : M (list listing) :=
  all_listings <- page_loop base api_key max_pages (page_numbers max_pages) [] ;;
  let listings := dedup all_listings in
  if scrape_details && negb (bool_decide (listings = [])) then
    emit (ProgressStart (length listings)) ;;;
    enriched <- enrich_loop api_key (length listings) 0 listings ;;
    emit ProgressEmpty ;;;
    ret enriched
  else ret listings.

(** The composition that the round-trip property speaks of: a date is
    calculated from a count, stored in a record without a count, and the
    count is derived back as the controller does. *)
Definition days_round_trip (d : Z) : M (option Z) :=
  calculated <- calculate_listing_date_from_days (Some d) ;;
  match calculated with
  | Some date =>
      l <- derive_days_on_market (set_listing_date (Some date) empty_listing) ;;
      ret (days_on_market l)
  | None => ret None
  end.





(** What enrichment may not touch. *)
Definition same_identity (l l' : listing) : Prop :=
  address l' = address l /\ neighborhood l' = neighborhood l
  /\ price l' = price l /\ url l' = url l.


(** The trace of the enrichment of the record at index [i] of [total]:
    nothing for a record without URL. *)
Definition enrichment_events (total i : nat) (l : listing) : list event :=
  match url_key l with
  | Some u => [Requested u; ProgressUpdate (i + 1) total; Slept 1]
  | None => []
  end.

(** An answer on which [raise_for_status] raises. *)
Definition http_error {H} (r : response H) : bool :=
  (400 <=? status_code r) && (status_code r <? 600).


(** Every request of the run gets an answer, whatever its status. *)
Definition always_answered : Prop :=
  forall n api_key target, is_Some (server n api_key target).

(** * Properties *)

(** Proofs about the pure part leave the collaborators out of sight. *)
Ltac pure_part :=
  try clear server; try clear clock; try clear strptime;
  try clear find_all; try clear get_text; try clear detail_sections;
  try clear find; try clear get_href; try clear card_get_text;
  try clear tag_get_text; try clear Html; try clear Card; try clear Tag.

(** ** The matcher and [extract_number] on small inputs *)

Example search_is_leftmost_and_greedy :
  group0 <$> re_search "(\d[\d,]+)\s*sq\.?\s*f(?:ee)?t"
               "approx. 1,200 Sq. Feet and 900 sq ft" IgnoreCase
  = Some "1,200 Sq. Feet"%string.
Proof. vm_compute. reflexivity. Qed.

Example alternatives_in_order :
  group0 <$> re_search "taxes?\s*[:\-]?\s*\$?([\d,]+)(?:/mo|/month)?"
               "Taxes - $1,234/month" IgnoreCase
  = Some "Taxes - $1,234/mo"%string.
Proof. vm_compute. reflexivity. Qed.

Example word_boundary :
  (re_search "(\d[\d,]+)\s*SF\b" "1200 sfx 1300 sf." IgnoreCase
     ≫= group 1)
  = Some "1300"%string.
Proof. vm_compute. reflexivity. Qed.

Example case_matters_without_flag :
  re_search "(\d[\d,]*)\s*SF" "900 sf" NoFlags = None.
Proof. vm_compute. reflexivity. Qed.

Example extract_number_price :
  extract_number (Some "$1,250,000"%string) = Return (Some 1250000)
  /\ extract_number (Some "$ 2,500/month"%string) = Return (Some 2500)
  /\ extract_number (Some "call us"%string) = Return None
  /\ extract_number (Some ""%string) = Return None
  /\ extract_number None = Return None.
Proof. repeat split; vm_compute; reflexivity. Qed.

(** ** Deduplication *)

Lemma first_occurrence_app (e s : list listing) (x : listing) :
  first_occurrence (e ++ s) x = first_occurrence e x && first_occurrence s x.
Proof.
  unfold first_occurrence.
  destruct (nonempty (url x)) as [u|].
  - apply forallb_app.
  - destruct (nonempty (address x)) as [a|]; [apply forallb_app | reflexivity].
Qed.

Lemma keep_first_occurrences_app (e l l' : list listing) :
  keep_first_occurrences e (l ++ l')
  = keep_first_occurrences e l ++ keep_first_occurrences (e ++ l) l'.
Proof.
  revert e. induction l as [|a l IH]; intros e; simpl.
  - now rewrite app_nil_r.
  - rewrite IH, <- !app_assoc. reflexivity.
Qed.

Lemma keep_first_occurrences_ext (e1 e2 l : list listing) :
  (forall x, first_occurrence e1 x = first_occurrence e2 x) ->
  keep_first_occurrences e1 l = keep_first_occurrences e2 l.
Proof.
  revert e1 e2. induction l as [|a l IH]; intros e1 e2 H; simpl; [reflexivity|].
  rewrite H. f_equal. apply IH. intros x.
  now rewrite !first_occurrence_app, H.
Qed.

Lemma keep_first_occurrences_sublist (e l : list listing) :
  sublist (keep_first_occurrences e l) l.
Proof.
  revert e. induction l as [|a l IH]; intros e; simpl.
  - constructor.
  - destruct (first_occurrence e a); simpl.
    + apply sublist_skip, IH.
    + apply sublist_cons, IH.
Qed.

Lemma first_occurrence_url (e : list listing) (x : listing) (u : string) :
  nonempty (url x) = Some u ->
  first_occurrence e x = true
  <-> (forall y, In y e -> nonempty (url y) <> Some u).
Proof.
  intros Hx. unfold first_occurrence. rewrite Hx, forallb_forall.
  split; intros H y Hy; specialize (H y Hy).
  - apply negb_true_iff, bool_decide_eq_false in H. exact H.
  - apply negb_true_iff, bool_decide_eq_false. exact H.
Qed.

Lemma first_occurrence_address (e : list listing) (x : listing) (a : string) :
  nonempty (url x) = None -> nonempty (address x) = Some a ->
  first_occurrence e x = true
  <-> (forall y, In y e ->
         ~ (nonempty (url y) = None /\ nonempty (address y) = Some a)).
Proof.
  intros Hx Ha. unfold first_occurrence. rewrite Hx, Ha, forallb_forall.
  split; intros H y Hy; specialize (H y Hy).
  - apply negb_true_iff, bool_decide_eq_false in H. exact H.
  - apply negb_true_iff, bool_decide_eq_false. exact H.
Qed.

Lemma exists_snoc (P : listing -> Prop) (l : list listing) (x : listing) :
  (exists y, In y (l ++ [x]) /\ P y) <-> (exists y, In y l /\ P y) \/ P x.
Proof.
  split.
  - intros (y & Hy & Py). apply in_app_or in Hy. destruct Hy as [Hy|[<-|[]]].
    + left. now exists y.
    + now right.
  - intros [(y & Hy & Py)|Px].
    + exists y. split; [apply in_or_app; now left|exact Py].
    + exists x. split; [apply in_or_app; right; now left|exact Px].
Qed.

Lemma dedup_inv_step (l : list listing) (st : dedup_state) (x : listing) :
  dedup_inv l st -> dedup_inv (l ++ [x]) (dedup_step st x).
Proof.
  pure_part. intros (Hu & Ha & Hl).
  assert (Hk : keep_first_occurrences [] (l ++ [x])
               = keep_first_occurrences [] l
                 ++ (if first_occurrence l x then [x] else [])).
  { rewrite keep_first_occurrences_app. simpl. now rewrite app_nil_r. }
  unfold dedup_step, dedup_inv.
  destruct (nonempty (url x)) as [u|] eqn:Ex.
  - pose proof (first_occurrence_url l x u Ex) as [F1 F2].
    assert (Hadd : forall a0,
               a0 ∈ seen_addresses st
               <-> exists y, In y (l ++ [x]) /\ nonempty (url y) = None
                             /\ nonempty (address y) = Some a0).
    { intros a0. rewrite Ha, exists_snoc. intuition congruence. }
    destruct (bool_decide (u ∈ seen_urls st)) eqn:Eb.
    + apply bool_decide_eq_true in Eb.
      assert (Hf : first_occurrence l x = false).
      { apply not_true_is_false. intros Hf. apply Hu in Eb.
        destruct Eb as (y & Hy & Ey). exact (F1 Hf y Hy Ey). }
      rewrite Hk, Hf, app_nil_r. split; [|split]; [|exact Hadd|exact Hl].
      intros u0. rewrite exists_snoc, <- Hu. split; [now left|].
      intros [H|H]; [exact H|]. congruence.
    + apply bool_decide_eq_false in Eb.
      assert (Hf : first_occurrence l x = true).
      { apply F2. intros y Hy Ey. apply Eb, Hu. now exists y. }
      rewrite Hk, Hf. simpl. split; [|split]; [|exact Hadd|now rewrite Hl].
      intros u0. rewrite elem_of_union, elem_of_singleton, exists_snoc, <- Hu.
      split; (intros [H|H]; [now left|right; congruence]).
  - assert (Hurl : forall u0,
               u0 ∈ seen_urls st
               <-> exists y, In y (l ++ [x]) /\ nonempty (url y) = Some u0).
    { intros u0. rewrite Hu, exists_snoc. intuition congruence. }
    destruct (nonempty (address x)) as [a|] eqn:Eax.
    + pose proof (first_occurrence_address l x a Ex Eax) as [F1 F2].
      destruct (bool_decide (a ∈ seen_addresses st)) eqn:Eb.
      * apply bool_decide_eq_true in Eb.
        assert (Hf : first_occurrence l x = false).
        { apply not_true_is_false. intros Hf. apply Ha in Eb.
          destruct Eb as (y & Hy & Ey). exact (F1 Hf y Hy Ey). }
        rewrite Hk, Hf, app_nil_r. split; [|split]; [exact Hurl| |exact Hl].
        intros a0. rewrite exists_snoc, <- Ha. split; [now left|].
        intros [H|[_ H]]; [exact H|]. congruence.
      * apply bool_decide_eq_false in Eb.
        assert (Hf : first_occurrence l x = true).
        { apply F2. intros y Hy Ey. apply Eb, Ha. now exists y. }
        rewrite Hk, Hf. simpl.
        split; [|split]; [exact Hurl| |now rewrite Hl].
        intros a0.
        rewrite elem_of_union, elem_of_singleton, exists_snoc, <- Ha.
        split.
        -- intros [H|H]; [now left|right]. split; congruence.
        -- intros [H|[_ H]]; [now left|right; congruence].
    + assert (Hf : first_occurrence l x = false).
      { unfold first_occurrence. now rewrite Ex, Eax. }
      rewrite Hk, Hf, app_nil_r. split; [|split]; [exact Hurl| |exact Hl].
      intros a0. rewrite Ha, exists_snoc. intuition congruence.
Qed.

Lemma dedup_inv_fold (l : list listing) :
  dedup_inv l (fold_left dedup_step l dedup_init).
Proof.
  induction l as [|x l IH] using rev_ind.
  - split; [|split]; [| |reflexivity].
    + intros u. split; [intros H; now apply not_elem_of_empty in H|].
      intros (y & [] & _).
    + intros a. split; [intros H; now apply not_elem_of_empty in H|].
      intros (y & [] & _).
  - rewrite fold_left_app. simpl. now apply dedup_inv_step.
Qed.

Lemma dedup_keep_first_occurrences (l : list listing) :
  dedup l = keep_first_occurrences [] l.
Proof.
  unfold dedup. apply (dedup_inv_fold l).
Qed.

Lemma dedup_pair (a b : listing) :
  dedup [a; b]
  = (if first_occurrence [] a then [a] else [])
    ++ (if first_occurrence [a] b then [b] else []).
Proof.
  rewrite dedup_keep_first_occurrences. simpl. now rewrite app_nil_r.
Qed.

Lemma first_occurrence_nil (a : listing) :
  first_occurrence [] a = identifiable a.
Proof.
  unfold first_occurrence, identifiable, truthy_str, nonempty.
  destruct (url a) as [u|]; [destruct (String.eqb u "")|];
    destruct (address a) as [s|]; try destruct (String.eqb s ""); reflexivity.
Qed.

(** C1. Deduplication walks the accumulated records in order and keeps a
    record the first time its URL is seen, or, for a record without URL,
    the first time its address is seen among the records without URL.
    A later record with the same non-empty URL is dropped whatever its
    address; and of two identifiable records the second is dropped
    exactly when it repeats the first one's URL or when both have no URL
    and share the address, so that two records with different URLs and
    one address can only collapse when the first has no URL. *)
Theorem dedup_first_occurrence :
  (forall all_listings,
      dedup all_listings = keep_first_occurrences [] all_listings
      /\ sublist (dedup all_listings) all_listings)
  /\ (forall l1 a l2 b l3,
         nonempty (url a) <> None -> nonempty (url b) = nonempty (url a) ->
         dedup (l1 ++ a :: l2 ++ b :: l3) = dedup (l1 ++ a :: l2 ++ l3))
  /\ (forall a b,
         nonempty (url a) <> None -> nonempty (url b) = nonempty (url a) ->
         dedup [a; b] = [a])
  /\ (forall a b,
         identifiable a = true -> identifiable b = true ->
         (dedup [a; b] = [a]
          <-> (nonempty (url a) <> None
               /\ nonempty (url b) = nonempty (url a))
              \/ (nonempty (url a) = None /\ nonempty (url b) = None
                  /\ nonempty (address b) = nonempty (address a))))
  /\ (forall a b,
         identifiable b = true -> url a <> url b -> address a = address b ->
         dedup [a; b] = [a] -> nonempty (url a) = None).
Proof.
  assert (P4 : forall a b,
             identifiable a = true -> identifiable b = true ->
             (dedup [a; b] = [a]
              <-> (nonempty (url a) <> None
                   /\ nonempty (url b) = nonempty (url a))
                  \/ (nonempty (url a) = None /\ nonempty (url b) = None
                      /\ nonempty (address b) = nonempty (address a)))).
  { intros a b Ia Ib. rewrite dedup_pair, first_occurrence_nil, Ia.
    rewrite <- first_occurrence_nil in Ib.
    unfold first_occurrence in *. simpl in *.
    destruct (nonempty (url b)) as [ub|] eqn:Eub.
    - rewrite andb_true_r.
      destruct (bool_decide (nonempty (url a) = Some ub)) eqn:Ed; simpl.
      + apply bool_decide_eq_true in Ed. split; [intros _|reflexivity].
        left. split; congruence.
      + apply bool_decide_eq_false in Ed. split; [discriminate|].
        intros [[_ H]|[_ [H _]]]; [congruence|discriminate].
    - destruct (nonempty (address b)) as [ab|] eqn:Eab; [|discriminate].
      rewrite andb_true_r.
      destruct (bool_decide (nonempty (url a) = None
                             /\ nonempty (address a) = Some ab)) eqn:Ed; simpl.
      + apply bool_decide_eq_true in Ed. destruct Ed as [E1 E2].
        split; [intros _|reflexivity]. right. now rewrite E1, E2.
      + apply bool_decide_eq_false in Ed. split; [discriminate|].
        intros [[H1 H2]|[H1 [_ H2]]]; [congruence|].
        exfalso. apply Ed. split; congruence. }
  split; [|split; [|split; [|split]]].
  - intros l. split; [apply dedup_keep_first_occurrences|].
    rewrite dedup_keep_first_occurrences.
    apply keep_first_occurrences_sublist.
  - intros l1 a l2 b l3 Ha Hb.
    destruct (nonempty (url a)) as [u|] eqn:Ea; [clear Ha|congruence].
    rewrite !dedup_keep_first_occurrences.
    replace (l1 ++ a :: l2 ++ b :: l3) with ((l1 ++ a :: l2) ++ b :: l3)
      by (now rewrite <- app_assoc).
    replace (l1 ++ a :: l2 ++ l3) with ((l1 ++ a :: l2) ++ l3)
      by (now rewrite <- app_assoc).
    rewrite !keep_first_occurrences_app. f_equal. simpl.
    assert (Hin : In a (l1 ++ a :: l2)) by (apply in_elt).
    assert (Hf : first_occurrence (l1 ++ a :: l2) b = false).
    { apply not_true_is_false. intros Hf.
      pose proof (proj1 (first_occurrence_url _ b u Hb) Hf a Hin). congruence. }
    rewrite Hf. simpl. apply keep_first_occurrences_ext. intros x.
    rewrite (first_occurrence_app (l1 ++ a :: l2) [b]).
    destruct (first_occurrence (l1 ++ a :: l2) x) eqn:Hx;
      [|reflexivity].
    rewrite andb_true_l.
    unfold first_occurrence. simpl.
    destruct (nonempty (url x)) as [ux|] eqn:Eux.
    + rewrite andb_true_r, Hb. apply negb_true_iff, bool_decide_eq_false.
      intros E. injection E as <-.
      pose proof (proj1 (first_occurrence_url _ x u Eux) Hx a Hin). congruence.
    + destruct (nonempty (address x)) as [ax|] eqn:Eax.
      * rewrite andb_true_r, Hb. apply negb_true_iff, bool_decide_eq_false.
        intros [E _]. discriminate.
      * unfold first_occurrence in Hx. rewrite Eux, Eax in Hx. discriminate.
  - intros a b Ha Hb.
    rewrite dedup_pair, first_occurrence_nil.
    unfold first_occurrence, identifiable. simpl.
    destruct (nonempty (url a)) as [u|] eqn:Ea; [clear Ha|congruence].
    assert (Ht : truthy_str (url a) = true).
    { unfold truthy_str, nonempty in *. destruct (url a) as [s|]; [|discriminate].
      destruct (String.eqb s ""); [discriminate|reflexivity]. }
    rewrite Ht, Hb. simpl.
    now rewrite bool_decide_eq_true_2.
  - exact P4.
  - intros a b Ib Hu Had Hd.
    destruct (identifiable a) eqn:Ia.
    + apply (P4 a b Ia Ib) in Hd.
      destruct Hd as [[H1 H2]|[H1 _]]; [|exact H1].
      exfalso. apply Hu. unfold nonempty in *.
      destruct (url a) as [s|], (url b) as [t|]; try congruence;
        try destruct (String.eqb s ""); try destruct (String.eqb t "");
        congruence.
    + unfold identifiable in Ia. apply orb_false_iff in Ia. destruct Ia as [Ia _].
      unfold truthy_str, nonempty in *. destruct (url a) as [s|]; [|reflexivity].
      destruct (String.eqb s ""); [reflexivity|discriminate].
Qed.

(** ** Plausibility ranges *)

Lemma int_of_str_return (s : chars) (v : Z) :
  int_of_str s = Return v ->
  v = int_of_digits s /\ Z.of_nat (length s) <= int_max_str_digits.
Proof.
  unfold int_of_str.
  destruct (Z.ltb_spec int_max_str_digits (Z.of_nat (length s)));
    [discriminate|].
  intros [= <-]. split; [reflexivity|assumption].
Qed.

Lemma int_of_str_short (s : chars) :
  Z.of_nat (length s) <= int_max_str_digits ->
  int_of_str s = Return (int_of_digits s).
Proof.
  intros H. unfold int_of_str.
  destruct (Z.ltb_spec int_max_str_digits (Z.of_nat (length s)));
    [lia|reflexivity].
Qed.

Lemma int_of_str_long (s : chars) :
  int_max_str_digits < Z.of_nat (length s) ->
  int_of_str s = Raise ValueError.
Proof.
  intros H. unfold int_of_str.
  destruct (Z.ltb_spec int_max_str_digits (Z.of_nat (length s)));
    [reflexivity|lia].
Qed.

Arguments int_of_str : simpl never.

Lemma cascade_some {B} (body : string -> option B) (patterns : list string)
    (b : B) :
  cascade body patterns = Some b ->
  exists pre p post,
    patterns = pre ++ p :: post
    /\ Forall (fun q => body q = None) pre /\ body p = Some b.
Proof.
  induction patterns as [|q rest IH]; simpl; [discriminate|].
  destruct (body q) as [b'|] eqn:Eq.
  - intros [= <-]. exists [], q, rest. repeat split; [constructor|exact Eq].
  - intros H. destruct (IH H) as (pre & p & post & -> & Hpre & Hp).
    exists (q :: pre), p, post. repeat split; [|exact Hp].
    constructor; assumption.
Qed.

Lemma cascade_raising_some {B} (body : string -> outcome (option B))
    (patterns : list string) (b : B) :
  cascade_raising body patterns = Return (Some b) ->
  exists pre p post,
    patterns = pre ++ p :: post
    /\ Forall (fun q => body q = Return None) pre
    /\ body p = Return (Some b).
Proof.
  induction patterns as [|q rest IH]; simpl; [discriminate|].
  destruct (body q) as [[b'|]|e] eqn:Eq; [| |discriminate].
  - intros [= <-]. exists [], q, rest. repeat split; [constructor|exact Eq].
  - intros H. destruct (IH H) as (pre & p & post & -> & Hpre & Hp).
    exists (q :: pre), p, post. repeat split; [|exact Hp].
    constructor; assumption.
Qed.

Lemma detail_number_accepted (accept : Z -> bool) (patterns : list string)
    (text : string) (v : Z) :
  detail_number accept patterns text = Return (Some v) ->
  v <> 0 /\ accept v = true.
Proof.
  unfold detail_number. intros H.
  apply cascade_raising_some in H. destruct H as (_ & p & _ & _ & _ & H).
  destruct (re_search p text IgnoreCase) as [m|]; [|discriminate].
  destruct (extract_number (group 1 m)) as [[n|]|e]; try discriminate.
  destruct (negb (n =? 0)) eqn:E0; [|discriminate].
  destruct (accept n) eqn:Ea; [|discriminate].
  simpl in H. injection H as <-. split; [|exact Ea].
  apply negb_true_iff in E0. lia.
Qed.

Lemma patterns_compile :
  Forall (fun p => is_Some (re_compile p))
    (Detail.date_patterns ++ Detail.days_patterns ++ Detail.sqft_patterns
     ++ Detail.tax_patterns ++ Detail.fee_patterns ++ Card.sqft_patterns
     ++ Card.tax_patterns ++ Card.fee_patterns
     ++ ["in\s+(.*)"; "\$\s*[\d,]+"; "\d+"]%string).
Proof.
  repeat constructor; vm_compute; eexists; reflexivity.
Qed.

(** The two cascades are the ones the pipeline runs: on the combined
    text of a detail page, and on the text of a card. *)
Lemma extract_details_numbers (text : string) (w w' : world) (d : details) :
  extract_details text w = (Return d, w') ->
  Detail.sqft text = Return (det_sqft d)
  /\ Detail.taxes text = Return (det_taxes d)
  /\ Detail.fees text = Return (det_fees d).
Proof.
  unfold extract_details, bind, lift, ret. intros H.
  destruct (find_listing_date text Detail.date_patterns) as [direct|e];
    [|discriminate].
  destruct direct as [D|].
  - destruct (Detail.sqft text) as [s|e]; [|discriminate].
    destruct (Detail.taxes text) as [t|e]; [|discriminate].
    destruct (Detail.fees text) as [f|e]; [|discriminate].
    injection H as <- <-. auto.
  - destruct (find_days_on_market text Detail.days_patterns w)
      as [[r|e] w1]; [|discriminate].
    destruct (Detail.sqft text) as [s|e]; [|discriminate].
    destruct (Detail.taxes text) as [t|e]; [|discriminate].
    destruct (Detail.fees text) as [f|e]; [|discriminate].
    injection H as <- <-. auto.
Qed.

Lemma parse_card_numbers (card : Card) (l : listing) :
  parse_card card = Return l ->
  exists card_text,
    card_get_text card = Return card_text
    /\ Card.sqft card_text = Return (sqft l)
    /\ Card.taxes card_text = Return (taxes l)
    /\ Card.fees card_text = Return (fees l).
Proof.
  unfold parse_card, obind, or_find. intros H.
  repeat match type of H with
         | match ?x with _ => _ end = _ =>
             let E := fresh "E" in destruct x eqn:E; try discriminate H
         end;
    injection H as <-;
    match goal with
    | |- exists _, Return ?t = _ /\ _ => exists t; split; [reflexivity|auto]
    end.
Qed.

(** C4 (as amended). The detail-page cascade accepts a square footage
    only within 200..10000: whatever the text, an extracted value lies in
    that range; the text "3 sqft" gives no value and "1,200 sq ft" gives
    1200.  The card cascade has no range check: on card text
    "1,200 sq ft" it gives 1200, and on "3 sqft" it gives 3. *)
Theorem sqft_plausibility :
  (forall text v, Detail.sqft text = Return (Some v) -> 200 <= v <= 10000)
  /\ Detail.sqft "3 sqft" = Return None
  /\ Detail.sqft "1,200 sq ft" = Return (Some 1200)
  /\ Card.sqft "1,200 sq ft" = Return (Some 1200)
  /\ Card.sqft "3 sqft" = Return (Some 3).
Proof.
  split; [|repeat split; vm_compute; reflexivity].
  intros text v H. apply detail_number_accepted in H. destruct H as [_ H].
  unfold Detail.sqft_ok in H. apply andb_true_iff in H. lia.
Qed.

(** ** Dates from days on market *)

Lemma timedelta_days_ok (d : Z) :
  Z.abs d <= 999999999 -> timedelta_days d = Return (d * usec_per_day).
Proof.
  intros H. unfold timedelta_days.
  destruct (Z.leb_spec (Z.abs d) 999999999); [reflexivity|lia].
Qed.

Lemma datetime_sub_ok (t delta : Z) :
  0 <= t - delta < max_ordinal * usec_per_day ->
  datetime_sub t delta = Return (t - delta).
Proof.
  intros H. unfold datetime_sub. simpl.
  destruct (Z.leb_spec 0 (t - delta)); [|lia].
  destruct (Z.ltb_spec (t - delta) (max_ordinal * usec_per_day)); [|lia].
  reflexivity.
Qed.

Lemma datetime_sub_before_year_one (t delta : Z) :
  t - delta < 0 -> datetime_sub t delta = Raise OverflowError.
Proof.
  intros H. unfold datetime_sub. simpl.
  destruct (Z.leb_spec 0 (t - delta)); [lia|reflexivity].
Qed.

Lemma calculate_in_range (w : world) (d : Z) :
  0 < d -> datetime_ok (clock (ticks w)) ->
  d * usec_per_day <= clock (ticks w) ->
  calculate_listing_date_from_days (Some d) w
  = (Return (Some (clock (ticks w) - d * usec_per_day)),
     {| api_calls := api_calls w; api_credits := api_credits w;
        requests := requests w; ticks := S (ticks w); trace := trace w |}).
Proof.
  intros Hd Hok Hr. unfold datetime_ok, max_ordinal, usec_per_day in *.
  unfold calculate_listing_date_from_days, truthy_int.
  destruct (Z.eqb_spec d 0); [lia|]. destruct (Z.ltb_spec d 0); [lia|].
  simpl. unfold try_with, bind, now, lift, ret.
  rewrite timedelta_days_ok by lia.
  rewrite datetime_sub_ok by (unfold max_ordinal, usec_per_day; lia).
  reflexivity.
Qed.

Lemma calculate_never_raises (w : world) (days_on_market : option Z) :
  exists r w', calculate_listing_date_from_days days_on_market w
               = (Return r, w').
Proof.
  unfold calculate_listing_date_from_days.
  destruct days_on_market as [d|]; [|eexists _, _; reflexivity].
  destruct (negb (truthy_int (Some d)) || (d <? 0));
    [eexists _, _; reflexivity|].
  unfold try_with, bind, now, lift, ret.
  destruct (timedelta_days d); [|eexists _, _; reflexivity].
  destruct (datetime_sub _ _); eexists _, _; reflexivity.
Qed.

Lemma calculate_some (w w' : world) (days_on_market : option Z)
    (c : datetime) :
  calculate_listing_date_from_days days_on_market w = (Return (Some c), w') ->
  exists d, days_on_market = Some d /\ 0 < d
            /\ c = clock (ticks w) - d * usec_per_day
            /\ ticks w' = S (ticks w) /\ trace w' = trace w
            /\ requests w' = requests w.
Proof.
  unfold calculate_listing_date_from_days.
  destruct days_on_market as [d|]; [|discriminate].
  unfold truthy_int.
  destruct (Z.eqb_spec d 0); [discriminate|].
  destruct (Z.ltb_spec d 0); [discriminate|]. simpl.
  unfold try_with, bind, now, lift, ret, timedelta_days, datetime_sub.
  destruct (Z.abs d <=? 999999999); [|discriminate].
  destruct ((0 <=? _) && (_ <? _)); [|discriminate].
  intros [= <- <-]. exists d. repeat split; lia.
Qed.


(** C3 (as amended). The date is absent when the count is missing or
    negative, and also when it is so large that the date would fall
    before the first representable day; for every positive count within
    that bound the date is the clock reading minus that many days. *)
Theorem calculate_listing_date_from_days_spec (w : world) :
  calculate_listing_date_from_days None w = (Return None, w)
  /\ (forall d, d < 0 ->
        calculate_listing_date_from_days (Some d) w = (Return None, w))
  /\ (forall d, 0 < d -> datetime_ok (clock (ticks w)) ->
        d * usec_per_day <= clock (ticks w) ->
        fst (calculate_listing_date_from_days (Some d) w)
        = Return (Some (clock (ticks w) - d * usec_per_day)))
  /\ (forall d, 0 < d -> datetime_ok (clock (ticks w)) ->
        clock (ticks w) < d * usec_per_day ->
        fst (calculate_listing_date_from_days (Some d) w) = Return None).
Proof.
  split; [reflexivity|]. split; [|split].
  - intros d Hd. unfold calculate_listing_date_from_days.
    destruct (Z.ltb_spec d 0); [|lia]. now rewrite orb_true_r.
  - intros d Hd Hok Hr. now rewrite calculate_in_range.
  - intros d Hd Hok Hr. unfold calculate_listing_date_from_days, truthy_int.
    destruct (Z.eqb_spec d 0); [lia|]. destruct (Z.ltb_spec d 0); [lia|].
    simpl. unfold try_with, bind, now, lift, ret.
    destruct (timedelta_days d) as [delta|] eqn:Et; [|reflexivity].
    unfold timedelta_days in Et.
    destruct (Z.abs d <=? 999999999); [|discriminate]. injection Et as <-.
    now rewrite datetime_sub_before_year_one by lia.
Qed.

(** C2 (as amended). For every positive count [d] that does not reach
    back before the first representable day, and with the second clock
    reading taken less than one day after the first, calculating the date
    from [d] and deriving the count back from that date gives [d]. *)
Theorem days_round_trip_spec (w : world) (d : Z) :
  0 < d -> datetime_ok (clock (ticks w)) ->
  d * usec_per_day <= clock (ticks w) ->
  clock (ticks w) <= clock (S (ticks w)) < clock (ticks w) + usec_per_day ->
  fst (days_round_trip d w) = Return (Some d).
Proof.
  intros Hd Hok Hr Hc. unfold days_round_trip, bind.
  rewrite calculate_in_range by assumption.
  unfold derive_days_on_market, bind, now, ret. simpl.
  unfold td_days, datetime_diff. do 2 f_equal.
  replace (clock (S (ticks w)) - (clock (ticks w) - d * usec_per_day))
    with ((clock (S (ticks w)) - clock (ticks w)) + d * usec_per_day) by lia.
  rewrite Z.div_add by (unfold usec_per_day; lia).
  rewrite Z.div_small by lia. lia.
Qed.

(** ** Parsing a listing date *)

Lemma try_formats_first (s : string) (pre post : list string)
    (fmt : string) (d : datetime) :
  Forall (fun f => strptime s f = Raise ValueError) pre ->
  strptime s fmt = Return d ->
  try_formats s (pre ++ fmt :: post) = Return (Some d).
Proof.
  intros Hpre Hfmt. induction Hpre as [|f pre Hf _ IH]; simpl.
  - now rewrite Hfmt.
  - now rewrite Hf.
Qed.

Lemma try_formats_some (s : string) (formats : list string) (d : datetime) :
  try_formats s formats = Return (Some d) ->
  exists pre fmt post,
    formats = pre ++ fmt :: post
    /\ Forall (fun f => strptime s f = Raise ValueError) pre
    /\ strptime s fmt = Return d.
Proof.
  induction formats as [|f rest IH]; simpl; [discriminate|].
  destruct (strptime s f) as [d'|e] eqn:Ef.
  - intros [= <-]. exists [], f, rest. repeat split; [constructor|exact Ef].
  - destruct e; try discriminate. intros H.
    destruct (IH H) as (pre & fmt & post & -> & Hpre & Hfmt).
    exists (f :: pre), fmt, post. repeat split; [|exact Hfmt].
    constructor; assumption.
Qed.

Lemma try_formats_all_raise (s : string) (formats : list string) :
  Forall (fun f => exists e, strptime s f = Raise e) formats ->
  try_formats s formats = Return None
  \/ exists e, try_formats s formats = Raise e.
Proof.
  induction 1 as [|f rest [e Hf] _ IH]; simpl; [now left|].
  rewrite Hf. destruct e; try (right; eexists; reflexivity). exact IH.
Qed.

Lemma parse_listing_date_returns (date_str : option string) :
  exists v, parse_listing_date date_str = Return v.
Proof.
  unfold parse_listing_date.
  destruct date_str as [s|]; [|eexists; reflexivity].
  destruct (falsy_str (Some s)); [eexists; reflexivity|].
  unfold try_except. destruct (try_formats _ _); eexists; reflexivity.
Qed.

(** C5. [parse_listing_date] goes through the five formats in their
    order on the stripped string and returns the first one that
    [strptime] parses; a missing or empty string, and a string that no
    format parses, give absent; no exception leaves the function. *)
Theorem parse_listing_date_spec (date_str : option string) :
  date_formats
  = [ "%m/%d/%Y"; "%m-%d-%Y"; "%Y-%m-%d"; "%B %d, %Y"; "%b %d, %Y" ]%string
  /\ (exists v, parse_listing_date date_str = Return v)
  /\ (falsy_str date_str = true -> parse_listing_date date_str = Return None)
  /\ (forall s pre fmt post d,
        date_str = Some s -> falsy_str date_str = false ->
        date_formats = pre ++ fmt :: post ->
        Forall (fun f => strptime (strip s) f = Raise ValueError) pre ->
        strptime (strip s) fmt = Return d ->
        parse_listing_date date_str = Return (Some d))
  /\ (forall s,
        date_str = Some s ->
        Forall (fun f => exists e, strptime (strip s) f = Raise e)
          date_formats ->
        parse_listing_date date_str = Return None)
  /\ (forall d,
        parse_listing_date date_str = Return (Some d) ->
        exists s pre fmt post,
          date_str = Some s /\ date_formats = pre ++ fmt :: post
          /\ Forall (fun f => strptime (strip s) f = Raise ValueError) pre
          /\ strptime (strip s) fmt = Return d).
Proof.
  split; [reflexivity|]. split; [apply parse_listing_date_returns|].
  split; [|split; [|split]].
  - intros H. unfold parse_listing_date.
    destruct date_str as [s|]; [|reflexivity]. now rewrite H.
  - intros s pre fmt post d -> Hf Hsplit Hpre Hfmt.
    unfold parse_listing_date. rewrite Hf, Hsplit.
    now rewrite (try_formats_first _ pre post fmt d Hpre Hfmt).
  - intros s -> Hall. unfold parse_listing_date.
    destruct (falsy_str (Some s)); [reflexivity|].
    destruct (try_formats_all_raise _ _ Hall) as [->|[e ->]]; reflexivity.
  - intros d H. unfold parse_listing_date in H.
    destruct date_str as [s|]; [|discriminate].
    destruct (falsy_str (Some s)); [discriminate|].
    unfold try_except in H.
    destruct (try_formats (strip s) date_formats) as [v|e] eqn:Et;
      [|discriminate].
    injection H as ->. apply try_formats_some in Et.
    destruct Et as (pre & fmt & post & E & Hpre & Hfmt).
    now exists s, pre, fmt, post.
Qed.

(** ** The date of a detail page *)



Arguments calculate_listing_date_from_days : simpl never.
Arguments parse_listing_date : simpl never.

Lemma find_days_on_market_some (text : string) (patterns : list string)
    (w w' : world) (c : datetime) (n : Z) :
  find_days_on_market text patterns w = (Return (Some (c, n)), w') ->
  exists p m g t,
    In p patterns /\ re_search p text IgnoreCase = Some m
    /\ group 1 m = Some g /\ n = int_of_digits (list_ascii_of_string g)
    /\ 0 < n /\ c = clock t - n * usec_per_day.
Proof.
  revert w. induction patterns as [|q rest IH]; intros w; simpl.
  - discriminate.
  - destruct (re_search q text IgnoreCase) as [m|] eqn:Eq.
    + destruct (group 1 m) as [g|] eqn:Eg; [|discriminate].
      unfold bind, lift.
      destruct (int_of_str (list_ascii_of_string g)) as [days|e] eqn:Ei;
        [|intros H; discriminate H].
      apply int_of_str_return in Ei. destruct Ei as [-> _].
      destruct (calculate_listing_date_from_days
                  (Some (int_of_digits (list_ascii_of_string g))) w)
        as [[r|e] w1] eqn:Ec; cbv iota beta; [|intros H; discriminate H].
      destruct r as [c'|].
      * intros H. unfold ret in H. injection H as <- <- <-.
        apply calculate_some in Ec.
        destruct Ec as (d & [= <-] & Hd & Hc & _).
        exists q, m, g, (ticks w). simpl. auto 10.
      * intros H. destruct (IH _ H) as (p & m' & g' & t & Hin & Hrest).
        exists p, m', g', t. split; [now right|exact Hrest].
    + intros H. destruct (IH _ H) as (p & m' & g' & t & Hin & Hrest).
      exists p, m', g', t. split; [now right|exact Hrest].
Qed.



Lemma find_listing_date_returns (text : string) (patterns : list string) :
  exists r, find_listing_date text patterns = Return r.
Proof.
  induction patterns as [|q rest IH]; simpl; [eexists; reflexivity|].
  destruct (re_search q text IgnoreCase) as [m|]; [|exact IH].
  destruct (parse_listing_date_returns (group 1 m)) as [r ->]. simpl.
  destruct r; [eexists; reflexivity|exact IH].
Qed.



Arguments extract_details : simpl never.
Arguments scrape_with_scrapingbee : simpl never.


(** ** The card parser *)

Lemma parse_cards_app (cards1 cards2 : list Card) :
  parse_cards (cards1 ++ cards2) = parse_cards cards1 ++ parse_cards cards2.
Proof.
  unfold parse_cards. rewrite fold_left_app.
  generalize (fold_left
                (fun page_listings card =>
                   match parse_card card with
                   | Return listing =>
                       if identifiable listing then page_listings ++ [listing]
                       else page_listings
                   | Raise _ => page_listings
                   end) cards1 []).
  intros acc. revert acc.
  induction cards2 as [|c cards2 IH] using rev_ind; intros acc; simpl.
  - now rewrite app_nil_r.
  - rewrite !fold_left_app. simpl. rewrite IH.
    destruct (parse_card c) as [l|e]; [|reflexivity].
    destruct (identifiable l); [|reflexivity].
    now rewrite app_assoc.
Qed.

Lemma parse_cards_one (card : Card) :
  parse_cards [card]
  = match parse_card card with
    | Return listing => if identifiable listing then [listing] else []
    | Raise _ => []
    end.
Proof.
  unfold parse_cards. simpl.
  destruct (parse_card card) as [l|e]; [|reflexivity].
  destruct (identifiable l); reflexivity.
Qed.

(** C6. Every record that the card parser appends to the list of a page
    has a non-empty URL or a non-empty address; a card whose record has
    neither, or whose parsing raises, leaves no record. *)
Theorem parse_cards_identifiable (listing_cards : list Card) :
  Forall (fun l => truthy_str (url l) = true \/ truthy_str (address l) = true)
    (parse_cards listing_cards)
  /\ (forall card,
        (forall l, parse_card card = Return l -> identifiable l = false) ->
        parse_cards [card] = []).
Proof.
  split.
  - induction listing_cards as [|c cards IH] using rev_ind.
    + constructor.
    + rewrite parse_cards_app, parse_cards_one.
      apply Forall_app. split; [exact IH|].
      destruct (parse_card c) as [l|e]; [|constructor].
      destruct (identifiable l) eqn:Ei; [|constructor].
      constructor; [|constructor].
      unfold identifiable in Ei. now apply orb_true_iff in Ei.
  - intros card H. rewrite parse_cards_one.
    destruct (parse_card card) as [l|e]; [|reflexivity].
    now rewrite (H l eq_refl).
Qed.

(** ** Enrichment *)

Ltac read_numbers text :=
  destruct (Detail.sqft text) as [?|?];
  [destruct (Detail.taxes text) as [?|?];
   [destruct (Detail.fees text) as [?|?]|]|].

(** The world after the extraction is the world after its dates. *)
Lemma extract_details_world (text : string) (w w' : world)
    (o : outcome details) :
  extract_details text w = (o, w') ->
  w' = w
  \/ exists r, find_days_on_market text Detail.days_patterns w = (r, w').
Proof.
  unfold extract_details, bind, lift, ret.
  destruct (find_listing_date text Detail.date_patterns) as [direct|e];
    [|intros [= <- <-]; now left].
  destruct direct as [D|].
  - read_numbers text; intros [= <- <-]; now left.
  - destruct (find_days_on_market text Detail.days_patterns w)
      as [[r|e] w1] eqn:Ef;
      [read_numbers text|]; intros [= <- <-]; right; eexists; reflexivity.
Qed.

(** A count in the result comes from the days-on-market patterns, with
    its date. *)
Lemma extract_details_dated (text : string) (w w' : world) (d : details) :
  extract_details text w = (Return d, w') ->
  det_days_on_market d = None
  \/ exists c n,
       find_days_on_market text Detail.days_patterns w
       = (Return (Some (c, n)), w')
       /\ det_listing_date d = Some c /\ det_days_on_market d = Some n.
Proof.
  unfold extract_details, bind, lift, ret.
  destruct (find_listing_date text Detail.date_patterns) as [direct|e];
    [|discriminate].
  destruct direct as [D|].
  - read_numbers text; intros H; try discriminate H.
    injection H as <- <-. now left.
  - destruct (find_days_on_market text Detail.days_patterns w)
      as [[r|e] w1] eqn:Ef; [|discriminate].
    read_numbers text; intros H; try discriminate H.
    injection H as <- <-. destruct r as [[c n]|]; [|now left].
    right. exists c, n. auto.
Qed.

Lemma extract_details_plausible (text : string) (w w' : world) (d : details) :
  extract_details text w = (Return d, w') ->
  (forall v, det_sqft d = Some v -> v <> 0)
  /\ (forall v, det_taxes d = Some v -> v <> 0)
  /\ (forall v, det_fees d = Some v -> v <> 0)
  /\ (forall n, det_days_on_market d = Some n -> n <> 0).
Proof.
  intros H.
  destruct (extract_details_numbers text w w' d H) as (Es & Et & Ef).
  assert (Hnum : forall accept patterns o v,
             detail_number accept patterns text = Return o ->
             o = Some v -> v <> 0).
  { intros accept patterns o v Ho ->.
    exact (proj1 (detail_number_accepted accept patterns text v Ho)). }
  split; [intros v Hv; exact (Hnum _ _ _ v Es Hv)|].
  split; [intros v Hv; exact (Hnum _ _ _ v Et Hv)|].
  split; [intros v Hv; exact (Hnum _ _ _ v Ef Hv)|].
  intros n Hn.
  destruct (extract_details_dated text w w' d H)
    as [Hnone|(c & n' & Hfind & _ & Hdays)]; [congruence|].
  rewrite Hdays in Hn. injection Hn as ->.
  apply find_days_on_market_some in Hfind.
  destruct Hfind as (_ & _ & _ & _ & _ & _ & _ & _ & Hpos & _). lia.
Qed.

Lemma scrape_listing_details_returns (listing_url api_key : string)
    (w : world) :
  exists d w',
    scrape_listing_details listing_url api_key w = (Return d, w')
    /\ (forall v, det_sqft d = Some v -> v <> 0)
    /\ (forall v, det_taxes d = Some v -> v <> 0)
    /\ (forall v, det_fees d = Some v -> v <> 0)
    /\ (forall n, det_days_on_market d = Some n -> n <> 0).
Proof.
  unfold scrape_listing_details, try_with, bind.
  destruct (scrape_with_scrapingbee listing_url api_key false w)
    as [[response|e] w1].
  - destruct (extract_details (combined_text_of (content response)) w1)
      as [[d|e] w2] eqn:Ee.
    + exists d, w2. split; [reflexivity|].
      exact (extract_details_plausible _ _ _ _ Ee).
    + exists empty_details, w2. split; [reflexivity|].
      repeat split; discriminate.
  - exists empty_details, w1. split; [reflexivity|].
    repeat split; discriminate.
Qed.

Lemma truthy_int_some (v : Z) : v <> 0 -> truthy_int (Some v) = true.
Proof.
  intros H. unfold truthy_int. destruct (Z.eqb_spec v 0); [lia|reflexivity].
Qed.

Lemma merge_details_fields (d : details) (l : listing) :
  (forall v, det_sqft d = Some v -> v <> 0) ->
  (forall v, det_taxes d = Some v -> v <> 0) ->
  (forall v, det_fees d = Some v -> v <> 0) ->
  (forall n, det_days_on_market d = Some n -> n <> 0) ->
  sqft (merge_details d l)
  = match det_sqft d with Some v => Some v | None => sqft l end
  /\ taxes (merge_details d l)
     = match det_taxes d with Some v => Some v | None => taxes l end
  /\ fees (merge_details d l)
     = match det_fees d with Some v => Some v | None => fees l end
  /\ listing_date (merge_details d l)
     = match det_listing_date d with
       | Some v => Some v
       | None => listing_date l
       end
  /\ days_on_market (merge_details d l)
     = match det_days_on_market d with
       | Some v => Some v
       | None => days_on_market l
       end
  /\ same_identity l (merge_details d l).
Proof.
  intros Hs Ht Hf Hd. unfold merge_details, same_identity.
  destruct (det_sqft d) as [vs|];
    [rewrite (truthy_int_some vs (Hs vs eq_refl))|];
    (destruct (det_taxes d) as [vt|];
     [rewrite (truthy_int_some vt (Ht vt eq_refl))|]);
    (destruct (det_fees d) as [vf|];
     [rewrite (truthy_int_some vf (Hf vf eq_refl))|]);
    (destruct (det_days_on_market d) as [vd|];
     [rewrite (truthy_int_some vd (Hd vd eq_refl))|]);
    destruct (det_listing_date d); simpl; repeat split; reflexivity.
Qed.

Lemma derive_days_on_market_spec (l : listing) (w : world) :
  exists l' w',
    derive_days_on_market l w = (Return l', w')
    /\ sqft l' = sqft l /\ taxes l' = taxes l /\ fees l' = fees l
    /\ listing_date l' = listing_date l /\ same_identity l l'
    /\ (days_on_market l' = days_on_market l
        \/ (truthy_int (days_on_market l) = false
            /\ exists k, days_on_market l' = Some k))
    /\ trace w' = trace w /\ requests w' = requests w.
Proof.
  unfold derive_days_on_market, same_identity.
  destruct (listing_date l) as [date|] eqn:Ed.
  - destruct (truthy_int (days_on_market l)) eqn:Et; simpl.
    + exists l, w. rewrite Ed. repeat split; auto.
    + unfold bind, now, ret. eexists _, _. split; [reflexivity|]. simpl.
      repeat split; auto. right. split; [reflexivity|]. eexists; reflexivity.
  - exists l, w. rewrite Ed. repeat split; auto.
Qed.

Arguments scrape_listing_details : simpl never.
Arguments derive_days_on_market : simpl never.
Arguments merge_details : simpl never.

Lemma is_Some_match {A} (o old : option A) :
  is_Some old -> is_Some (match o with Some v => Some v | None => old end).
Proof.
  intros H. destruct o; [eexists; reflexivity|exact H].
Qed.

(** One iteration of the enrichment loop: it returns, leaves the
    identity of the record alone, does nothing at all to a record
    without URL, and never turns a present field into an absent one. *)
Lemma enrich_listing_returns (api_key : string) (total i : nat)
    (l : listing) (w : world) :
  exists l' w',
    enrich_listing api_key total i l w = (Return l', w')
    /\ same_identity l l'
    /\ (nonempty (url l) = None -> l' = l /\ w' = w)
    /\ (is_Some (sqft l) -> is_Some (sqft l'))
    /\ (is_Some (taxes l) -> is_Some (taxes l'))
    /\ (is_Some (fees l) -> is_Some (fees l'))
    /\ (is_Some (listing_date l) -> is_Some (listing_date l'))
    /\ (is_Some (days_on_market l) -> is_Some (days_on_market l')).
Proof.
  unfold enrich_listing.
  destruct (nonempty (url l)) as [u|] eqn:Eu.
  - destruct (scrape_listing_details_returns u api_key w)
      as (d & w1 & Hs & P1 & P2 & P3 & P4).
    destruct (merge_details_fields d l P1 P2 P3 P4)
      as (M1 & M2 & M3 & M4 & M5 & M6).
    destruct (derive_days_on_market_spec (merge_details d l) w1)
      as (l2 & w2 & Hd & D1 & D2 & D3 & D4 & D5 & D6 & _).
    unfold bind. rewrite Hs, Hd. simpl. eexists _, _.
    split; [reflexivity|].
    split.
    { unfold same_identity in *. intuition congruence. }
    split; [discriminate|].
    rewrite D1, D2, D3, D4, M1, M2, M3, M4.
    repeat split; try apply is_Some_match.
    intros H. destruct D6 as [->|[_ [k ->]]]; [|eexists; reflexivity].
    rewrite M5. now apply is_Some_match.
  - exists l, w. split; [reflexivity|].
    unfold same_identity. repeat split; auto.
Qed.

Lemma enrich_loop_returns (api_key : string) (total : nat)
    (listings : list listing) (i : nat) (w : world) :
  exists listings' w',
    enrich_loop api_key total i listings w = (Return listings', w')
    /\ Forall2
         (fun l l' =>
            same_identity l l' /\ (nonempty (url l) = None -> l' = l))
         listings listings'.
Proof.
  revert i w. induction listings as [|l rest IH]; intros i w; simpl.
  - exists [], w. split; [reflexivity|constructor].
  - destruct (enrich_listing_returns api_key total i l w)
      as (l' & w1 & He & Hid & Hnone & _).
    destruct (IH (S i) w1) as (rest' & w2 & Hr & Hall).
    unfold bind. rewrite He, Hr. exists (l' :: rest'), w2.
    split; [reflexivity|]. constructor; [|exact Hall].
    split; [exact Hid|]. intros H. now apply Hnone.
Qed.


(** C10. Enrichment changes nothing but sqft, taxes, fees, listing_date
    and days_on_market: address, neighborhood, price and url of every
    record are what they were, and a record without URL comes out of the
    pass as it went in. *)
Theorem enrichment_frame (api_key : string) (total i : nat) (w : world) :
  (forall l,
      exists l' w',
        enrich_listing api_key total i l w = (Return l', w')
        /\ address l' = address l /\ neighborhood l' = neighborhood l
        /\ price l' = price l /\ url l' = url l
        /\ (truthy_str (url l) = false -> l' = l /\ w' = w))
  /\ (forall listings,
         exists listings' w',
           enrich_loop api_key total i listings w = (Return listings', w')
           /\ Forall2
                (fun l l' =>
                   address l' = address l /\ neighborhood l' = neighborhood l
                   /\ price l' = price l /\ url l' = url l
                   /\ (truthy_str (url l) = false -> l' = l))
                listings listings').
Proof.
  assert (Hn : forall l, truthy_str (url l) = false -> nonempty (url l) = None).
  { intros l. unfold truthy_str, nonempty. destruct (url l) as [s|]; [|easy].
    destruct (String.eqb s ""); [reflexivity|discriminate]. }
  split.
  - intros l. destruct (enrich_listing_returns api_key total i l w)
      as (l' & w1 & He & (I1 & I2 & I3 & I4) & Hnone & _).
    exists l', w1. repeat split; auto; apply Hnone, Hn; assumption.
  - intros listings.
    destruct (enrich_loop_returns api_key total listings i w)
      as (ls' & w1 & He & Hall).
    exists ls', w1. split; [exact He|].
    eapply Forall2_impl; [exact Hall|].
    intros l l' [(I1 & I2 & I3 & I4) Hnone]. repeat split; auto.
Qed.

(** ** Requests and the page loop *)


Lemma calculate_trace (days_on_market : option Z) (w w' : world)
    (o : outcome (option datetime)) :
  calculate_listing_date_from_days days_on_market w = (o, w') ->
  trace w' = trace w /\ requests w' = requests w.
Proof.
  unfold calculate_listing_date_from_days.
  destruct days_on_market as [d|]; [|intros [= <- <-]; auto].
  destruct (negb (truthy_int (Some d)) || (d <? 0));
    [intros [= <- <-]; auto|].
  unfold try_with, bind, now, lift, ret.
  destruct (timedelta_days d); [|intros [= <- <-]; auto].
  destruct (datetime_sub _ _); intros [= <- <-]; auto.
Qed.

Lemma find_days_on_market_trace (text : string) (patterns : list string)
    (w w' : world) (o : outcome (option (datetime * Z))) :
  find_days_on_market text patterns w = (o, w') ->
  trace w' = trace w /\ requests w' = requests w.
Proof.
  revert w. induction patterns as [|q rest IH]; intros w; simpl.
  - intros [= <- <-]; auto.
  - destruct (re_search q text IgnoreCase) as [m|]; [|apply IH].
    destruct (group 1 m) as [g|]; [|intros [= <- <-]; auto].
    unfold bind, lift.
    destruct (int_of_str (list_ascii_of_string g)) as [days|e];
      [|intros [= <- <-]; auto].
    destruct (calculate_listing_date_from_days (Some days) w)
      as [[r|e] w1] eqn:Ec; apply calculate_trace in Ec; destruct Ec as [T R].
    + destruct r as [c|].
      * intros [= <- <-]; auto.
      * intros H. apply IH in H. destruct H. split; congruence.
    + intros [= <- <-]; auto.
Qed.

Lemma extract_details_trace (text : string) (w w' : world)
    (o : outcome details) :
  extract_details text w = (o, w') ->
  trace w' = trace w /\ requests w' = requests w.
Proof.
  intros H.
  destruct (extract_details_world text w w' o H) as [->|[r Ef]]; [auto|].
  exact (find_days_on_market_trace _ _ _ _ _ Ef).
Qed.






Arguments fetch_page : simpl never.




(** * Further properties of the scraper *)

(** ** Worlds *)

Lemma spent_here (w w' : world) : same_service w w' -> spent w w' 0.
Proof.
  intros (C & K & R). unfold spent. rewrite C, K, R. lia.
Qed.

Lemma spent_then (w w1 w2 : world) (n1 n2 : Z) :
  spent w w1 n1 -> spent w1 w2 n2 -> spent w w2 (n1 + n2).
Proof.
  unfold spent. intros (C1 & K1 & R1) (C2 & K2 & R2). lia.
Qed.

Lemma same_service_refl (w : world) : same_service w w.
Proof.
  unfold same_service. auto.
Qed.

Lemma same_service_trans (w w1 w2 : world) :
  same_service w w1 -> same_service w1 w2 -> same_service w w2.
Proof.
  unfold same_service. intros (C1 & K1 & R1) (C2 & K2 & R2).
  repeat split; congruence.
Qed.

Lemma requested_app (t1 t2 : list event) :
  requested (t1 ++ t2) = requested t1 ++ requested t2.
Proof.
  apply omap_app.
Qed.

Lemma errors_app (t1 t2 : list event) :
  errors (t1 ++ t2) = errors t1 ++ errors t2.
Proof.
  apply omap_app.
Qed.

Lemma pauses_app (t1 t2 : list event) :
  pauses (t1 ++ t2) = pauses t1 ++ pauses t2.
Proof.
  apply omap_app.
Qed.

(** One request: what it leaves in the world, answered or not. *)
Lemma scrape_with_scrapingbee_counts (target api_key : string) (w : world) :
  exists o w',
    scrape_with_scrapingbee target api_key false w = (o, w')
    /\ trace w' = trace w ++ [Requested target]
    /\ requests w' = S (requests w)
    /\ match server (requests w) api_key target with
       | Some r =>
           spent w w' 1
           /\ o = (if http_error r then Raise (HTTPError (status_code r))
                   else Return r)
       | None => spent w w' 0 /\ o = Raise OtherError
       end.
Proof.
  unfold scrape_with_scrapingbee, bind, requests_get, count_call, lift, ret,
    raise_for_status, http_error, spent.
  destruct (server (requests w) api_key target) as [r|].
  - destruct ((400 <=? status_code r) && (status_code r <? 600));
      eexists _, _; (split; [reflexivity|]); simpl;
      repeat split; lia.
  - eexists _, _. split; [reflexivity|]. simpl. repeat split; lia.
Qed.

Lemma calculate_same_service (days_on_market : option Z) (w w' : world)
    (o : outcome (option datetime)) :
  calculate_listing_date_from_days days_on_market w = (o, w') ->
  same_service w w'.
Proof.
  unfold calculate_listing_date_from_days, same_service.
  destruct days_on_market as [d|]; [|intros [= <- <-]; auto].
  destruct (negb (truthy_int (Some d)) || (d <? 0));
    [intros [= <- <-]; auto|].
  unfold try_with, bind, now, lift, ret.
  destruct (timedelta_days d); [|intros [= <- <-]; auto].
  destruct (datetime_sub _ _); intros [= <- <-]; auto.
Qed.

Lemma find_days_on_market_same_service (text : string)
    (patterns : list string) (w w' : world)
    (o : outcome (option (datetime * Z))) :
  find_days_on_market text patterns w = (o, w') -> same_service w w'.
Proof.
  revert w. induction patterns as [|q rest IH]; intros w; simpl.
  - intros [= <- <-]. apply same_service_refl.
  - destruct (re_search q text IgnoreCase) as [m|]; [|apply IH].
    destruct (group 1 m) as [g|];
      [|intros [= <- <-]; apply same_service_refl].
    unfold bind, lift.
    destruct (int_of_str (list_ascii_of_string g)) as [days|e];
      [|intros [= <- <-]; apply same_service_refl].
    destruct (calculate_listing_date_from_days (Some days) w)
      as [[r|e] w1] eqn:Ec; apply calculate_same_service in Ec.
    + destruct r as [c|].
      * intros [= <- <-]. exact Ec.
      * intros H. apply IH in H. exact (same_service_trans _ _ _ Ec H).
    + intros [= <- <-]. exact Ec.
Qed.

Lemma extract_details_same_service (text : string) (w w' : world)
    (o : outcome details) :
  extract_details text w = (o, w') -> same_service w w'.
Proof.
  intros H.
  destruct (extract_details_world text w w' o H) as [->|[r Ef]];
    [apply same_service_refl|].
  exact (find_days_on_market_same_service _ _ _ _ _ Ef).
Qed.

(** ** Detail pages *)

Lemma detail_number_in_range (accept : Z -> bool) (patterns : list string)
    (text : string) (v : Z) :
  detail_number accept patterns text = Return (Some v) -> accept v = true.
Proof.
  intros H. exact (proj2 (detail_number_accepted accept patterns text v H)).
Qed.

(** What any successful extraction gives. *)
Lemma extract_details_ranges (text : string) (w w' : world) (d : details) :
  extract_details text w = (Return d, w') ->
  (forall v, det_sqft d = Some v -> 200 <= v <= 10000)
  /\ (forall v, det_taxes d = Some v -> 0 < v < 50000)
  /\ (forall v, det_fees d = Some v -> 0 < v < 20000)
  /\ (forall n, det_days_on_market d = Some n ->
        1 <= n /\ exists t, det_listing_date d
                            = Some (clock t - n * usec_per_day)).
Proof.
  intros H.
  destruct (extract_details_numbers text w w' d H) as (Es & Et & Ef).
  split; [|split; [|split]].
  - intros v Hv. rewrite Hv in Es. apply detail_number_in_range in Es.
    unfold Detail.sqft_ok in Es. apply andb_true_iff in Es. lia.
  - intros v Hv. rewrite Hv in Et. apply detail_number_in_range in Et.
    unfold Detail.tax_ok in Et. apply andb_true_iff in Et. lia.
  - intros v Hv. rewrite Hv in Ef. apply detail_number_in_range in Ef.
    unfold Detail.fee_ok in Ef. apply andb_true_iff in Ef. lia.
  - intros n Hn.
    destruct (extract_details_dated text w w' d H)
      as [Hnone|(c & n' & Hfind & Hdate & Hdays)]; [congruence|].
    rewrite Hdays in Hn. injection Hn as ->. rewrite Hdate.
    apply find_days_on_market_some in Hfind.
    destruct Hfind as (_ & _ & _ & t & _ & _ & _ & _ & Hpos & ->).
    split; [lia|]. now exists t.
Qed.

(** X7. [scrape_listing_details] never raises and sends exactly one
    request.  When the request gets no answer or an HTTP error status,
    the result has no field at all. *)
Theorem scrape_listing_details_isolated (listing_url api_key : string)
    (w : world) :
  exists d w',
    scrape_listing_details listing_url api_key w = (Return d, w')
    /\ trace w' = trace w ++ [Requested listing_url]
    /\ requests w' = S (requests w)
    /\ (match server (requests w) api_key listing_url with
        | Some r => http_error r = true
        | None => True
        end -> d = empty_details).
Proof.
  unfold scrape_listing_details, try_with, bind.
  destruct (scrape_with_scrapingbee_counts listing_url api_key w)
    as (o & w1 & -> & T & R & Hs).
  destruct (server (requests w) api_key listing_url) as [r|].
  - destruct Hs as [_ ->]. destruct (http_error r) eqn:Er.
    + exists empty_details, w1. repeat split; auto.
    + destruct (extract_details (combined_text_of (content r)) w1)
        as [[d|e] w2] eqn:Ee.
      * pose proof (extract_details_trace _ _ _ _ Ee) as [T2 _].
        pose proof (extract_details_same_service _ _ _ _ Ee) as (_ & _ & R2).
        exists d, w2. repeat split; try congruence; discriminate.
      * pose proof (extract_details_trace _ _ _ _ Ee) as [T2 _].
        pose proof (extract_details_same_service _ _ _ _ Ee) as (_ & _ & R2).
        exists empty_details, w2. repeat split; congruence.
  - destruct Hs as [_ ->]. exists empty_details, w1. repeat split; auto.
Qed.

(** X8. Whatever a detail page holds, the fields taken from it are
    plausible: sqft within 200..10000, monthly taxes within 1..49999,
    monthly fees within 1..19999; and a days-on-market count is only
    recorded when it is at least 1, together with the listing date that
    lies that many days before a reading of the clock. *)
Theorem scrape_listing_details_plausible (listing_url api_key : string)
    (w w' : world) (d : details) :
  scrape_listing_details listing_url api_key w = (Return d, w') ->
  (forall v, det_sqft d = Some v -> 200 <= v <= 10000)
  /\ (forall v, det_taxes d = Some v -> 0 < v < 50000)
  /\ (forall v, det_fees d = Some v -> 0 < v < 20000)
  /\ (forall n, det_days_on_market d = Some n ->
        1 <= n /\ exists t, det_listing_date d
                            = Some (clock t - n * usec_per_day)).
Proof.
  unfold scrape_listing_details, try_with, bind.
  destruct (scrape_with_scrapingbee listing_url api_key false w)
    as [[response|e] w1].
  - destruct (extract_details (combined_text_of (content response)) w1)
      as [[d'|e] w2] eqn:Ee.
    + intros [= <- <-]. exact (extract_details_ranges _ _ _ _ Ee).
    + intros [= <- <-]. repeat split; discriminate.
  - intros [= <- <-]. repeat split; discriminate.
Qed.

(** ** Card records *)

Lemma int_of_digits_nonneg (s : chars) : 0 <= int_of_digits s.
Proof.
  unfold int_of_digits.
  assert (H : forall acc, 0 <= acc ->
                0 <= fold_left (fun acc c => 10 * acc + digit_val c) s acc).
  { induction s as [|c s IH]; intros acc Hacc; simpl; [exact Hacc|].
    apply IH. unfold digit_val. lia. }
  apply H. lia.
Qed.

Lemma extract_number_nonneg (text : option string) (v : Z) :
  extract_number text = Return (Some v) -> 0 <= v.
Proof.
  unfold extract_number. destruct text as [t|]; [|discriminate].
  destruct (falsy_str (Some t)); [discriminate|].
  destruct (re_search _ _ _) as [m|]; [|discriminate].
  unfold obind.
  destruct (int_of_str _) as [n|e] eqn:Ei; [|discriminate].
  intros [= <-]. apply int_of_str_return in Ei. destruct Ei as [-> _].
  apply int_of_digits_nonneg.
Qed.

Lemma card_number_nonneg (patterns : list string) (text : string) (v : Z) :
  card_number patterns text = Return (Some v) -> 0 <= v.
Proof.
  unfold card_number.
  destruct (cascade _ patterns) as [m|]; [|discriminate].
  apply extract_number_nonneg.
Qed.

Lemma nonempty_some (o : option string) (h : string) :
  nonempty o = Some h -> o = Some h /\ h <> EmptyString.
Proof.
  unfold nonempty. destruct o as [s|]; [|discriminate].
  destruct (String.eqb_spec s ""); [discriminate|].
  intros [= <-]. now split.
Qed.

Lemma absolute_url_not_empty (o : option string) (h : string) :
  nonempty o = Some h ->
  Some (if startswith "/" h then ("https://streeteasy.com" ++ h)%string else h)
  <> Some EmptyString.
Proof.
  intros H. apply nonempty_some in H. destruct H as [_ H].
  destruct (startswith "/" h); [discriminate|congruence].
Qed.

Arguments extract_number : simpl never.
Arguments card_number : simpl never.
Arguments Card.sqft : simpl never.
Arguments Card.taxes : simpl never.
Arguments Card.fees : simpl never.

Ltac fields :=
  cbn [listing_date days_on_market url price sqft taxes fees address
       neighborhood set_url set_address set_neighborhood set_price set_sqft
       set_taxes set_fees empty_listing] in *.

(** A record as the card parser builds it: no date fields yet, a URL
    that is absent or not empty, and no negative number. *)
Lemma parse_card_shape (card : Card) (l : listing) :
  parse_card card = Return l ->
  listing_date l = None /\ days_on_market l = None
  /\ url l <> Some EmptyString
  /\ (forall v, price l = Some v -> 0 <= v)
  /\ (forall v, sqft l = Some v -> 0 <= v)
  /\ (forall v, taxes l = Some v -> 0 <= v)
  /\ (forall v, fees l = Some v -> 0 <= v).
Proof.
  unfold parse_card, obind, or_find. intros H.
  repeat match type of H with
         | match ?x with _ => _ end = _ =>
             let E := fresh "E" in destruct x eqn:E; try discriminate H
         end.
  injection H as <-.
  assert (S2 : listing_date a2 = None /\ days_on_market a2 = None
               /\ url a2 <> Some EmptyString /\ price a2 = None).
  { destruct a1 as [t|];
      [destruct (get_href t) as [href|];
       [destruct (nonempty href) as [h|] eqn:En|]|];
      try discriminate E2; injection E2 as <-; fields;
      repeat split; try discriminate.
    exact (absolute_url_not_empty href h En). }
  assert (S7 : listing_date a7 = None /\ days_on_market a7 = None
               /\ url a7 <> Some EmptyString /\ price a7 = None).
  { destruct a6 as [t|]; [destruct (tag_get_text t "")|];
      try discriminate E7; injection E7 as <-; fields; exact S2. }
  assert (S9 : listing_date a9 = None /\ days_on_market a9 = None
               /\ url a9 <> Some EmptyString /\ price a9 = None).
  { destruct a8 as [t|]; [destruct (tag_get_text t " ")|];
      try discriminate E9; injection E9 as <-; fields; exact S7. }
  assert (S11 : listing_date a11 = None /\ days_on_market a11 = None
                /\ url a11 <> Some EmptyString
                /\ (forall v, price a11 = Some v -> 0 <= v)).
  { destruct S9 as (D1 & D2 & D3 & D4).
    destruct a10 as [t|];
      [destruct (tag_get_text t " ") as [text|];
       [destruct (extract_number (Some text)) as [pr|] eqn:Ep|]
      |destruct (re_search "\$\s*[\d,]+" a3 NoFlags) as [m|];
       [destruct (extract_number (Some (group0 m))) as [pr|] eqn:Ep|]];
      try discriminate E11; injection E11 as <-; fields;
      repeat split; auto;
      intros v Hv;
      first [ rewrite Hv in Ep; exact (extract_number_nonneg _ _ Ep)
            | rewrite D4 in Hv; discriminate Hv ]. }
  destruct S11 as (D1 & D2 & D3 & D4). fields.
  repeat split; auto; intros v Hv.
  - rewrite Hv in E12. exact (card_number_nonneg _ _ _ E12).
  - rewrite Hv in E13. exact (card_number_nonneg _ _ _ E13).
  - rewrite Hv in E14. exact (card_number_nonneg _ _ _ E14).
Qed.

(** X9. The link of a card is taken from the first of: a link to
    [/sale/<number>], a link to [/building/], any link.  Its target
    becomes the URL of the record, with the site put in front of a target
    that starts with a slash; an empty target leaves the record without
    URL, and so does a card without link. *)
Theorem parse_card_url (card : Card) (l : listing) :
  parse_card card = Return l ->
  let absolute (href : option string) :=
    match nonempty href with
    | Some h => Some (if startswith "/" h
                      then ("https://streeteasy.com" ++ h)%string else h)
    | None => None
    end in
  (forall t href,
      find card LinkSale = Return (Some t) -> get_href t = Return href ->
      url l = absolute href)
  /\ (forall t href,
         find card LinkSale = Return None ->
         find card LinkBuilding = Return (Some t) ->
         get_href t = Return href -> url l = absolute href)
  /\ (forall t href,
         find card LinkSale = Return None ->
         find card LinkBuilding = Return None ->
         find card LinkAny = Return (Some t) ->
         get_href t = Return href -> url l = absolute href)
  /\ (find card LinkSale = Return None ->
      find card LinkBuilding = Return None ->
      find card LinkAny = Return None -> url l = None).
Proof.
  intros H absolute. unfold parse_card, obind, or_find in H.
  repeat match type of H with
         | match ?x with _ => _ end = _ =>
             let E := fresh "E" in destruct x eqn:E; try discriminate H
         end.
  injection H as <-.
  assert (U7 : url a7 = url a2).
  { destruct a6 as [t|]; [destruct (tag_get_text t "")|];
      try discriminate E7; injection E7 as <-; reflexivity. }
  assert (U9 : url a9 = url a7).
  { destruct a8 as [t|]; [destruct (tag_get_text t " ")|];
      try discriminate E9; injection E9 as <-; reflexivity. }
  assert (U11 : url a11 = url a9).
  { destruct a10 as [t|];
      [destruct (tag_get_text t " ") as [text|];
       [destruct (extract_number (Some text))|]
      |destruct (re_search "\$\s*[\d,]+" a3 NoFlags) as [m|];
       [destruct (extract_number (Some (group0 m)))|]];
      try discriminate E11; injection E11 as <-; reflexivity. }
  assert (U : forall t href,
             a1 = Some t -> get_href t = Return href ->
             url a2 = absolute href).
  { intros t href -> Hh. rewrite Hh in E2. unfold absolute.
    destruct (nonempty href); injection E2 as <-; reflexivity. }
  fields. rewrite U11, U9, U7.
  split; [|split; [|split]].
  - intros t href Hs Hh. injection Hs as ->.
    cbv iota in E0. injection E0 as <-. cbv iota in E1. injection E1 as <-.
    now apply (U t href).
  - intros t href Hs Hb Hh. injection Hs as ->.
    cbv iota in E0. rewrite Hb in E0. injection E0 as <-.
    cbv iota in E1. injection E1 as <-. now apply (U t href).
  - intros t href Hs Hb Ha Hh. injection Hs as ->.
    cbv iota in E0. rewrite Hb in E0. injection E0 as <-.
    cbv iota in E1. rewrite Ha in E1. injection E1 as <-.
    now apply (U t href).
  - intros Hs Hb Ha. injection Hs as ->.
    cbv iota in E0. rewrite Hb in E0. injection E0 as <-.
    cbv iota in E1. rewrite Ha in E1. injection E1 as <-.
    cbv iota in E2. injection E2 as <-. reflexivity.
Qed.

(** X10. Cards are parsed one by one, in order: a card whose parsing
    raises, or whose record has neither URL nor address, changes nothing
    for the cards around it; a card with an identifiable record adds
    exactly that record at its place; so a page never gives more records
    than it has cards. *)
Theorem parse_cards_isolates (before after : list Card) (card : Card) :
  ((forall l, parse_card card = Return l -> identifiable l = false) ->
   parse_cards (before ++ card :: after) = parse_cards (before ++ after))
  /\ (forall l,
         parse_card card = Return l -> identifiable l = true ->
         parse_cards (before ++ card :: after)
         = parse_cards before ++ l :: parse_cards after)
  /\ (length (parse_cards (before ++ card :: after))
      <= S (length (parse_cards before) + length (parse_cards after)))%nat
  /\ (length (parse_cards before) <= length before)%nat.
Proof.
  assert (E : parse_cards (before ++ card :: after)
              = parse_cards before ++ parse_cards [card]
                ++ parse_cards after).
  { rewrite parse_cards_app.
    change (card :: after) with ([card] ++ after).
    now rewrite parse_cards_app. }
  rewrite E, parse_cards_one. split; [|split; [|split]].
  - intros H. rewrite parse_cards_app.
    destruct (parse_card card) as [l|e]; [|reflexivity].
    now rewrite (H l eq_refl).
  - intros l Hl Hi. now rewrite Hl, Hi.
  - rewrite !length_app.
    destruct (parse_card card) as [l|e]; [destruct (identifiable l)|];
      simpl; lia.
  - clear E. induction before as [|c cs IH] using rev_ind; [simpl; lia|].
    rewrite parse_cards_app, parse_cards_one, !length_app.
    destruct (parse_card c) as [l|e]; [destruct (identifiable l)|];
      simpl; lia.
Qed.

Lemma parse_cards_well_formed (cards : list Card) :
  Forall (fun l => well_formed l /\ listing_date l = None
                   /\ days_on_market l = None)
    (parse_cards cards).
Proof.
  induction cards as [|c cs IH] using rev_ind; [constructor|].
  rewrite parse_cards_app, parse_cards_one.
  apply Forall_app. split; [exact IH|].
  destruct (parse_card c) as [l|e] eqn:Ec; [|constructor].
  destruct (identifiable l) eqn:Ei; [|constructor].
  constructor; [|constructor].
  destruct (parse_card_shape c l Ec) as (D1 & D2 & D3 & D4 & D5 & D6 & D7).
  unfold well_formed. rewrite D1. repeat split; auto.
  intros [x Hx]. discriminate.
Qed.

(** ** Deduplicated lists *)

Lemma keep_first_occurrences_again (l e e' : list listing) :
  (forall x, first_occurrence e x = true -> first_occurrence e' x = true) ->
  keep_first_occurrences e' (keep_first_occurrences e l)
  = keep_first_occurrences e l.
Proof.
  revert e e'. induction l as [|a l IH]; intros e e' H; simpl; [reflexivity|].
  destruct (first_occurrence e a) eqn:Ea; simpl.
  - rewrite (H a Ea). simpl. f_equal. apply IH. intros x.
    rewrite !first_occurrence_app. intros Hx.
    apply andb_true_iff in Hx. destruct Hx as [H1 H2].
    now rewrite (H x H1), H2.
  - apply IH. intros x. rewrite first_occurrence_app. intros Hx.
    apply andb_true_iff in Hx. destruct Hx as [H1 _]. now apply H.
Qed.

(** X1. Deduplication is idempotent: run on its own output it changes
    nothing. *)
Theorem dedup_idempotent (all_listings : list listing) :
  dedup (dedup all_listings) = dedup all_listings.
Proof.
  rewrite !dedup_keep_first_occurrences.
  apply keep_first_occurrences_again. auto.
Qed.

Lemma kept_is_first_occurrence (l e : list listing) (x : listing) :
  In x (keep_first_occurrences e l) -> first_occurrence e x = true.
Proof.
  revert e. induction l as [|a l IH]; intros e; simpl; [intros []|].
  intros H. apply in_app_or in H. destruct H as [H|H].
  - destruct (first_occurrence e a) eqn:Ea; [|destruct H].
    destruct H as [<-|[]]. exact Ea.
  - apply IH in H. rewrite first_occurrence_app in H.
    now apply andb_true_iff in H.
Qed.

Lemma first_occurrence_identifiable (e : list listing) (x : listing) :
  first_occurrence e x = true -> identifiable x = true.
Proof.
  rewrite <- first_occurrence_nil. unfold first_occurrence. simpl.
  destruct (nonempty (url x)); [reflexivity|].
  destruct (nonempty (address x)); [reflexivity|discriminate].
Qed.

Lemma first_occurrence_url_key (a x : listing) (u : string) :
  first_occurrence [a] x = true -> url_key a = Some u -> url_key x <> Some u.
Proof.
  unfold first_occurrence, url_key. simpl. intros H Ha Hx. rewrite Hx in H.
  rewrite andb_true_r in H. apply negb_true_iff, bool_decide_eq_false in H.
  contradiction.
Qed.

Lemma first_occurrence_address_key (a x : listing) (k : string) :
  first_occurrence [a] x = true -> address_key a = Some k ->
  address_key x <> Some k.
Proof.
  unfold first_occurrence, address_key. simpl. intros H Ha Hx.
  destruct (nonempty (url x)) as [ux|]; [discriminate|].
  destruct (nonempty (url a)) as [ua|] eqn:Eua; [discriminate|].
  rewrite Hx in H. rewrite andb_true_r in H.
  apply negb_true_iff, bool_decide_eq_false in H. apply H. now split.
Qed.

Lemma keep_first_occurrences_keys (l e : list listing) :
  NoDup (omap url_key (keep_first_occurrences e l))
  /\ NoDup (omap address_key (keep_first_occurrences e l)).
Proof.
  revert e. induction l as [|a l IH]; intros e; simpl.
  - split; constructor.
  - destruct (IH (e ++ [a])) as [IHu IHa].
    rewrite !omap_app.
    assert (Hrest : forall x, In x (keep_first_occurrences (e ++ [a]) l) ->
                              first_occurrence [a] x = true).
    { intros x Hx. apply kept_is_first_occurrence in Hx.
      rewrite first_occurrence_app in Hx. now apply andb_true_iff in Hx. }
    destruct (first_occurrence e a); simpl; [|split; assumption].
    split.
    + destruct (url_key a) as [u|] eqn:Eu; simpl; [|exact IHu].
      apply NoDup_cons. split; [|exact IHu].
      intros Hin. apply list_elem_of_omap in Hin.
      destruct Hin as (x & Hx & Ex). apply list_elem_of_In in Hx.
      exact (first_occurrence_url_key a x u (Hrest x Hx) Eu Ex).
    + destruct (address_key a) as [k|] eqn:Ek; simpl; [|exact IHa].
      apply NoDup_cons. split; [|exact IHa].
      intros Hin. apply list_elem_of_omap in Hin.
      destruct Hin as (x & Hx & Ex). apply list_elem_of_In in Hx.
      exact (first_occurrence_address_key a x k (Hrest x Hx) Ek Ex).
Qed.

Lemma dedup_all_identifiable (l : list listing) :
  Forall (fun x => identifiable x = true) (dedup l).
Proof.
  rewrite dedup_keep_first_occurrences. apply List.Forall_forall.
  intros x Hx. apply kept_is_first_occurrence in Hx.
  exact (first_occurrence_identifiable [] x Hx).
Qed.

(** X2. In the output of deduplication no two records have the same
    non-empty URL, no two records without URL have the same address, and
    every record has a URL or an address. *)
Theorem dedup_keys_unique (all_listings : list listing) :
  NoDup (omap url_key (dedup all_listings))
  /\ NoDup (omap address_key (dedup all_listings))
  /\ Forall (fun l => identifiable l = true) (dedup all_listings).
Proof.
  split; [|split].
  - rewrite dedup_keep_first_occurrences.
    apply (keep_first_occurrences_keys all_listings []).
  - rewrite dedup_keep_first_occurrences.
    apply (keep_first_occurrences_keys all_listings []).
  - apply dedup_all_identifiable.
Qed.

Lemma first_occurrence_fresh (e : list listing) (x : listing) :
  identifiable x = true ->
  (forall u, url_key x = Some u -> u ∉ omap url_key e) ->
  (forall k, address_key x = Some k -> k ∉ omap address_key e) ->
  first_occurrence e x = true.
Proof.
  pure_part. intros Hi Hu Ha. rewrite <- first_occurrence_nil in Hi.
  unfold first_occurrence, url_key, address_key in *. cbn [forallb] in Hi.
  destruct (nonempty (url x)) as [u|].
  - apply List.forallb_forall. intros y Hy.
    apply negb_true_iff, bool_decide_eq_false. intros E.
    apply (Hu u eq_refl). apply list_elem_of_omap. exists y.
    split; [apply list_elem_of_In; exact Hy|exact E].
  - destruct (nonempty (address x)) as [a|]; [|discriminate Hi].
    apply List.forallb_forall. intros y Hy.
    apply negb_true_iff, bool_decide_eq_false. intros [E1 E2].
    apply (Ha a eq_refl). apply list_elem_of_omap. exists y.
    split; [apply list_elem_of_In; exact Hy|]. now rewrite E1.
Qed.

Lemma keep_first_occurrences_unique (l e : list listing) :
  Forall (fun x => identifiable x = true) l ->
  NoDup (omap url_key (e ++ l)) -> NoDup (omap address_key (e ++ l)) ->
  keep_first_occurrences e l = l.
Proof.
  pure_part. revert e.
  induction l as [|a l IH]; intros e Hi Hu Ha; [reflexivity|].
  inversion Hi as [|? ? Hia Hil]; subst. cbn [keep_first_occurrences].
  rewrite first_occurrence_fresh; [|exact Hia| |].
  - cbn [app]. f_equal.
    apply IH; [exact Hil| |]; rewrite <- app_assoc; assumption.
  - intros u Eu Hin. rewrite omap_app in Hu. apply NoDup_app in Hu.
    destruct Hu as (_ & Hu & _). apply (Hu u Hin).
    simpl. rewrite Eu. apply list_elem_of_here.
  - intros k Ek Hin. rewrite omap_app in Ha. apply NoDup_app in Ha.
    destruct Ha as (_ & Ha & _). apply (Ha k Hin).
    simpl. rewrite Ek. apply list_elem_of_here.
Qed.

(** X23. The lists that deduplication leaves as they are, are exactly
    those in which every record has a URL or an address, no non-empty
    URL occurs twice, and no address occurs twice among the records
    without URL. *)
Theorem dedup_fixed_points (all_listings : list listing) :
  dedup all_listings = all_listings
  <-> Forall (fun l => identifiable l = true) all_listings
      /\ NoDup (omap url_key all_listings)
      /\ NoDup (omap address_key all_listings).
Proof.
  pure_part. rewrite dedup_keep_first_occurrences. split.
  - intros H. rewrite <- H. split; [|apply keep_first_occurrences_keys].
    rewrite <- dedup_keep_first_occurrences. apply dedup_all_identifiable.
  - intros (Hi & Hu & Ha). apply keep_first_occurrences_unique; assumption.
Qed.

(** ** The whole run *)

Lemma spent_emit (w w1 : world) (e : event) (n : Z) :
  spent w w1 n -> spent w (snd (emit e w1)) n.
Proof.
  unfold spent. simpl. auto.
Qed.

(** One page, whatever the service answers. *)
Ltac conjuncts := repeat match goal with |- _ /\ _ => split end.

Lemma fetch_page_general (base api_key : string) (max_pages j : Z)
    (w : world) :
  exists o w',
    fetch_page base api_key max_pages j w = (o, w')
    /\ requested (trace w') = requested (trace w) ++ [page_url base j]
    /\ errors (trace w') = errors (trace w)
    /\ requests w' = S (requests w)
    /\ (exists n, spent w w' n
                  /\ ((forall i k t, is_Some (server i k t)) -> n = 1))
    /\ (forall pl, o = Return (Some pl) ->
        exists cards, pl = parse_cards cards).
Proof.
  unfold fetch_page, bind.
  destruct (scrape_with_scrapingbee_counts (page_url base j) api_key w)
    as (o1 & w1 & -> & T & R & Hs).
  assert (Hn : exists n, spent w w1 n
                         /\ ((forall i k t, is_Some (server i k t)) -> n = 1)).
  { destruct (server (requests w) api_key (page_url base j)) as [r|] eqn:Er.
    - exists 1. split; [apply Hs|reflexivity].
    - exists 0. split; [apply Hs|]. intros Hall.
      specialize (Hall (requests w) api_key (page_url base j)).
      rewrite Er in Hall. destruct Hall as [x Hx]. discriminate. }
  assert (T1 : requested (trace w1)
               = requested (trace w) ++ [page_url base j]).
  { rewrite T, requested_app. reflexivity. }
  assert (T2 : errors (trace w1) = errors (trace w)).
  { rewrite T, errors_app. simpl. apply app_nil_r. }
  destruct o1 as [response|e].
  - destruct (select_cards (content response) selectors) as [|c cards] eqn:Ec.
    + exists (Return None), w1. conjuncts; auto. discriminate.
    + destruct (j <? max_pages).
      * eexists _, _. split; [reflexivity|]. simpl.
        rewrite requested_app, errors_app, T1, T2. simpl.
        rewrite !app_nil_r. conjuncts; auto.
        intros pl Hpl. exists (c :: cards). congruence.
      * eexists _, _. split; [reflexivity|]. simpl.
        conjuncts; auto. intros pl Hpl. exists (c :: cards). congruence.
  - exists (Raise e), w1. conjuncts; auto. discriminate.
Qed.

(** The page loop, whatever the service answers: it returns, it asks for
    the first [k] of its pages, in order, and every record it adds comes
    from the card parser. *)
Lemma page_loop_general (base api_key : string) (max_pages : Z)
    (pages : list Z) (acc : list listing) (w : world) :
  exists ls w' k,
    page_loop base api_key max_pages pages acc w = (Return ls, w')
    /\ (k <= length pages)%nat
    /\ requested (trace w')
       = requested (trace w) ++ map (page_url base) (take k pages)
    /\ requests w' = (requests w + k)%nat
    /\ (length (errors (trace w')) <= S (length (errors (trace w))))%nat
    /\ (exists n, spent w w' n
                  /\ ((forall i k t, is_Some (server i k t)) ->
                      n = Z.of_nat k))
    /\ (forall P : listing -> Prop,
          Forall P acc -> (forall cards, Forall P (parse_cards cards)) ->
          Forall P ls).
Proof.
  revert acc w. induction pages as [|j pages IH]; intros acc w.
  - exists acc, w, 0%nat. simpl. rewrite app_nil_r, Nat.add_0_r.
    conjuncts; auto.
    exists 0. split; [apply spent_here, same_service_refl|reflexivity].
  - destruct (fetch_page_general base api_key max_pages j w)
      as (o & w1 & Hf & T & Er & R & (n1 & Hs1 & Ha1) & Hcards).
    simpl. unfold bind at 1, try_with, bind at 1. rewrite Hf.
    destruct o as [[pl|]|e].
    + unfold ret at 1.
      destruct (IH (acc ++ pl) w1)
        as (ls & w2 & k & Hl & Hk & T2 & R2 & E2 & (n2 & Hs2 & Ha2) & HP).
      exists ls, w2, (S k). rewrite Hl. simpl.
      split; [reflexivity|]. split; [lia|].
      split; [rewrite T2, T, <- app_assoc; reflexivity|].
      split; [lia|]. split; [rewrite Er in E2; exact E2|].
      split.
      * exists (n1 + n2). split; [exact (spent_then _ _ _ _ _ Hs1 Hs2)|].
        intros Hall. rewrite (Ha1 Hall), (Ha2 Hall). lia.
      * intros P Hacc Hp. apply HP; [|exact Hp].
        apply Forall_app. split; [exact Hacc|].
        destruct (Hcards pl eq_refl) as (cards & ->). apply Hp.
    + unfold ret. exists acc, w1, 1%nat. simpl.
      split; [reflexivity|]. split; [lia|]. try rewrite take_0.
      split; [exact T|]. split; [lia|]. split; [rewrite Er; lia|].
      split; [|auto]. exists n1. split; [exact Hs1|].
      intros Hall. rewrite (Ha1 Hall). reflexivity.
    + assert (Hh : exists m,
                 (match e with
                  | HTTPError code =>
                      bind (st_error (if code =? 403 then AccessForbidden
                                      else HttpErrorMessage code))
                        (fun _ => ret None)
                  | _ => bind (st_error ErrorMessage) (fun _ => ret None)
                  end) w1
                 = (Return (@None (option (list listing))),
                    snd (emit (StError m) w1))).
      { destruct e; eexists; reflexivity. }
      destruct Hh as (m & ->). unfold ret.
      exists acc, (snd (emit (StError m) w1)), 1%nat. simpl.
      split; [reflexivity|]. split; [lia|]. try rewrite take_0.
      rewrite requested_app, errors_app, Er, length_app. simpl.
      rewrite app_nil_r.
      split; [exact T|]. split; [lia|]. split; [lia|].
      split; [|auto]. exists n1.
      split; [exact (spent_emit w w1 (StError m) n1 Hs1)|].
      intros Hall. rewrite (Ha1 Hall). reflexivity.
Qed.

(** ** Enrichment, whatever the service answers *)

Lemma spent_same_service (w w1 w2 : world) (n : Z) :
  spent w w1 n -> same_service w1 w2 -> spent w w2 n.
Proof.
  intros H1 H2. replace n with (n + 0) by lia.
  exact (spent_then _ _ _ _ _ H1 (spent_here _ _ H2)).
Qed.

Lemma omap_cons_option {A B} (f : A -> option B) (x : A) (l : list A) :
  omap f (x :: l) = option_list (f x) ++ omap f l.
Proof.
  simpl. destruct (f x); reflexivity.
Qed.

Lemma Forall_of_sublist {A} (P : A -> Prop) (l1 l2 : list A) :
  sublist l1 l2 -> Forall P l2 -> Forall P l1.
Proof.
  induction 1 as [|x l1 l2 _ IH|x l1 l2 _ IH]; intros H.
  - constructor.
  - inversion H; subst. constructor; auto.
  - inversion H; subst. auto.
Qed.

Lemma scrape_listing_details_general (listing_url api_key : string)
    (w : world) :
  exists d w',
    scrape_listing_details listing_url api_key w = (Return d, w')
    /\ trace w' = trace w ++ [Requested listing_url]
    /\ requests w' = S (requests w)
    /\ (exists n, spent w w' n /\ (always_answered -> n = 1))
    /\ (forall v, det_sqft d = Some v -> 200 <= v <= 10000)
    /\ (forall v, det_taxes d = Some v -> 0 < v < 50000)
    /\ (forall v, det_fees d = Some v -> 0 < v < 20000)
    /\ (forall n, det_days_on_market d = Some n -> 1 <= n).
Proof.
  unfold scrape_listing_details, try_with, bind.
  destruct (scrape_with_scrapingbee_counts listing_url api_key w)
    as (o & w1 & -> & T & R & Hs).
  assert (Hn : exists n, spent w w1 n /\ (always_answered -> n = 1)).
  { destruct (server (requests w) api_key listing_url) as [r|] eqn:Er.
    - exists 1. split; [apply Hs|reflexivity].
    - exists 0. split; [apply Hs|]. intros Hall.
      specialize (Hall (requests w) api_key listing_url).
      rewrite Er in Hall. destruct Hall as [x Hx]. discriminate. }
  destruct Hn as (n & Hsp & Hall).
  destruct o as [response|e].
  - destruct (extract_details (combined_text_of (content response)) w1)
      as [[d|e] w2] eqn:Ee;
      pose proof (extract_details_trace _ _ _ _ Ee) as [T2 R2];
      pose proof (extract_details_same_service _ _ _ _ Ee) as SS.
    + destruct (extract_details_ranges _ _ _ _ Ee) as (P1 & P2 & P3 & P4).
      exists d, w2. split; [reflexivity|].
      split; [congruence|]. split; [congruence|].
      split; [exists n; split;
              [exact (spent_same_service _ _ _ _ Hsp SS)|exact Hall]|].
      split; [exact P1|]. split; [exact P2|]. split; [exact P3|].
      intros k Hk. apply (P4 k Hk).
    + exists empty_details, w2. split; [reflexivity|].
      split; [congruence|]. split; [congruence|].
      split; [exists n; split;
              [exact (spent_same_service _ _ _ _ Hsp SS)|exact Hall]|].
      conjuncts; discriminate.
  - exists empty_details, w1. split; [reflexivity|].
    split; [exact T|]. split; [exact R|].
    split; [exists n; split; [exact Hsp|exact Hall]|].
    conjuncts; discriminate.
Qed.

Lemma derive_days_on_market_general (l : listing) (w : world) :
  exists l' w',
    derive_days_on_market l w = (Return l', w')
    /\ sqft l' = sqft l /\ taxes l' = taxes l /\ fees l' = fees l
    /\ listing_date l' = listing_date l /\ same_identity l l'
    /\ (is_Some (listing_date l) \/ is_Some (days_on_market l) ->
        is_Some (days_on_market l'))
    /\ trace w' = trace w /\ same_service w w'.
Proof.
  unfold derive_days_on_market, same_identity, same_service.
  destruct (listing_date l) as [date|] eqn:Ed.
  - destruct (truthy_int (days_on_market l)) eqn:Et; simpl.
    + exists l, w. rewrite Ed. conjuncts; auto.
      intros _. destruct (days_on_market l);
        [eexists; reflexivity|discriminate].
    + unfold bind, now, ret. eexists _, _. split; [reflexivity|]. simpl.
      conjuncts; auto; try (intros _; eexists; reflexivity).
  - exists l, w. rewrite Ed. conjuncts; auto;
      try (intros [[x Hx]|H]; [discriminate|exact H]).
Qed.

(** One record of the enrichment loop. *)
Lemma enrich_listing_general (api_key : string) (total i : nat)
    (l : listing) (w : world) :
  exists l' w',
    enrich_listing api_key total i l w = (Return l', w')
    /\ same_identity l l'
    /\ requested (trace w')
       = requested (trace w) ++ option_list (url_key l)
    /\ errors (trace w') = errors (trace w)
    /\ requests w' = (requests w + length (option_list (url_key l)))%nat
    /\ (exists n,
          spent w w' n
          /\ (always_answered ->
              n = Z.of_nat (length (option_list (url_key l)))))
    /\ (well_formed l -> well_formed l').
Proof.
  unfold enrich_listing, url_key.
  destruct (nonempty (url l)) as [u|] eqn:Eu.
  - destruct (scrape_listing_details_general u api_key w)
      as (d & w1 & Hs & T1 & R1 & (n & Hsp & Hall) & P1 & P2 & P3 & P4).
    destruct (merge_details_fields d l) as (M1 & M2 & M3 & M4 & M5 & M6).
    { intros v Hv. apply P1 in Hv. lia. }
    { intros v Hv. apply P2 in Hv. lia. }
    { intros v Hv. apply P3 in Hv. lia. }
    { intros v Hv. apply P4 in Hv. lia. }
    destruct (derive_days_on_market_general (merge_details d l) w1)
      as (l2 & w2 & Hd & D1 & D2 & D3 & D4 & D5 & D6 & T2 & SS).
    unfold bind. rewrite Hs, Hd. simpl. eexists _, _.
    split; [reflexivity|]. simpl.
    split.
    { unfold same_identity in *. intuition congruence. }
    rewrite !requested_app, !errors_app, T2, T1, requested_app, errors_app.
    simpl. rewrite !app_nil_r.
    split; [reflexivity|]. split; [reflexivity|].
    split; [destruct SS as (_ & _ & ->); lia|].
    split.
    { exists n. split; [|exact Hall].
      pose proof (spent_same_service _ _ _ _ Hsp SS) as Hsp2.
      unfold spent in *. simpl. exact Hsp2. }
    unfold well_formed, identifiable.
    destruct M6 as (I1 & I2 & I3 & I4). destruct D5 as (J1 & J2 & J3 & J4).
    intros (W1 & W2 & W3 & W4 & W5 & W6 & W7).
    rewrite J1, J3, J4, I1, I3, I4, D1, D2, D3, M1, M2, M3.
    split; [exact W1|]. split; [exact W2|]. split; [exact W3|].
    split.
    { intros v Hv. destruct (det_sqft d) as [x|] eqn:Ex; [|exact (W4 v Hv)].
      injection Hv as <-. specialize (P1 x eq_refl). lia. }
    split.
    { intros v Hv. destruct (det_taxes d) as [x|] eqn:Ex; [|exact (W5 v Hv)].
      injection Hv as <-. specialize (P2 x eq_refl). lia. }
    split.
    { intros v Hv. destruct (det_fees d) as [x|] eqn:Ex; [|exact (W6 v Hv)].
      injection Hv as <-. specialize (P3 x eq_refl). lia. }
    intros H. apply D6. left. rewrite <- D4. exact H.
  - exists l, w. split; [reflexivity|]. simpl.
    rewrite !app_nil_r, Nat.add_0_r. unfold same_identity.
    conjuncts; auto.
    exists 0. split; [apply spent_here, same_service_refl|reflexivity].
Qed.

Arguments enrich_listing : simpl never.

(** The enrichment loop. *)
Lemma enrich_loop_general (api_key : string) (total : nat)
    (listings : list listing) (i : nat) (w : world) :
  exists listings' w',
    enrich_loop api_key total i listings w = (Return listings', w')
    /\ Forall2 same_identity listings listings'
    /\ requested (trace w')
       = requested (trace w) ++ omap url_key listings
    /\ errors (trace w') = errors (trace w)
    /\ requests w' = (requests w + length (omap url_key listings))%nat
    /\ (exists n,
          spent w w' n
          /\ (always_answered ->
              n = Z.of_nat (length (omap url_key listings))))
    /\ (Forall well_formed listings -> Forall well_formed listings').
Proof.
  revert i w. induction listings as [|l rest IH]; intros i w.
  - exists [], w. simpl. rewrite app_nil_r, Nat.add_0_r.
    conjuncts; auto.
    exists 0. split; [apply spent_here, same_service_refl|reflexivity].
  - destruct (enrich_listing_general api_key total i l w)
      as (l' & w1 & He & Hid & T1 & E1 & R1 & (n1 & Hs1 & Ha1) & W1).
    destruct (IH (S i) w1)
      as (rest' & w2 & Hr & Hall & T2 & E2 & R2 & (n2 & Hs2 & Ha2) & W2).
    cbn [enrich_loop]. unfold bind. rewrite He, Hr.
    exists (l' :: rest'), w2. rewrite omap_cons_option, length_app.
    split; [reflexivity|].
    split; [constructor; assumption|].
    split; [rewrite T2, T1, <- app_assoc; reflexivity|].
    split; [congruence|]. split; [lia|].
    split.
    + exists (n1 + n2). split; [exact (spent_then _ _ _ _ _ Hs1 Hs2)|].
      intros A. rewrite (Ha1 A), (Ha2 A). lia.
    + intros H. inversion H; subst. constructor; auto.
Qed.

Lemma same_identity_keys (l l' : list listing) :
  Forall2 same_identity l l' ->
  omap url_key l' = omap url_key l
  /\ omap address_key l' = omap address_key l.
Proof.
  induction 1 as [|x y l l' (A & _ & _ & U) _ [IHu IHa]].
  - split; reflexivity.
  - rewrite !omap_cons_option, IHu, IHa. unfold url_key, address_key.
    rewrite A, U. split; reflexivity.
Qed.

(** The whole run, whatever the service answers. *)
Lemma scrape_streeteasy_general (base api_key : string)
    (scrape_details : bool) (max_pages : Z) (w : world) :
  exists listings w' k,
    scrape_streeteasy base api_key scrape_details max_pages w
    = (Return listings, w')
    /\ (k <= length (page_numbers max_pages))%nat
    /\ requested (trace w')
       = requested (trace w)
         ++ map (page_url base) (take k (page_numbers max_pages))
         ++ (if scrape_details then omap url_key listings else [])
    /\ (length (errors (trace w')) <= S (length (errors (trace w))))%nat
    /\ (exists n,
          spent w w' n
          /\ (always_answered ->
              n = Z.of_nat (requests w') - Z.of_nat (requests w)))
    /\ Forall well_formed listings
    /\ NoDup (omap url_key listings)
    /\ NoDup (omap address_key listings)
    /\ (scrape_details = false ->
        Forall (fun l => listing_date l = None /\ days_on_market l = None)
          listings).
Proof.
  unfold scrape_streeteasy, bind.
  destruct (page_loop_general base api_key max_pages
              (page_numbers max_pages) [] w)
    as (ls & w1 & k & Hl & Hk & T1 & R1 & E1 & (n1 & Hs1 & Ha1) & HP).
  rewrite Hl.
  assert (Hcards : Forall (fun l => well_formed l /\ listing_date l = None
                                    /\ days_on_market l = None) ls).
  { apply HP; [constructor|apply parse_cards_well_formed]. }
  assert (Hsub : sublist (dedup ls) ls).
  { rewrite dedup_keep_first_occurrences.
    apply keep_first_occurrences_sublist. }
  pose proof (Forall_of_sublist _ _ _ Hsub Hcards) as Hd.
  assert (Hwf : Forall well_formed (dedup ls)).
  { eapply Forall_impl; [exact Hd|]. intros l H. apply H. }
  assert (Hkeys : NoDup (omap url_key (dedup ls))
                  /\ NoDup (omap address_key (dedup ls))).
  { rewrite dedup_keep_first_occurrences.
    apply keep_first_occurrences_keys. }
  destruct Hkeys as [Ku Ka].
  assert (Hplain : exists listings w' k,
             (Return (dedup ls), w1) = (Return listings, w')
             /\ (k <= length (page_numbers max_pages))%nat
             /\ requested (trace w')
                = requested (trace w)
                  ++ map (page_url base) (take k (page_numbers max_pages))
             /\ omap url_key listings = omap url_key (dedup ls)
             /\ (length (errors (trace w'))
                 <= S (length (errors (trace w))))%nat
             /\ (exists n,
                    spent w w' n
                    /\ (always_answered ->
                        n = Z.of_nat (requests w') - Z.of_nat (requests w)))
             /\ Forall well_formed listings
             /\ NoDup (omap url_key listings)
             /\ NoDup (omap address_key listings)
             /\ Forall (fun l => listing_date l = None
                                 /\ days_on_market l = None) listings).
  { exists (dedup ls), w1, k. conjuncts; auto.
    - exists n1. split; [exact Hs1|]. intros A. rewrite (Ha1 A). lia.
    - eapply Forall_impl; [exact Hd|]. intros l H. apply H. }
  destruct scrape_details; simpl.
  - destruct (bool_decide (dedup ls = [])) eqn:Eb; simpl.
    + destruct Hplain as (l0 & w0 & k0 & [= <- <-] & Q1 & Q2 & Q3 & Q4 & Q5
                          & Q6 & Q7 & Q8 & Q9).
      apply bool_decide_eq_true in Eb.
      exists (dedup ls), w1, k0. unfold ret. rewrite Eb in *. simpl.
      rewrite app_nil_r. conjuncts; auto.
    + match goal with
      | |- context [enrich_loop ?a ?b ?c ?d ?e] =>
          destruct (enrich_loop_general a b d c e)
            as (en & w2 & Hen & Hid & T2 & E2 & R2 & (n2 & Hs2 & Ha2) & W2)
      end.
      rewrite Hen. unfold ret.
      destruct (same_identity_keys _ _ Hid) as [Su Sa].
      exists en. eexists. exists k. split; [reflexivity|]. simpl.
      simpl in T2, E2, R2.
      rewrite !requested_app, !errors_app, T2, E2, !requested_app,
        !errors_app.
      simpl. rewrite !app_nil_r, Su, Sa.
      split; [exact Hk|].
      split; [rewrite T1, <- app_assoc; reflexivity|].
      split; [exact E1|].
      split.
      { exists (n1 + n2). split.
        - pose proof (spent_then _ _ _ _ _ Hs1 Hs2) as Hs3.
          unfold spent in *. simpl in *. exact Hs3.
        - intros A. rewrite (Ha1 A), (Ha2 A), R2. simpl. lia. }
      split; [exact (W2 Hwf)|]. split; [exact Ku|].
      split; [exact Ka|discriminate].
  - destruct Hplain as (l0 & w0 & k0 & [= <- <-] & Q1 & Q2 & Q3 & Q4 & Q5
                        & Q6 & Q7 & Q8 & Q9).
    exists (dedup ls), w1, k0. unfold ret. rewrite app_nil_r.
    conjuncts; auto.
Qed.

(** ** Runs of the page loop on answered pages *)








(** X18. Without pages to fetch nothing is requested: for [max_pages]
    of zero or less the run returns the empty list and leaves the world
    as it was, whether details are asked for or not. *)
Theorem no_pages_no_requests (base api_key : string) (scrape_details : bool)
    (max_pages : Z) (w : world) :
  max_pages <= 0 ->
  scrape_streeteasy base api_key scrape_details max_pages w = (Return [], w).
Proof.
  intros H. unfold scrape_streeteasy, page_numbers, bind.
  replace (seqZ 1 max_pages) with (@nil Z).
  - simpl. rewrite andb_false_r. reflexivity.
  - unfold seqZ. replace (Z.to_nat max_pages) with 0%nat by lia. reflexivity.
Qed.

(** ** What every run does *)

(** X11. Whatever the service answers, however often it fails,
    [scrape_streeteasy] returns a list and raises nothing, and it writes
    at most one error message.  (The clock, the pauses and the calls to
    the user interface are taken not to fail.) *)
Theorem scrape_streeteasy_never_raises (base api_key : string)
    (scrape_details : bool) (max_pages : Z) (w : world) :
  exists listings w',
    scrape_streeteasy base api_key scrape_details max_pages w
    = (Return listings, w')
    /\ (length (errors (trace w')) <= S (length (errors (trace w))))%nat.
Proof.
  destruct (scrape_streeteasy_general base api_key scrape_details max_pages w)
    as (ls & w' & k & H & _ & _ & E & _).
  exists ls, w'. split; [exact H|exact E].
Qed.

(** X12. The requests of a run are the first [k] result pages, in the
    order of their numbers, for some [k] up to [max_pages]; when details
    are asked for they are followed by one request for each returned
    record that has a URL, in the order of the result; nothing else is
    requested. *)
Theorem scrape_streeteasy_requests (base api_key : string)
    (scrape_details : bool) (max_pages : Z) (w : world) :
  exists listings w' k,
    scrape_streeteasy base api_key scrape_details max_pages w
    = (Return listings, w')
    /\ (k <= length (page_numbers max_pages))%nat
    /\ requested (trace w')
       = requested (trace w)
         ++ map (page_url base) (take k (page_numbers max_pages))
         ++ (if scrape_details then omap url_key listings else []).
Proof.
  destruct (scrape_streeteasy_general base api_key scrape_details max_pages w)
    as (ls & w' & k & H & Hk & T & _).
  exists ls, w', k. split; [exact H|]. split; [exact Hk|exact T].
Qed.

(** X13. Through a whole run the two session counters advance by the
    same amount, which is at most the number of requests sent, and is
    that number when every request gets an answer, whatever its
    status. *)
Theorem scrape_streeteasy_counters (base api_key : string)
    (scrape_details : bool) (max_pages : Z) (w : world) :
  exists listings w' n,
    scrape_streeteasy base api_key scrape_details max_pages w
    = (Return listings, w')
    /\ spent w w' n
    /\ (always_answered ->
        n = Z.of_nat (requests w') - Z.of_nat (requests w)).
Proof.
  destruct (scrape_streeteasy_general base api_key scrape_details max_pages w)
    as (ls & w' & k & H & _ & _ & _ & (n & Sp & Ha) & _).
  exists ls, w', n. split; [exact H|]. split; [exact Sp|exact Ha].
Qed.

(** X14. Every record of a result has a URL or an address, its URL is
    never the empty string, its numbers are not negative, and a record
    with a listing date has a days-on-market count; no two records share
    a URL, and no two records without URL share an address.  Without
    details no record has a listing date or a days-on-market count. *)
Theorem scrape_streeteasy_result (base api_key : string)
    (scrape_details : bool) (max_pages : Z) (w : world) :
  exists listings w',
    scrape_streeteasy base api_key scrape_details max_pages w
    = (Return listings, w')
    /\ Forall well_formed listings
    /\ NoDup (omap url_key listings)
    /\ NoDup (omap address_key listings)
    /\ (scrape_details = false ->
        Forall (fun l => listing_date l = None /\ days_on_market l = None)
          listings).
Proof.
  destruct (scrape_streeteasy_general base api_key scrape_details max_pages w)
    as (ls & w' & k & H & _ & _ & _ & _ & W & Ku & Ka & D).
  exists ls, w'. split; [exact H|]. split; [exact W|].
  split; [exact Ku|]. split; [exact Ka|exact D].
Qed.

(** X19. An answered request is counted before its status is looked at:
    it adds one call and one credit (five with JavaScript rendering),
    starting from zero when a counter is not there yet, also when the
    answer is an HTTP error, which is then raised.  A request without
    answer is not counted. *)
Theorem answered_requests_are_counted (target api_key : string)
    (render_js : bool) (w : world) :
  exists o w',
    scrape_with_scrapingbee target api_key render_js w = (o, w')
    /\ match server (requests w) api_key target with
       | Some r =>
           api_calls w' = Some (default 0 (api_calls w) + 1)
           /\ api_credits w'
              = Some (default 0 (api_credits w)
                      + (if render_js then 5 else 1))
           /\ o = (if http_error r then Raise (HTTPError (status_code r))
                   else Return r)
       | None =>
           api_calls w' = api_calls w /\ api_credits w' = api_credits w
           /\ o = Raise OtherError
       end.
Proof.
  unfold scrape_with_scrapingbee, bind, requests_get, count_call, lift, ret,
    raise_for_status, http_error.
  destruct (server (requests w) api_key target) as [r|].
  - destruct ((400 <=? status_code r) && (status_code r <? 600));
      eexists _, _; (split; [reflexivity|]); simpl; auto.
  - eexists _, _. split; [reflexivity|]. simpl. auto.
Qed.

(** ** The trace of enrichment *)

Lemma enrich_listing_events (api_key : string) (total i : nat)
    (l : listing) (w : world) :
  exists l' w',
    enrich_listing api_key total i l w = (Return l', w')
    /\ same_identity l l'
    /\ trace w' = trace w ++ enrichment_events total i l.
Proof.
  unfold enrich_listing, enrichment_events, url_key.
  destruct (nonempty (url l)) as [u|] eqn:Eu.
  - destruct (scrape_listing_details_general u api_key w)
      as (d & w1 & Hs & T1 & _ & _ & P1 & P2 & P3 & P4).
    destruct (merge_details_fields d l) as (_ & _ & _ & _ & _ & M6).
    { intros v Hv. apply P1 in Hv. lia. }
    { intros v Hv. apply P2 in Hv. lia. }
    { intros v Hv. apply P3 in Hv. lia. }
    { intros v Hv. apply P4 in Hv. lia. }
    destruct (derive_days_on_market_general (merge_details d l) w1)
      as (l2 & w2 & Hd & _ & _ & _ & _ & D5 & _ & T2 & _).
    unfold bind. rewrite Hs, Hd. simpl. eexists _, _.
    split; [reflexivity|]. simpl. split.
    + unfold same_identity in *. intuition congruence.
    + rewrite T2, T1, <- !app_assoc. reflexivity.
  - exists l, w. split; [reflexivity|]. rewrite app_nil_r.
    unfold same_identity. auto.
Qed.

Lemma enrichment_events_same (total i : nat) (l l' : listing) :
  same_identity l l' ->
  enrichment_events total i l' = enrichment_events total i l.
Proof.
  intros (_ & _ & _ & U). unfold enrichment_events, url_key. now rewrite U.
Qed.

Lemma enrich_loop_events (api_key : string) (total : nat)
    (listings : list listing) (i : nat) (w : world) :
  exists listings' w',
    enrich_loop api_key total i listings w = (Return listings', w')
    /\ trace w'
       = trace w
         ++ concat (imap (fun j => enrichment_events total (i + j))
                      listings').
Proof.
  revert i w. induction listings as [|l rest IH]; intros i w.
  - exists [], w. simpl. now rewrite app_nil_r.
  - destruct (enrich_listing_events api_key total i l w)
      as (l' & w1 & He & Hid & T1).
    destruct (IH (S i) w1) as (rest' & w2 & Hr & T2).
    cbn [enrich_loop]. unfold bind. rewrite He, Hr.
    exists (l' :: rest'), w2. split; [reflexivity|].
    rewrite T2, T1, <- app_assoc. cbn [imap concat].
    rewrite Nat.add_0_r, (enrichment_events_same total i l l' Hid).
    do 3 f_equal. apply imap_ext. intros j x _. simpl. f_equal. lia.
Qed.

(** X22. The effects of enrichment, in order: the progress bar is
    started with the number of records; then, for each returned record
    that has a URL, in the order of the result, come the request for its
    detail page, the progress update (i + 1 of n for the record at index
    i) and a pause of one second; records without URL leave no trace;
    at the end the progress bar is emptied.  With an empty result, or
    without details, nothing follows the page loop. *)
Theorem enrichment_trace (base api_key : string) (scrape_details : bool)
    (max_pages : Z) (w : world) :
  exists all_listings w1 listings w',
    page_loop base api_key max_pages (page_numbers max_pages) [] w
    = (Return all_listings, w1)
    /\ scrape_streeteasy base api_key scrape_details max_pages w
       = (Return listings, w')
    /\ trace w'
       = trace w1
         ++ if scrape_details && negb (bool_decide (listings = []))
            then ProgressStart (length listings)
                 :: concat (imap (enrichment_events (length listings))
                              listings)
                 ++ [ProgressEmpty]
            else [].
Proof.
  destruct (page_loop_general base api_key max_pages
              (page_numbers max_pages) [] w)
    as (ls & w1 & k & Hl & _).
  unfold scrape_streeteasy, bind. rewrite Hl.
  destruct scrape_details; cbn [andb].
  - destruct (bool_decide (dedup ls = [])) eqn:Eb; cbn [negb].
    + exists ls, w1, (dedup ls), w1. rewrite Eb, app_nil_r. auto.
    + cbn [emit].
      match goal with
      | |- context [enrich_loop ?a ?b ?c ?d ?e] =>
          destruct (enrich_loop_events a b d c e)
            as (en & w2 & Hen & T2);
          destruct (enrich_loop_general a b d c e)
            as (en' & w2' & Hen' & Hid & _)
      end.
      rewrite Hen in Hen'. injection Hen' as <- <-.
      rewrite Hen. unfold ret.
      assert (Hlen : length en = length (dedup ls)).
      { symmetry. exact (Forall2_length _ _ _ Hid). }
      assert (Hne : bool_decide (en = []) = false).
      { apply bool_decide_eq_false. intros ->.
        apply bool_decide_eq_false in Eb. apply Eb.
        destruct (dedup ls); [reflexivity|discriminate Hlen]. }
      exists ls, w1, en. eexists. split; [reflexivity|].
      split; [reflexivity|]. rewrite Hne, Hlen. cbn [negb trace snd emit].
      simpl in T2. rewrite T2, <- !app_assoc. reflexivity.
  - exists ls, w1, (dedup ls), w1. rewrite app_nil_r. auto.
Qed.


End Scraper.

(** * The properties at work on the sample collaborators *)

Lemma dedup_first_occurrence_witness :
  dedup [Sample.with_url "u" "A"; Sample.with_url "u" "B"]
  = [Sample.with_url "u" "A"]
  /\ dedup [Sample.with_url "u" "A"; Sample.without_url "C";
            Sample.with_url "u" "B"; Sample.without_url "D"]
     = dedup [Sample.with_url "u" "A"; Sample.without_url "C";
              Sample.without_url "D"]
  /\ nonempty (url (Sample.without_url "A")) = None.
Proof.
  split; [|split].
  - apply (proj1 (proj2 (proj2 dedup_first_occurrence))).
    + discriminate.
    + reflexivity.
  - apply (proj1 (proj2 dedup_first_occurrence)
             [] (Sample.with_url "u" "A") [Sample.without_url "C"]
             (Sample.with_url "u" "B") [Sample.without_url "D"]).
    + discriminate.
    + reflexivity.
  - apply (proj2 (proj2 (proj2 (proj2 dedup_first_occurrence)))
             (Sample.without_url "A")
             (set_url (Some ""%string) (Sample.without_url "A"))).
    + reflexivity.
    + discriminate.
    + reflexivity.
    + vm_compute. reflexivity.
Defined.

Lemma sqft_plausibility_witness : 200 <= 1200 <= 10000.
Proof.
  apply (proj1 sqft_plausibility "1,200 sq ft"%string 1200).
  vm_compute. reflexivity.
Defined.

(** C4, the claim as stated fails on card text: "3 sqft" is below the
    lower bound of 200, and the card cascade and the card parser still
    give the value 3.  Nor is every text that contains "3 sqft" without
    a value on the detail page: in "1203 sqft" the digits before it
    belong to the number. *)
Lemma card_sqft_below_range_not_absent :
  Card.sqft "3 sqft" = Return (Some 3)
  /\ sqft <$> parse_cards Sample.Card Sample.Tag Sample.find Sample.get_href
               Sample.card_get_text Sample.tag_get_text ["3 sqft"%string]
     = [Some 3]
  /\ Detail.sqft "1203 sqft" = Return (Some 1203).
Proof.
  repeat split; vm_compute; reflexivity.
Defined.

Lemma calculate_listing_date_from_days_spec_witness :
  fst (calculate_listing_date_from_days Sample.clock (Some 30) initial_world)
  = Return (Some (Sample.clock 0 - 30 * usec_per_day))
  /\ calculate_listing_date_from_days Sample.clock (Some (-5)) initial_world
     = (Return None, initial_world).
Proof.
  split.
  - apply (proj1 (proj2 (proj2
             (calculate_listing_date_from_days_spec Sample.clock
                initial_world)))).
    + lia.
    + unfold datetime_ok. vm_compute. split; [discriminate|reflexivity].
    + vm_compute. discriminate.
  - apply (proj1 (proj2
             (calculate_listing_date_from_days_spec Sample.clock
                initial_world))).
    lia.
Defined.

(** C3, the claim as stated fails for a large count: a million days
    before 2026 there is no representable date, and the answer is
    absent although the count is not negative. *)
Lemma calculate_listing_date_out_of_range :
  fst (calculate_listing_date_from_days Sample.clock (Some 1000000)
         initial_world)
  = Return None.
Proof.
  vm_compute. reflexivity.
Defined.

Lemma days_round_trip_spec_witness :
  fst (days_round_trip Sample.clock 30 initial_world) = Return (Some 30).
Proof.
  apply days_round_trip_spec.
  - lia.
  - unfold datetime_ok. vm_compute. split; [discriminate|reflexivity].
  - vm_compute. discriminate.
  - vm_compute. split; [discriminate|reflexivity].
Defined.

(** C2, the claim as stated fails for a large count: no date is
    calculated from 800000 days, so no count comes back. *)
Lemma days_round_trip_out_of_range :
  fst (days_round_trip Sample.clock 800000 initial_world) = Return None.
Proof.
  vm_compute. reflexivity.
Defined.

Lemma parse_listing_date_spec_witness :
  parse_listing_date Sample.strptime (Some " 2024-01-15 "%string)
  = Return (Some Sample.jan_15_2024)
  /\ parse_listing_date Sample.strptime (Some "next week"%string)
     = Return None.
Proof.
  split.
  - apply (proj1 (proj2 (proj2 (proj2
             (parse_listing_date_spec Sample.strptime
                (Some " 2024-01-15 "%string)))))
             " 2024-01-15 "%string ["%m/%d/%Y"; "%m-%d-%Y"]%string
             "%Y-%m-%d"%string ["%B %d, %Y"; "%b %d, %Y"]%string).
    + reflexivity.
    + reflexivity.
    + reflexivity.
    + repeat constructor.
    + vm_compute. reflexivity.
  - apply (proj1 (proj2 (proj2 (proj2 (proj2
             (parse_listing_date_spec Sample.strptime
                (Some "next week"%string))))))
             "next week"%string).
    + reflexivity.
    + repeat constructor; eexists; vm_compute; reflexivity.
Defined.



Lemma parse_cards_identifiable_witness :
  parse_cards Sample.Card Sample.Tag Sample.find_nothing Sample.get_href
    Sample.card_get_text Sample.tag_get_text ["no link, no address"%string]
  = [].
Proof.
  apply (proj2 (parse_cards_identifiable Sample.Card Sample.Tag
                  Sample.find_nothing Sample.get_href Sample.card_get_text
                  Sample.tag_get_text [])).
  intros l H. vm_compute in H. injection H as <-. reflexivity.
Defined.


Lemma enrichment_frame_witness :
  exists l' w',
    enrich_listing Sample.Html Sample.server Sample.clock Sample.strptime
      Sample.get_text Sample.detail_sections "key" 1 0
      (Sample.without_url "A") initial_world
    = (Return l', w')
    /\ l' = Sample.without_url "A" /\ w' = initial_world.
Proof.
  destruct (proj1 (enrichment_frame Sample.Html Sample.server Sample.clock
                     Sample.strptime Sample.get_text Sample.detail_sections
                     "key" 1%nat 0%nat initial_world)
              (Sample.without_url "A"))
    as (l' & w' & H & _ & _ & _ & _ & Hn).
  exists l', w'. split; [exact H|]. apply Hn. reflexivity.
Defined.


(** * Further properties of the pure part *)

(** ** extract_number on any text *)

Lemma re_match_rep {R} (lo : nat) (hi : option nat) (r1 : regex) (ci : bool)
    (prev : option ascii) (s : chars) (c : captures)
    (k : option ascii -> chars -> captures -> option R) :
  re_match (RRep lo hi r1) ci prev s c k
  = rep_loop lo hi r1 ci k (length s) 0 prev s c.
Proof.
  reflexivity.
Qed.

Lemma compile_digits : re_compile "\d+" = Some digits_regex.
Proof.
  vm_compute. reflexivity.
Qed.

Lemma digits_loop {R} (k : option ascii -> chars -> captures -> option R)
    (ds rest : chars) (x : R) :
  Forall (fun d => is_digit d = true) ds ->
  match rest with [] => True | y :: _ => is_digit y = false end ->
  forall fuel cnt prev c,
    (length (ds ++ rest) <= fuel)%nat -> (1 <= cnt + length ds)%nat ->
    k (run_end prev ds) rest c = Some x ->
    rep_loop 1 None (RSet [CDigit]) false k fuel cnt prev (ds ++ rest) c
    = Some x.
Proof.
  intros Hd Hr.
  induction Hd as [|d ds Hdig _ IH]; intros fuel cnt prev c Hf Hc Hk.
  - simpl in *.
    assert (stop : (if (1 <=? cnt)%nat then k prev rest c else None)
                   = Some x).
    { destruct (Nat.leb_spec 1 cnt); [exact Hk|lia]. }
    destruct fuel as [|fuel]; simpl; [exact stop|].
    destruct rest as [|y rest]; simpl; [exact stop|].
    unfold in_set. simpl. rewrite Hr. simpl. exact stop.
  - destruct fuel as [|fuel]; [simpl in Hf; lia|].
    cbn [rep_loop app may_repeat re_match]. unfold in_set.
    cbn [existsb in_item].
    rewrite Hdig. cbn [orb].
    replace (length (ds ++ rest) <? length (d :: ds ++ rest))%nat with true
      by (symmetry; apply Nat.ltb_lt; simpl; lia).
    rewrite (IH fuel (S cnt) (Some d) c);
      [reflexivity|simpl in Hf; lia|lia|].
    unfold run_end in *. rewrite last_cons in Hk. destruct (last ds); exact Hk.
Qed.

Lemma take_run (ds rest : chars) :
  take (length (ds ++ rest) - length rest) (ds ++ rest) = ds.
Proof.
  rewrite length_app. replace (length ds + length rest - length rest)%nat
    with (length ds) by lia.
  now rewrite take_app_length.
Qed.

Lemma match_here_digits (prev : option ascii) (ds rest : chars) :
  ds <> [] -> Forall (fun d => is_digit d = true) ds ->
  match rest with [] => True | y :: _ => is_digit y = false end ->
  match_here digits_regex false prev (ds ++ rest)
  = Some {| group0 := string_of_list_ascii ds; groups := [] |}.
Proof.
  intros Hne Hd Hr. unfold match_here, digits_regex.
  change (re_match (RSeq ?a ?b) ?ci ?p ?s ?c ?k)
    with (re_match a ci p s c (fun p' s' c' => re_match b ci p' s' c' k)).
  rewrite re_match_rep.
  apply digits_loop; [exact Hd|exact Hr|lia| |].
  - destruct ds; [congruence|simpl; lia].
  - cbn [re_match]. now rewrite take_run.
Qed.

Lemma match_here_no_digit (prev : option ascii) (s : chars) :
  match s with [] => True | y :: _ => is_digit y = false end ->
  match_here digits_regex false prev s = None.
Proof.
  intros H. unfold match_here, digits_regex.
  change (re_match (RSeq ?a ?b) ?ci ?p ?s ?c ?k)
    with (re_match a ci p s c (fun p' s' c' => re_match b ci p' s' c' k)).
  rewrite re_match_rep. destruct s as [|y s]; [reflexivity|].
  cbn [length rep_loop may_repeat re_match]. unfold in_set.
  cbn [existsb in_item]. rewrite H. reflexivity.
Qed.

Lemma search_from_no_digit (prev : option ascii) (s : chars) :
  Forall (fun c => is_digit c = false) s ->
  search_from digits_regex false prev s = None.
Proof.
  intros H. revert prev. induction H as [|y s Hy _ IH]; intros prev.
  - reflexivity.
  - cbn [search_from]. rewrite match_here_no_digit by exact Hy. apply IH.
Qed.

Lemma search_from_digits (prev : option ascii) (pre ds rest : chars) :
  Forall (fun c => is_digit c = false) pre ->
  ds <> [] -> Forall (fun d => is_digit d = true) ds ->
  match rest with [] => True | y :: _ => is_digit y = false end ->
  search_from digits_regex false prev (pre ++ ds ++ rest)
  = Some {| group0 := string_of_list_ascii ds; groups := [] |}.
Proof.
  intros Hp Hne Hd Hr. revert prev.
  induction Hp as [|y s Hy _ IH]; intros prev.
  - cbn [app]. destruct ds as [|d ds]; [congruence|].
    cbn [app search_from].
    change (d :: ds ++ rest) with ((d :: ds) ++ rest).
    now rewrite match_here_digits.
  - cbn [app search_from]. rewrite match_here_no_digit by exact Hy. apply IH.
Qed.

Lemma re_search_digits (text : string) :
  re_search "\d+" text NoFlags
  = search_from digits_regex false None (list_ascii_of_string text).
Proof.
  unfold re_search. rewrite compile_digits. reflexivity.
Qed.

Lemma nonempty_text_is_true (t : string) :
  t <> ""%string -> falsy_str (Some t) = false.
Proof.
  intros Ht. unfold falsy_str, truthy_str.
  destruct (String.eqb_spec t ""); [congruence|reflexivity].
Qed.

Lemma extract_number_of_run (t : string) (pre ds rest : chars) :
  t <> ""%string ->
  list_ascii_of_string
    (strip (replace "/month" "" (replace "/mo" ""
              (replace "," "" (replace "$" "" t)))))
  = (pre ++ ds ++ rest)%list ->
  Forall (fun c => is_digit c = false) pre ->
  ds <> [] -> Forall (fun d => is_digit d = true) ds ->
  match rest with [] => True | y :: _ => is_digit y = false end ->
  extract_number (Some t)
  = obind (int_of_str ds) (fun v => Return (Some v)).
Proof.
  intros Ht Hc Hp Hne Hd Hr. unfold extract_number.
  rewrite (nonempty_text_is_true t Ht), re_search_digits, Hc.
  rewrite (search_from_digits None pre ds rest Hp Hne Hd Hr).
  cbn [group0]. now rewrite list_ascii_of_string_of_list_ascii.
Qed.

(** X20. On text of code points below 256, [extract_number] reads the
    leftmost maximal run of digits of the cleaned text, the text without
    its [$], [,], [/mo] and [/month] and without the white space around
    it: whatever stands before the run and after it is ignored, so a
    decimal part or a second number is dropped.  A run of up to 4300
    digits gives its number; a longer one makes [int] raise ValueError.
    The result is absent when the cleaned text has no digit. *)
Theorem extract_number_first_run (t : string) :
  t <> ""%string ->
  let cleaned :=
    list_ascii_of_string
      (strip (replace "/month" "" (replace "/mo" ""
                (replace "," "" (replace "$" "" t))))) in
  (forall pre ds rest,
      cleaned = (pre ++ ds ++ rest)%list ->
      Forall (fun c => is_digit c = false) pre ->
      ds <> [] -> Forall (fun d => is_digit d = true) ds ->
      match rest with [] => True | y :: _ => is_digit y = false end ->
      (Z.of_nat (length ds) <= int_max_str_digits ->
       extract_number (Some t) = Return (Some (int_of_digits ds)))
      /\ (int_max_str_digits < Z.of_nat (length ds) ->
          extract_number (Some t) = Raise ValueError))
  /\ (Forall (fun c => is_digit c = false) cleaned ->
      extract_number (Some t) = Return None).
Proof.
  intros Ht cleaned. split.
  - intros pre ds rest Hc Hp Hne Hd Hr.
    rewrite (extract_number_of_run t pre ds rest Ht Hc Hp Hne Hd Hr).
    split; intros Hlen.
    + now rewrite (int_of_str_short ds Hlen).
    + now rewrite (int_of_str_long ds Hlen).
  - intros Hn. unfold extract_number.
    rewrite (nonempty_text_is_true t Ht), re_search_digits. fold cleaned.
    now rewrite (search_from_no_digit None cleaned Hn).
Qed.

Lemma replace_go_char (a : ascii) (s : chars) :
  replace_go [a] [] 0 s = List.filter (fun c => negb (chr_eqb a c)) s.
Proof.
  induction s as [|c s IH]; [reflexivity|].
  cbn [replace_go is_prefix length List.filter]. rewrite andb_true_r.
  destruct (chr_eqb a c); cbn [negb Nat.sub app]; [exact IH|].
  rewrite IH. reflexivity.
Qed.

Lemma replace_go_absent (a : ascii) (old new s : chars) :
  Forall (fun c => chr_eqb a c = false) s ->
  replace_go (a :: old) new 0 s = s.
Proof.
  induction 1 as [|c s Hc _ IH]; [reflexivity|].
  cbn [replace_go is_prefix]. rewrite Hc. cbn [andb]. now rewrite IH.
Qed.

Lemma digit_not_special (d : ascii) :
  is_digit d = true ->
  is_space d = false /\ chr_eqb "$" d = false /\ chr_eqb "," d = false
  /\ chr_eqb "/" d = false.
Proof.
  destruct d as [[] [] [] [] [] [] [] []]; intros H; try discriminate H;
    repeat split; reflexivity.
Qed.

Lemma lstrip_digits (s : chars) :
  match s with [] => True | d :: _ => is_digit d = true end -> lstrip s = s.
Proof.
  destruct s as [|d s]; [reflexivity|]. intros H. cbn [lstrip].
  now rewrite (proj1 (digit_not_special d H)).
Qed.

Lemma strip_digits (ds : chars) :
  Forall (fun d => is_digit d = true) ds ->
  strip (string_of_list_ascii ds) = string_of_list_ascii ds.
Proof.
  intros H. unfold strip. rewrite list_ascii_of_string_of_list_ascii.
  rewrite (lstrip_digits ds) by (destruct H; auto).
  rewrite (lstrip_digits (rev ds)).
  - now rewrite rev_involutive.
  - apply Forall_rev in H. destruct H; auto.
Qed.

Lemma amount_digits (cs : chars) :
  Forall (fun c => is_digit c = true \/ c = "$"%char \/ c = ","%char) cs ->
  List.filter (fun c => negb (chr_eqb "," c))
    (List.filter (fun c => negb (chr_eqb "$" c)) cs)
  = List.filter is_digit cs.
Proof.
  induction 1 as [|c cs Hc _ IH]; [reflexivity|].
  destruct Hc as [Hd | [-> | ->]].
  - destruct (digit_not_special c Hd) as (_ & H1 & H2 & _).
    cbn [List.filter]. rewrite H1. cbn [negb List.filter]. rewrite H2, Hd.
    cbn [negb]. now rewrite IH.
  - exact IH.
  - exact IH.
Qed.

Lemma replace_char (a : ascii) (s : string) :
  replace (String a "") "" s
  = string_of_list_ascii
      (List.filter (fun c => negb (chr_eqb a c)) (list_ascii_of_string s)).
Proof.
  unfold replace. cbn [list_ascii_of_string]. now rewrite replace_go_char.
Qed.

Lemma replace_absent (a : ascii) (old new : string) (ds : chars) :
  Forall (fun c => chr_eqb a c = false) ds ->
  replace (String a old) new (string_of_list_ascii ds)
  = string_of_list_ascii ds.
Proof.
  intros H. unfold replace. cbn [list_ascii_of_string].
  rewrite list_ascii_of_string_of_list_ascii. now rewrite replace_go_absent.
Qed.

(** X21. On an amount of code points below 256 written with digits,
    dollar signs and thousands separators only, [extract_number] gives
    the number made of all its digits when there are at most 4300 of
    them, and raises ValueError when there are more. *)
Theorem extract_number_amount (s : string) :
  let cs := list_ascii_of_string s in
  Forall (fun c => is_digit c = true \/ c = "$"%char \/ c = ","%char) cs ->
  Exists (fun c => is_digit c = true) cs ->
  let ds := List.filter is_digit cs in
  (Z.of_nat (length ds) <= int_max_str_digits ->
   extract_number (Some s) = Return (Some (int_of_digits ds)))
  /\ (int_max_str_digits < Z.of_nat (length ds) ->
      extract_number (Some s) = Raise ValueError).
Proof.
  intros cs Hall Hex ds.
  assert (Hne : s <> ""%string).
  { intros ->. inversion Hex. }
  assert (Hds : Forall (fun d => is_digit d = true) ds).
  { apply List.Forall_forall. intros d Hd. apply filter_In in Hd. apply Hd. }
  assert (Hnn : ds <> []).
  { apply List.Exists_exists in Hex. destruct Hex as (d & Hin & Hd).
    intros E. assert (Hi : In d ds) by (apply filter_In; split; assumption).
    rewrite E in Hi. destruct Hi. }
  assert (Hslash : Forall (fun c => chr_eqb "/" c = false) ds).
  { eapply Forall_impl; [exact Hds|]. intros d Hd.
    apply (digit_not_special d Hd). }
  assert (E : extract_number (Some s)
              = obind (int_of_str ds) (fun v => Return (Some v))).
  { apply (extract_number_of_run s [] ds [] Hne); auto.
    rewrite (replace_char "$" s), (replace_char ","),
      list_ascii_of_string_of_list_ascii.
    fold cs. rewrite (amount_digits cs Hall). fold ds.
    rewrite (replace_absent "/" "mo" "" ds Hslash).
    rewrite (replace_absent "/" "month" "" ds Hslash).
    rewrite (strip_digits ds Hds), list_ascii_of_string_of_list_ascii.
    now rewrite app_nil_r. }
  rewrite E. split; intros Hlen.
  - now rewrite (int_of_str_short ds Hlen).
  - now rewrite (int_of_str_long ds Hlen).
Qed.

(** ** The search URL *)

Lemma list_ascii_of_string_app (a b : string) :
  list_ascii_of_string (a ++ b)
  = (list_ascii_of_string a ++ list_ascii_of_string b)%list.
Proof.
  induction a as [|c a IH]; simpl; [reflexivity|]. now rewrite IH.
Qed.

Lemma chr_eqb_refl (c : ascii) : chr_eqb c c = true.
Proof.
  unfold chr_eqb. apply Nat.eqb_refl.
Qed.

Lemma is_prefix_app (p rest : chars) : is_prefix p (p ++ rest) = true.
Proof.
  induction p as [|c p IH]; simpl; [reflexivity|].
  now rewrite chr_eqb_refl, IH.
Qed.

Lemma contains_go_app (p s1 s2 : chars) :
  is_prefix p s2 = true -> contains_go p (s1 ++ s2) = true.
Proof.
  intros H. induction s1 as [|c s1 IH]; simpl.
  - destruct s2; simpl in *; now rewrite H.
  - rewrite IH. apply orb_true_r.
Qed.

Lemma contains_question_mark (a b : string) :
  contains "?" (a ++ String "?" b) = true.
Proof.
  unfold contains. rewrite list_ascii_of_string_app.
  apply contains_go_app. reflexivity.
Qed.

Lemma dict_get_in (name : string) (items : list (string * Z)) (v : Z) :
  dict_get name items = Some v -> In (name, v) items.
Proof.
  induction items as [|[k w] rest IH]; simpl; [discriminate|].
  destruct (String.eqb_spec k name) as [->|_].
  - intros [= ->]. now left.
  - intros H. right. now apply IH.
Qed.

Lemma search_filters_area (PROPERTY_TYPE_CODES : gmap string string)
    (AREA_IDS : list (string * Z)) (max_price : option Z)
    (property_type : string) (max_taxes max_fees : option Z)
    (neighborhoods : option (list string)) (min_sqft : option Z) :
  exists before after,
    search_filters PROPERTY_TYPE_CODES AREA_IDS max_price property_type
      max_taxes max_fees neighborhoods min_sqft
    = before
      ++ (match get_area_ids AREA_IDS neighborhoods with
          | [] => "area:101"
          | ids => "area:" ++ join_with "," (map str_of_int ids)
          end)%string :: after.
Proof.
  unfold search_filters.
  exists (match nonempty (PROPERTY_TYPE_CODES !! property_type) with
          | Some type_code => [("type:" ++ type_code)%string]
          | None => []
          end ++ limit_filter "price:-" max_price
          ++ limit_filter "sqft>=" min_sqft),
    (limit_filter "maintenance<=" max_fees
     ++ limit_filter "taxes<=" max_taxes).
  rewrite <- (app_assoc _ (limit_filter "price:-" max_price ++ _)).
  rewrite <- (app_assoc (limit_filter "price:-" max_price)).
  do 3 f_equal. destruct (get_area_ids AREA_IDS neighborhoods); reflexivity.
Qed.

(** X3. The search URL is never the bare base address: the filter list
    always holds an area filter (the chosen area numbers joined by
    commas, or 101 when there is none), so the URL is the base, a slash,
    the filters joined by bars, and the sort order. *)
Theorem build_search_url_has_area (PROPERTY_TYPE_CODES : gmap string string)
    (AREA_IDS : list (string * Z)) (max_price : option Z)
    (property_type : string) (max_taxes max_fees : option Z)
    (neighborhoods : option (list string)) (min_sqft : option Z) :
  let filters :=
    search_filters PROPERTY_TYPE_CODES AREA_IDS max_price property_type
      max_taxes max_fees neighborhoods min_sqft in
  build_search_url PROPERTY_TYPE_CODES AREA_IDS max_price property_type
    max_taxes max_fees neighborhoods min_sqft
  = ((base_url ++ "/" ++ join_with "|" filters) ++ "?sort_by=listed_desc")%string
  /\ In (match get_area_ids AREA_IDS neighborhoods with
         | [] => "area:101"
         | ids => "area:" ++ join_with "," (map str_of_int ids)
         end)%string filters.
Proof.
  intros filters. subst filters.
  destruct (search_filters_area PROPERTY_TYPE_CODES AREA_IDS max_price
              property_type max_taxes max_fees neighborhoods min_sqft)
    as (before & after & E).
  unfold build_search_url. rewrite E. split.
  - destruct before; reflexivity.
  - apply in_elt.
Qed.

(** X4. The search URL always carries a query string, so every page of
    the crawl is asked for with [&page=N] appended to it. *)
Theorem page_url_of_search_url (PROPERTY_TYPE_CODES : gmap string string)
    (AREA_IDS : list (string * Z)) (max_price : option Z)
    (property_type : string) (max_taxes max_fees : option Z)
    (neighborhoods : option (list string)) (min_sqft : option Z)
    (page_num : Z) :
  let search_url :=
    build_search_url PROPERTY_TYPE_CODES AREA_IDS max_price property_type
      max_taxes max_fees neighborhoods min_sqft in
  page_url search_url page_num
  = (search_url ++ "&page=" ++ str_of_int page_num)%string.
Proof.
  intros search_url. unfold page_url.
  assert (H : contains "?" search_url = true).
  { subst search_url. unfold build_search_url.
    apply (contains_question_mark _ "sort_by=listed_desc"). }
  now rewrite H.
Qed.

Lemma limit_filter_off (prefix : string) (limit : option Z) :
  match limit with Some v => v <= 0 | None => True end ->
  limit_filter prefix limit = [].
Proof.
  destruct limit as [v|]; [|reflexivity]. intros H.
  unfold limit_filter, positive_limit, truthy_int.
  destruct (Z.eqb_spec v 0); [reflexivity|].
  destruct (Z.ltb_spec 0 v); [lia|reflexivity].
Qed.

Lemma limit_filter_on (prefix : string) (v : Z) :
  0 < v -> limit_filter prefix (Some v) = [(prefix ++ str_of_int v)%string].
Proof.
  intros H. unfold limit_filter, positive_limit, truthy_int.
  destruct (Z.eqb_spec v 0); [lia|].
  destruct (Z.ltb_spec 0 v); [reflexivity|lia].
Qed.

(** X5. A limit that is missing, zero or negative puts no filter in the
    search URL: the URL is the one built without that limit.  A positive
    limit puts its filter in. *)
Theorem limits_and_filters (PROPERTY_TYPE_CODES : gmap string string)
    (AREA_IDS : list (string * Z)) (property_type : string)
    (neighborhoods : option (list string))
    (max_price max_taxes max_fees min_sqft : option Z) :
  let off (limit : option Z) :=
    match limit with Some v => v <= 0 | None => True end in
  (off max_price ->
   build_search_url PROPERTY_TYPE_CODES AREA_IDS max_price property_type
     max_taxes max_fees neighborhoods min_sqft
   = build_search_url PROPERTY_TYPE_CODES AREA_IDS None property_type
       max_taxes max_fees neighborhoods min_sqft)
  /\ (off min_sqft ->
      build_search_url PROPERTY_TYPE_CODES AREA_IDS max_price property_type
        max_taxes max_fees neighborhoods min_sqft
      = build_search_url PROPERTY_TYPE_CODES AREA_IDS max_price property_type
          max_taxes max_fees neighborhoods None)
  /\ (off max_fees ->
      build_search_url PROPERTY_TYPE_CODES AREA_IDS max_price property_type
        max_taxes max_fees neighborhoods min_sqft
      = build_search_url PROPERTY_TYPE_CODES AREA_IDS max_price property_type
          max_taxes None neighborhoods min_sqft)
  /\ (off max_taxes ->
      build_search_url PROPERTY_TYPE_CODES AREA_IDS max_price property_type
        max_taxes max_fees neighborhoods min_sqft
      = build_search_url PROPERTY_TYPE_CODES AREA_IDS max_price property_type
          None max_fees neighborhoods min_sqft)
  /\ (forall p f t s, 0 < p -> 0 < f -> 0 < t -> 0 < s ->
        let filters :=
          search_filters PROPERTY_TYPE_CODES AREA_IDS (Some p) property_type
            (Some t) (Some f) neighborhoods (Some s) in
        In ("price:-" ++ str_of_int p)%string filters
        /\ In ("sqft>=" ++ str_of_int s)%string filters
        /\ In ("maintenance<=" ++ str_of_int f)%string filters
        /\ In ("taxes<=" ++ str_of_int t)%string filters).
Proof.
  intros off. unfold build_search_url, search_filters.
  repeat split.
  - intros H. now rewrite (limit_filter_off "price:-" max_price H).
  - intros H. now rewrite (limit_filter_off "sqft>=" min_sqft H).
  - intros H. now rewrite (limit_filter_off "maintenance<=" max_fees H).
  - intros H. now rewrite (limit_filter_off "taxes<=" max_taxes H).
  - rewrite (limit_filter_on "price:-" p) by assumption.
    apply in_or_app. right. now left.
  - rewrite (limit_filter_on "sqft>=" s) by assumption.
    apply in_or_app. right. apply in_or_app. right. now left.
  - rewrite (limit_filter_on "maintenance<=" f) by assumption.
    do 4 (apply in_or_app; right). apply in_or_app. left. now left.
  - rewrite (limit_filter_on "taxes<=" t) by assumption.
    do 5 (apply in_or_app; right). now left.
Qed.

(** X6. [get_area_ids] only returns numbers of the table.  Without a
    selection (none, or an empty one) it returns all of them in table
    order; names that are not in the table are passed over, so a
    selection of unknown names only gives no area at all, and the search
    URL then asks for area 101. *)
Theorem get_area_ids_spec (AREA_IDS : list (string * Z)) :
  (forall neighborhoods,
      Forall (fun i => exists name, In (name, i) AREA_IDS)
        (get_area_ids AREA_IDS neighborhoods))
  /\ get_area_ids AREA_IDS None = map snd AREA_IDS
  /\ get_area_ids AREA_IDS (Some []) = map snd AREA_IDS
  /\ (forall before name after,
         dict_get name AREA_IDS = None -> (before ++ after)%list <> [] ->
         get_area_ids AREA_IDS (Some (before ++ name :: after))
         = get_area_ids AREA_IDS (Some (before ++ after)))
  /\ (forall names,
         names <> [] -> Forall (fun n => dict_get n AREA_IDS = None) names ->
         get_area_ids AREA_IDS (Some names) = []
         /\ forall codes max_price property_type max_taxes max_fees min_sqft,
              In "area:101"%string
                (search_filters codes AREA_IDS max_price property_type
                   max_taxes max_fees (Some names) min_sqft)).
Proof.
  assert (Hall : forall names,
             Forall (fun n => dict_get n AREA_IDS = None) names ->
             omap (fun name => dict_get name AREA_IDS) names = []).
  { induction 1 as [|n names Hn _ IH]; [reflexivity|].
    simpl. unfold omap in IH |- *. simpl. now rewrite Hn. }
  split; [|split; [|split; [|split]]]; try reflexivity.
  - intros neighborhoods. apply List.Forall_forall. intros i Hi.
    unfold get_area_ids in Hi.
    destruct neighborhoods as [[|n names]|].
    + apply in_map_iff in Hi. destruct Hi as ([name v] & <- & Hin).
      now exists name.
    + apply list_elem_of_In, list_elem_of_omap in Hi.
      destruct Hi as (name & _ & Hget). exists name.
      now apply dict_get_in.
    + apply in_map_iff in Hi. destruct Hi as ([name v] & <- & Hin).
      now exists name.
  - intros before name after Hname Hne. unfold get_area_ids.
    assert (E : omap (fun n => dict_get n AREA_IDS) (before ++ name :: after)
                = omap (fun n => dict_get n AREA_IDS) (before ++ after)).
    { rewrite !omap_app. f_equal. unfold omap at 1. simpl. now rewrite Hname. }
    destruct (before ++ name :: after) eqn:E1;
      [now destruct before|].
    destruct (before ++ after) eqn:E2; [congruence|]. exact E.
  - intros names Hne Hunknown.
    assert (E : get_area_ids AREA_IDS (Some names) = []).
    { unfold get_area_ids. destruct names; [congruence|]. now apply Hall. }
    split; [exact E|]. intros.
    destruct (search_filters_area codes AREA_IDS max_price property_type
                max_taxes max_fees (Some names) min_sqft)
      as (b & a & ->).
    rewrite E. apply in_elt.
Qed.

(** * The further properties on the sample collaborators *)

Lemma limits_and_filters_witness :
  build_search_url SampleSearch.PROPERTY_TYPE_CODES SampleSearch.AREA_IDS
    (Some 0) "Condo" (Some 900) (Some 1200) None (Some 700)
  = build_search_url SampleSearch.PROPERTY_TYPE_CODES SampleSearch.AREA_IDS
      None "Condo" (Some 900) (Some 1200) None (Some 700).
Proof.
  apply (proj1 (limits_and_filters SampleSearch.PROPERTY_TYPE_CODES
                  SampleSearch.AREA_IDS "Condo" None
                  (Some 0) (Some 900) (Some 1200) (Some 700))).
  simpl. lia.
Defined.

Lemma get_area_ids_spec_witness :
  get_area_ids SampleSearch.AREA_IDS
    (Some ["Williamsburg"; "Atlantis"]%string)
  = get_area_ids SampleSearch.AREA_IDS (Some ["Williamsburg"]%string).
Proof.
  apply (proj1 (proj2 (proj2 (proj2
           (get_area_ids_spec SampleSearch.AREA_IDS))))
           ["Williamsburg"%string] "Atlantis"%string []).
  - reflexivity.
  - discriminate.
Defined.

Lemma scrape_listing_details_isolated_witness :
  exists d w',
    scrape_listing_details Sample.Html Sample.server Sample.clock
      Sample.strptime Sample.get_text Sample.detail_sections
      "https://streeteasy.com/sale/1" "key" Sample.after_one_request
    = (Return d, w')
    /\ d = empty_details.
Proof.
  destruct (scrape_listing_details_isolated Sample.Html Sample.server
              Sample.clock Sample.strptime Sample.get_text
              Sample.detail_sections "https://streeteasy.com/sale/1" "key"
              Sample.after_one_request)
    as (d & w' & H & _ & _ & He).
  exists d, w'. split; [exact H|]. apply He. reflexivity.
Defined.

Lemma scrape_listing_details_plausible_witness :
  exists d w',
    scrape_listing_details Sample.Html Sample.detail_page Sample.clock
      Sample.strptime Sample.get_text Sample.detail_sections
      "https://streeteasy.com/sale/1" "key" initial_world
    = (Return d, w')
    /\ det_sqft d = Some 1200 /\ 200 <= 1200 <= 10000.
Proof.
  pose (r := scrape_listing_details Sample.Html Sample.detail_page
               Sample.clock Sample.strptime Sample.get_text
               Sample.detail_sections "https://streeteasy.com/sale/1" "key"
               initial_world).
  pose (d := match fst r with Return d => d | Raise _ => empty_details end).
  assert (E : r = (Return d, snd r)) by (vm_compute; reflexivity).
  assert (Es : det_sqft d = Some 1200) by (vm_compute; reflexivity).
  exists d, (snd r). split; [exact E|]. split; [exact Es|].
  exact (proj1 (scrape_listing_details_plausible Sample.Html
                  Sample.detail_page Sample.clock Sample.strptime
                  Sample.get_text Sample.detail_sections
                  "https://streeteasy.com/sale/1" "key" initial_world
                  (snd r) d E) 1200 Es).
Defined.

Lemma parse_card_url_witness :
  exists l,
    parse_card Sample.Card Sample.Tag Sample.find Sample.get_href
      Sample.card_get_text Sample.tag_get_text "3 sqft|$500,000"
    = Return l
    /\ url l = Some "https://streeteasy.com/sale/1234567"%string.
Proof.
  pose (o := parse_card Sample.Card Sample.Tag Sample.find Sample.get_href
               Sample.card_get_text Sample.tag_get_text "3 sqft|$500,000").
  pose (l := match o with Return l => l | Raise _ => empty_listing end).
  assert (E : o = Return l) by (vm_compute; reflexivity).
  exists l. split; [exact E|].
  exact (proj1 (parse_card_url Sample.Card Sample.Tag Sample.find
                  Sample.get_href Sample.card_get_text Sample.tag_get_text
                  "3 sqft|$500,000"%string l E)
           "/sale/1234567"%string (Some "/sale/1234567"%string)
           eq_refl eq_refl).
Defined.

Lemma parse_cards_isolates_witness :
  parse_cards Sample.Card Sample.Tag Sample.find_nothing Sample.get_href
    Sample.card_get_text Sample.tag_get_text ["a"; "b"; "c"]%string
  = parse_cards Sample.Card Sample.Tag Sample.find_nothing Sample.get_href
      Sample.card_get_text Sample.tag_get_text ["a"; "c"]%string.
Proof.
  apply (proj1 (parse_cards_isolates Sample.Card Sample.Tag
                  Sample.find_nothing Sample.get_href Sample.card_get_text
                  Sample.tag_get_text ["a"%string] ["c"%string]
                  "b"%string)).
  intros l H. vm_compute in H. injection H as <-. reflexivity.
Defined.

Lemma always_answered_sample : always_answered Sample.Html Sample.server.
Proof.
  intros [|n] api_key target; eexists; reflexivity.
Defined.

Lemma scrape_streeteasy_counters_witness :
  exists listings w' n,
    scrape_streeteasy Sample.Html Sample.Card Sample.Tag Sample.server
      Sample.clock Sample.strptime Sample.find_all Sample.get_text
      Sample.detail_sections Sample.find Sample.get_href Sample.card_get_text
      Sample.tag_get_text "https://streeteasy.com/for-sale/nyc" "key" true 5
      initial_world
    = (Return listings, w')
    /\ spent initial_world w' n
    /\ n = Z.of_nat (requests w') - Z.of_nat (requests initial_world).
Proof.
  destruct (scrape_streeteasy_counters Sample.Html Sample.Card Sample.Tag
              Sample.server Sample.clock Sample.strptime Sample.find_all
              Sample.get_text Sample.detail_sections Sample.find
              Sample.get_href Sample.card_get_text Sample.tag_get_text
              "https://streeteasy.com/for-sale/nyc" "key" true 5
              initial_world)
    as (ls & w' & n & H & Sp & Ha).
  exists ls, w', n. split; [exact H|]. split; [exact Sp|].
  exact (Ha always_answered_sample).
Defined.

Lemma scrape_streeteasy_result_witness :
  exists listings w',
    scrape_streeteasy Sample.Html Sample.Card Sample.Tag Sample.server
      Sample.clock Sample.strptime Sample.find_all Sample.get_text
      Sample.detail_sections Sample.find Sample.get_href Sample.card_get_text
      Sample.tag_get_text "https://streeteasy.com/for-sale/nyc" "key" false 5
      initial_world
    = (Return listings, w')
    /\ Forall well_formed listings
    /\ Forall (fun l => listing_date l = None /\ days_on_market l = None)
         listings.
Proof.
  destruct (scrape_streeteasy_result Sample.Html Sample.Card Sample.Tag
              Sample.server Sample.clock Sample.strptime Sample.find_all
              Sample.get_text Sample.detail_sections Sample.find
              Sample.get_href Sample.card_get_text Sample.tag_get_text
              "https://streeteasy.com/for-sale/nyc" "key" false 5
              initial_world)
    as (ls & w' & H & W & _ & _ & D).
  exists ls, w'. split; [exact H|]. split; [exact W|]. apply D. reflexivity.
Defined.




Lemma no_pages_no_requests_witness :
  scrape_streeteasy Sample.Html Sample.Card Sample.Tag Sample.server
    Sample.clock Sample.strptime Sample.find_all Sample.get_text
    Sample.detail_sections Sample.find Sample.get_href Sample.card_get_text
    Sample.tag_get_text "https://streeteasy.com/for-sale/nyc" "key" true 0
    initial_world
  = (Return [], initial_world).
Proof.
  apply no_pages_no_requests. lia.
Defined.

Lemma extract_number_first_run_witness :
  extract_number (Some "$1,234.56/mo"%string) = Return (Some 1234).
Proof.
  apply (proj1 (extract_number_first_run "$1,234.56/mo"
                  ltac:(discriminate))
           [] (list_ascii_of_string "1234") (list_ascii_of_string ".56")
           ltac:(vm_compute; reflexivity) ltac:(constructor)
           ltac:(discriminate) ltac:(repeat constructor)
           ltac:(reflexivity)).
  vm_compute. discriminate.
Defined.

Lemma extract_number_amount_witness :
  extract_number (Some "$1,250,000"%string) = Return (Some 1250000).
Proof.
  apply (proj1 (extract_number_amount "$1,250,000"
                  ltac:(cbn [list_ascii_of_string];
                        repeat (apply List.Forall_cons;
                                [first [ left; reflexivity
                                       | right; left; reflexivity
                                       | right; right; reflexivity ]|]);
                        apply List.Forall_nil)
                  ltac:(apply List.Exists_cons_tl, List.Exists_cons_hd;
                        reflexivity))).
  vm_compute. discriminate.
Defined.

Lemma dedup_fixed_points_witness :
  dedup [Sample.with_url "u" "A"; Sample.without_url "C";
         Sample.with_url "v" "A"]
  = [Sample.with_url "u" "A"; Sample.without_url "C";
     Sample.with_url "v" "A"].
Proof.
  apply (proj2 (dedup_fixed_points
                  [Sample.with_url "u" "A"; Sample.without_url "C";
                   Sample.with_url "v" "A"])).
  split; [|split].
  - repeat constructor.
  - apply (@bool_decide_unpack _ (NoDup_dec _)). vm_compute. reflexivity.
  - apply (@bool_decide_unpack _ (NoDup_dec _)). vm_compute. reflexivity.
Defined.
